(** * Disposable browser sessions: a model of the session lifecycle manager

    Shallow embedding of
    - [src/models/sessionStore.ts]      (class SessionStore),
    - [src/services/dockerService.ts]   (class DockerService),
    - [src/services/sessionManager.ts]  (class SessionManager),
    - the start / stop / extend / remaining-time HTTP handlers and
      [proxyToBrowser].

    The Node process is one record [World]: the wall clock read by
    [Date.now()], the session table, the Redis client with the commands it
    has been handed but that have not completed yet, the table of pending
    [setTimeout] timers, the container runtime, and a trace of the runtime
    calls that were made.  Every TypeScript method is a function in the
    monad [M] (state + exceptions).  The clock moves by the delays the code
    asks for ([sleep]) and not by the time the runtime or the mirror take
    to answer.  Numbers are integers, hence [Z]; where
    the range of a [Date] ([valid_date]), the range of a timer delay
    ([timer_delay]) or the precision of a double ([to_double]) decides what
    the code does, the model says so. *)

From Stdlib Require Import ZArith Lia.
From stdpp Require Import gmap strings list fin_maps pretty.

Local Open Scope Z_scope.

(* ===================================================================== *)
(** ** Data model ([src/types/index.ts]) *)
(* ===================================================================== *)

(** [interface Session].  [timer] is the handle returned by [setTimeout];
    a session read back from JSON carries no live handle ([None]).
    [metadata] is flattened into its two fields. *)
Record Session := mkSession {
  containerId : string;
  hostPort : Z;
  expiresAt : Z;
  timer : option nat;
  userId : option string;
  createdAt : Z;
  createdBy : string
}.

Inductive Status := created | running | exited | dead.

#[global] Instance Status_eq_dec : EqDecision Status.
Proof. solve_decision. Defined.

(** [interface ContainerInfo] *)
Record ContainerInfo := mkContainerInfo {
  info_id : string;
  info_hostPort : Z;
  info_status : Status
}.

(** [interface SessionResponse] *)
Record SessionResponse := mkSessionResponse {
  resp_containerId : string;
  resp_hostPort : Z;
  resp_proxyUrl : string;
  resp_browserUrl : string;
  resp_expiresAt : Z;
  resp_remainingTimeMs : Z
}.

(** The part of [config] the lifecycle code reads. *)
Record Config := mkConfig {
  maxSessions : Z;
  defaultDurationMs : Z;
  persistenceEnabled : bool
}.

(** JavaScript [Error] values that travel through the lifecycle code. *)
Inductive Error :=
| MaxSessionsReached (ceiling : Z)   (* `Maximum number of sessions (N) reached` *)
| SessionNotFound                    (* 'Session not found' *)
| RuntimeError (what : string)       (* rejected promise of a dockerode call *)
| InvalidTime                        (* RangeError: Invalid time value *)
| CircularStructure.                 (* TypeError: Converting circular structure to JSON *)

(* ===================================================================== *)
(** ** The durable mirror (ioredis client) *)
(* ===================================================================== *)

Inductive RedisCmd :=
| SETEX (key : string) (seconds : Z) (value : Session)
| DEL (key : string).

(** [rdata] is what the server holds; [rpending] are the commands handed to
    the client whose promise has not resolved yet, oldest first.  Commands
    complete in the order they were issued.  A command that the server
    rejects is logged and swallowed by the store; rejections and the
    server-side expiry of keys are not part of this model, the seconds
    given to SETEX are kept with the record. *)
Record Redis := mkRedis {
  rdata : gmap string (Z * Session);
  rpending : list RedisCmd
}.

Definition redis_apply (c : RedisCmd) (d : gmap string (Z * Session))
  : gmap string (Z * Session) :=
  match c with
  | SETEX k ttl v => <[k := (ttl, v)]> d
  | DEL k => delete k d
  end.

(** All commands in flight complete, in the order they were issued. *)
Definition redis_settle (r : Redis) : Redis :=
  mkRedis (foldl (fun d c => redis_apply c d) (rdata r) (rpending r)) [].

Definition redis_issue (c : RedisCmd) (r : Redis) : Redis :=
  mkRedis (rdata r) (rpending r ++ [c]).

(** [`session:${containerId}`] *)
Definition redis_key (id : string) : string := "session:" +:+ id.

(** What [JSON.parse] reads back from a session that [JSON.stringify]
    could write: the data fields survive, a timer handle does not.
    ([JSON.stringify] itself is [SessionStore.stringify]: it throws on a
    session whose timer is pending.) *)
Definition toJSON (s : Session) : Session :=
  mkSession (containerId s) (hostPort s) (expiresAt s) None (userId s)
            (createdAt s) (createdBy s).

(** [Math.ceil(a / b)] for a positive divisor. *)
Definition ceil_div (a b : Z) : Z := - ((- a) / b).

(* ===================================================================== *)
(** ** Pending timers of the event loop *)
(* ===================================================================== *)

(** Every timer of this program runs [() => this.removeSession(containerId)],
    so a timer is the id it will remove and the instant it is due. *)
Record Timers := mkTimers {
  live : gmap nat (string * Z);
  next_handle : nat
}.

(* ===================================================================== *)
(** ** The container runtime behind dockerode *)
(* ===================================================================== *)

Record Container := mkContainer {
  cid : string;
  cstate : Status;
  labelled : bool;      (* carries the label disposable-suite=true *)
  published : Z         (* host port bound to 3000/tcp, 0 when none *)
}.

(** The runtime and the way it is going to misbehave.  [startOutcomes]
    lists the outcomes of the coming [container.start()] calls ([true] is
    success; success once the list is used up).  The other flags say
    whether a kind of call fails.  A stopped container stays until it is
    removed (the daemon's own auto-removal is not modelled). *)
Record Docker := mkDocker {
  containers : list Container;
  idSupply : nat;
  listFails : bool;
  imageLocal : bool;
  pullFails : bool;
  createFails : bool;
  startOutcomes : list bool;
  publishes : Z;        (* host port the runtime binds on start, 0 = never *)
  stopFails : bool;
  removeFails : bool
}.

(** Calls that left the process, oldest first. *)
Inductive Event :=
| EvListContainers
| EvImageInspect
| EvPull
| EvCreateContainer (id : option string)   (* the id the runtime answered *)
| EvStart (id : string) (ok : bool)
| EvInspect (id : string)
| EvStop (id : string)
| EvRemove (id : string)
| EvSleep (ms : Z)
| EvStopContainer (id : string).   (* DockerService.stopContainer entered *)

#[global] Instance Event_eq_dec : EqDecision Event.
Proof. solve_decision. Defined.

(* ===================================================================== *)
(** ** The process state and the monad of methods *)
(* ===================================================================== *)

Record World := mkWorld {
  clock : Z;                           (* Date.now() *)
  sessions : gmap string Session;      (* SessionStore.sessions *)
  redis : option Redis;                (* SessionStore.redis *)
  timers : Timers;
  docker : Docker;
  trace : list Event
}.

Definition set_clock (t : Z) (w : World) : World :=
  mkWorld t (sessions w) (redis w) (timers w) (docker w) (trace w).
Definition set_sessions (m : gmap string Session) (w : World) : World :=
  mkWorld (clock w) m (redis w) (timers w) (docker w) (trace w).
Definition set_redis (r : option Redis) (w : World) : World :=
  mkWorld (clock w) (sessions w) r (timers w) (docker w) (trace w).
Definition set_timers (t : Timers) (w : World) : World :=
  mkWorld (clock w) (sessions w) (redis w) t (docker w) (trace w).
Definition set_docker (d : Docker) (w : World) : World :=
  mkWorld (clock w) (sessions w) (redis w) (timers w) d (trace w).
Definition set_trace (l : list Event) (w : World) : World :=
  mkWorld (clock w) (sessions w) (redis w) (timers w) (docker w) l.

Inductive Outcome (A : Type) :=
| Returned (a : A)
| Thrown (e : Error).
Arguments Returned {A} a.
Arguments Thrown {A} e.

Definition M (A : Type) : Type := World -> Outcome A * World.

Definition ret {A} (a : A) : M A := fun w => (Returned a, w).
Definition throw {A} (e : Error) : M A := fun w => (Thrown e, w).
Definition bind {A B} (m : M A) (k : A -> M B) : M B :=
  fun w => match m w with
           | (Returned a, w') => k a w'
           | (Thrown e, w') => (Thrown e, w')
           end.
(** [try { m } catch (error) { h error }] *)
Definition try_catch {A} (m : M A) (h : Error -> M A) : M A :=
  fun w => match m w with
           | (Returned a, w') => (Returned a, w')
           | (Thrown e, w') => h e w'
           end.
Definition get : M World := fun w => (Returned w, w).
Definition modify (f : World -> World) : M unit := fun w => (Returned tt, f w).

#[global] Instance M_ret : MRet M := @ret.
#[global] Instance M_bind : MBind M := fun A B k m => bind m k.

Definition emit (e : Event) : M unit :=
  modify (fun w => set_trace (trace w ++ [e]) w).

(** The delay Node gives a timer: a delay below 1 ms or above
    [2^31 - 1] ms is replaced by 1 ms. *)
Definition TIMEOUT_MAX : Z := 2147483647.

Definition timer_delay (delay : Z) : Z :=
  if decide (1 <= delay <= TIMEOUT_MAX) then delay else 1.

(** [await new Promise(resolve => setTimeout(resolve, ms))].  The clock of
    the model moves by the delay asked for and not by the time the runtime
    or the mirror take to answer: it is a lower bound of the time that has
    passed. *)
Definition sleep (ms : Z) : M unit :=
  emit (EvSleep ms);; modify (fun w => set_clock (clock w + timer_delay ms) w).

(** [setTimeout(() => this.removeSession(id), delay)] *)
Definition setTimeout (id : string) (delay : Z) : M nat :=
  fun w =>
    let h := next_handle (timers w) in
    (Returned h,
     set_timers (mkTimers (<[h := (id, clock w + timer_delay delay)]> (live (timers w)))
                          (S h)) w).

(** The time values a [Date] can hold: 8.64e15 ms either side of the
    epoch. *)
Definition valid_date (t : Z) : Prop :=
  -8640000000000000 <= t <= 8640000000000000.

(** [new Date(t).toISOString()], evaluated for a log line: a
    [RangeError] when the date is invalid. *)
Definition toISOString (t : Z) : M unit :=
  if decide (valid_date t) then ret tt else throw InvalidTime.

(** [clearTimeout(handle)]; a value that is no live handle is ignored. *)
Definition clearTimeout (h : option nat) : M unit :=
  match h with
  | Some n => modify (fun w =>
      set_timers (mkTimers (delete n (live (timers w))) (next_handle (timers w))) w)
  | None => ret tt
  end.

(** [for (const x of xs) { await body(x) }] *)
Fixpoint forEach {A} (xs : list A) (body : A -> M unit) : M unit :=
  match xs with
  | [] => ret tt
  | x :: rest => body x;; forEach rest body
  end.

(** JavaScript truthiness of an optional string: [undefined] and the empty
    string are falsy. *)
Definition truthy_string (o : option string) : option string :=
  match o with
  | Some s => if decide (s = "") then None else Some s
  | None => None
  end.

(** [n || fallback] on an optional number: [undefined] and [0] are falsy. *)
Definition number_or (o : option Z) (fallback : Z) : Z :=
  match o with
  | Some n => if decide (n = 0) then fallback else n
  | None => fallback
  end.

(* ===================================================================== *)
(** ** [src/models/sessionStore.ts] *)
(* ===================================================================== *)

Module SessionStore.

(** The client is handed a command; nobody waits for its promise. *)
Definition redis_send (c : RedisCmd) : M unit :=
  modify (fun w =>
    match redis w with
    | Some r => set_redis (Some (redis_issue c r)) w
    | None => w
    end).

(** [await] on a promise of the client: every command handed over so far
    has completed when the caller resumes. *)
Definition redis_await : M unit :=
  modify (fun w =>
    match redis w with
    | Some r => set_redis (Some (redis_settle r)) w
    | None => w
    end).

(** [JSON.stringify(session)].  [session.timer] is the [Timeout] object
    of Node; while the timer is pending that object sits in the timer list
    of the event loop, which is circular, and [JSON.stringify] throws a
    [TypeError].  A session without timer, or whose timer was cleared or
    has fired, is written with its data fields. *)
Definition stringify (session : Session) : M Session :=
  w ← get;
  match timer session with
  | Some h =>
      if decide (is_Some (live (timers w) !! h)) then throw CircularStructure
      else ret (toJSON session)
  | None => ret (toJSON session)
  end.

(** [persistSession(session)] as its two callers run it: they do not
    [await] the promise, so the method runs up to its own
    [await this.redis.setex(...)] and control is back in the caller, a
    SETEX that was handed over being in flight.  The arguments of [setex]
    are evaluated before the call, inside the [try]: when
    [JSON.stringify] throws, the [catch] logs and no command is handed to
    the client. *)
Definition persistSession (session : Session) : M unit :=
  w ← get;
  match redis w with
  | None => ret tt
  | Some _ =>
      try_catch
        (sessionData ← stringify session;
         redis_send (SETEX (redis_key (containerId session))
                           (ceil_div (expiresAt session - clock w) 1000)
                           sessionData))
        (fun _ => ret tt)
  end.

(** [await this.removeSessionFromRedis(containerId)] *)
Definition removeSessionFromRedis (cId : string) : M unit :=
  w ← get;
  match redis w with
  | None => ret tt
  | Some _ => redis_send (DEL (redis_key cId));; redis_await
  end.

Definition createSession (cId : string) (port durationMs : Z)
    (uid : option string) : M Session :=
  w ← get;
  let expires := clock w + durationMs in
  h ← setTimeout cId durationMs;
  let session :=
    mkSession cId port expires (Some h) (truthy_string uid) (clock w)
              (default "anonymous" (truthy_string uid)) in
  modify (fun w => set_sessions (<[cId := session]> (sessions w)) w);;
  persistSession session;;
  toISOString expires;;
  ret session.

Definition getSession (w : World) (cId : string) : option Session :=
  sessions w !! cId.

Definition getAllSessions (w : World) : list Session :=
  (map_to_list (sessions w)).*2.

Definition getActiveSessionsCount (w : World) : Z :=
  Z.of_nat (size (sessions w)).

Definition removeSession (cId : string) : M bool :=
  w ← get;
  match sessions w !! cId with
  | None => ret false
  | Some session =>
      clearTimeout (timer session);;
      modify (fun w => set_sessions (delete cId (sessions w)) w);;
      removeSessionFromRedis cId;;
      ret true
  end.

Definition updateSessionExpiry (cId : string) (newExpiresAt : Z) : M bool :=
  w ← get;
  match sessions w !! cId with
  | None => ret false
  | Some session =>
      clearTimeout (timer session);;
      h ← setTimeout cId (newExpiresAt - clock w);
      let session' :=
        mkSession (containerId session) (hostPort session) newExpiresAt
                  (Some h) (userId session) (createdAt session)
                  (createdBy session) in
      modify (fun w => set_sessions (<[cId := session']> (sessions w)) w);;
      persistSession session';;
      toISOString newExpiresAt;;
      ret true
  end.

Definition getRemainingTime (w : World) (cId : string) : Z :=
  match sessions w !! cId with
  | None => 0
  | Some session => Z.max 0 (expiresAt session - clock w)
  end.

(** [session?.hostPort || null] *)
Definition getSessionHostPort (w : World) (cId : string) : option Z :=
  match sessions w !! cId with
  | None => None
  | Some session =>
      if decide (hostPort session = 0) then None else Some (hostPort session)
  end.

Definition isSessionActive (w : World) (cId : string) : bool :=
  match sessions w !! cId with
  | None => false
  | Some session => bool_decide (expiresAt session > clock w)
  end.

(** One turn of the loop of [loadSessionsFromRedis]. *)
Definition loadKey (key : string) : M unit :=
  redis_await;;
  w ← get;
  match redis w with
  | None => ret tt
  | Some r =>
      match rdata r !! key with
      | None => ret tt
      | Some (_, session) =>
          if decide (expiresAt session > clock w)
          then modify (fun w =>
                 set_sessions (<[containerId session := session]> (sessions w)) w)
          else redis_send (DEL key);; redis_await
      end
  end.

(** [redis.keys('session:*')], once its promise has resolved. *)
Definition sessionKeys (r : Redis) : list string :=
  filter (fun k => String.prefix "session:" k = true)
         (map_to_list (rdata r)).*1.

Definition loadSessionsFromRedis : M unit :=
  w ← get;
  match redis w with
  | None => ret tt
  | Some _ =>
      redis_await;;
      w ← get;
      match redis w with
      | None => ret tt
      | Some r => forEach (sessionKeys r) loadKey
      end
  end.

(** [initializeRedis], started by the constructor.  [server] is the
    mirror the client reaches when [connect()] succeeds, [None] when it
    fails (the [catch] then resets [this.redis] to [null]). *)
Definition initializeRedis (cfg : Config) (server : option Redis) : M unit :=
  if persistenceEnabled cfg then
    match server with
    | Some r => modify (set_redis (Some r));; loadSessionsFromRedis
    | None => modify (set_redis None)
    end
  else ret tt.

(** A timer of the event loop comes due: its callback removes the
    session from the store (and nothing from the runtime). *)
Definition fireTimer (h : nat) : M bool :=
  w ← get;
  match live (timers w) !! h with
  | None => ret false
  | Some (cId, due) =>
      if decide (due <= clock w)
      then clearTimeout (Some h);; removeSession cId
      else ret false
  end.

(** [cleanupExpiredSessions], the body of the periodic sweep. *)
Definition cleanupExpiredSessions : M unit :=
  w ← get;
  let expiredSessions :=
    filter (fun s => expiresAt s <= clock w) (getAllSessions w) in
  forEach expiredSessions (fun s => removeSession (containerId s);; ret tt).

End SessionStore.

(* ===================================================================== *)
(** ** [src/services/dockerService.ts] *)
(* ===================================================================== *)

Module DockerService.

Definition maxRetries : nat := 3.
Definition retryDelay : Z := 1000.

(** *** The dockerode calls, against the runtime of the world *)

Definition find_container (cId : string) (cs : list Container)
  : option Container :=
  List.find (fun c => bool_decide (cid c = cId)) cs.

Definition update_container (cId : string) (f : Container -> Container)
    (cs : list Container) : list Container :=
  (fun c => if decide (cid c = cId) then f c else c) <$> cs.

Definition drop_container (cId : string) (cs : list Container)
  : list Container :=
  filter (fun c => cid c ≠ cId) cs.

Definition set_containers (cs : list Container) (d : Docker) : Docker :=
  mkDocker cs (idSupply d) (listFails d) (imageLocal d) (pullFails d)
           (createFails d) (startOutcomes d) (publishes d) (stopFails d)
           (removeFails d).

Definition modify_docker (f : Docker -> Docker) : M unit :=
  modify (fun w => set_docker (f (docker w)) w).

(** [docker.listContainers({ all, filters: { label, status } })]:
    labelled containers, only the running ones unless [all]. *)
Definition listContainers (all : bool) : M (list Container) :=
  emit EvListContainers;;
  w ← get;
  if listFails (docker w) then throw (RuntimeError "listContainers")
  else ret (filter (fun c => labelled c = true ∧ (all = true ∨ cstate c = running))
                   (containers (docker w))).

(** [docker.getImage(image).inspect()] *)
Definition imageInspect : M unit :=
  emit EvImageInspect;;
  w ← get;
  if imageLocal (docker w) then ret tt else throw (RuntimeError "no such image").

(** [docker.pull(image)] *)
Definition pull : M unit :=
  emit EvPull;;
  w ← get;
  if pullFails (docker w) then throw (RuntimeError "pull")
  else modify_docker (fun d =>
         mkDocker (containers d) (idSupply d) (listFails d) true (pullFails d)
                  (createFails d) (startOutcomes d) (publishes d) (stopFails d)
                  (removeFails d)).

(** [docker.createContainer({...})]: the runtime picks the id. *)
Definition createContainer : M string :=
  w ← get;
  let d := docker w in
  if createFails d
  then emit (EvCreateContainer None);; throw (RuntimeError "createContainer")
  else
    let cId : string := pretty (idSupply d) in
    emit (EvCreateContainer (Some cId));;
    modify_docker (fun d =>
      mkDocker (containers d ++ [mkContainer cId created true 0])
               (S (idSupply d)) (listFails d) (imageLocal d) (pullFails d)
               (createFails d) (startOutcomes d) (publishes d) (stopFails d)
               (removeFails d));;
    ret cId.

(** [container.start()]: the runtime takes the next outcome of its script;
    a container that does not exist cannot be started. *)
Definition start_ok (cId : string) (d : Docker) : bool :=
  match startOutcomes d with [] => true | b :: _ => b end
  && bool_decide (is_Some (find_container cId (containers d))).

Definition after_start (cId : string) (d : Docker) : Docker :=
  mkDocker (if start_ok cId d
            then update_container cId
                   (fun c => mkContainer (cid c) running (labelled c) (publishes d))
                   (containers d)
            else containers d)
           (idSupply d) (listFails d) (imageLocal d) (pullFails d)
           (createFails d) (tail (startOutcomes d)) (publishes d)
           (stopFails d) (removeFails d).

Definition container_start (cId : string) : M unit :=
  w ← get;
  let ok := start_ok cId (docker w) in
  emit (EvStart cId ok);;
  modify_docker (after_start cId);;
  if ok then ret tt else throw (RuntimeError "start").

(** [container.inspect()] *)
Definition inspect (cId : string) : M Container :=
  emit (EvInspect cId);;
  w ← get;
  match find_container cId (containers (docker w)) with
  | Some c => ret c
  | None => throw (RuntimeError "no such container")
  end.

(** [container.stop({ t: 10 })] *)
Definition container_stop (cId : string) : M unit :=
  emit (EvStop cId);;
  w ← get;
  if stopFails (docker w) then throw (RuntimeError "stop")
  else modify_docker (fun d =>
         set_containers
           (update_container cId
              (fun c => mkContainer (cid c) exited (labelled c) (published c))
              (containers d)) d).

(** [container.remove({ force: true })] *)
Definition container_remove (cId : string) : M unit :=
  emit (EvRemove cId);;
  w ← get;
  if removeFails (docker w) then throw (RuntimeError "remove")
  else
    match find_container cId (containers (docker w)) with
    | None => throw (RuntimeError "no such container")
    | Some _ =>
        modify_docker (fun d => set_containers (drop_container cId (containers d)) d)
    end.

(** *** The methods of the class *)

Definition getActiveContainersCount : M Z :=
  try_catch
    (cs ← listContainers false; ret (Z.of_nat (length cs)))
    (fun _ => ret 0).

Definition ensureImageExists : M unit :=
  try_catch imageInspect (fun _ => pull).

(** The [for] loop of [startContainerWithRetry]: [remaining] turns are
    left, the loop variable is [attempt]. *)
Fixpoint startAttempts (remaining : nat) (attempt : Z) (cId : string) : M unit :=
  match remaining with
  | O => ret tt
  | S r =>
      try_catch (container_start cId)
        (fun error =>
           if decide (attempt = Z.of_nat maxRetries) then throw error
           else sleep (retryDelay * attempt);;
                startAttempts r (attempt + 1) cId)
  end.

Definition startContainerWithRetry (cId : string) : M unit :=
  startAttempts maxRetries 1 cId.

(** The [while] loop of [waitForHostPort]; every turn that does not
    return sleeps 100 ms, so [fuel] turns are enough once
    [100 * fuel >= timeoutMs]. *)
Fixpoint waitLoop (fuel : nat) (start timeoutMs : Z) (cId : string) : M Z :=
  match fuel with
  | O => ret 0
  | S f =>
      w ← get;
      if decide (clock w - start < timeoutMs) then
        info ← inspect cId;
        let port := published info in
        if decide (port > 0) then ret port
        else sleep 100;; waitLoop f start timeoutMs cId
      else ret 0
  end.

Definition waitForHostPort (cId : string) (timeoutMs : Z) : M Z :=
  w ← get;
  waitLoop (Z.to_nat (timeoutMs / 100) + 2) (clock w) timeoutMs cId.

(** [startContainer], first part: the capacity check. *)
Definition capacityCheck (cfg : Config) : M unit :=
  activeContainers ← getActiveContainersCount;
  if decide (activeContainers >= maxSessions cfg)
  then throw (MaxSessionsReached (maxSessions cfg))
  else ret tt.

(** [startContainer], second part: image, create, start, port. *)
Definition provision : M ContainerInfo :=
  ensureImageExists;;
  cId ← createContainer;
  startContainerWithRetry cId;;
  port ← waitForHostPort cId 5000;
  info ← inspect cId;
  ret (mkContainerInfo cId port (cstate info)).

Definition startContainer (cfg : Config) : M ContainerInfo :=
  try_catch (capacityCheck cfg;; provision) (fun error => throw error).

Definition stopContainer (cId : string) : M bool :=
  emit (EvStopContainer cId);;
  try_catch
    (info ← inspect cId;
     (if decide (cstate info = running) then container_stop cId else ret tt);;
     container_remove cId;;
     ret true)
    (fun _ => ret false).

End DockerService.

(* ===================================================================== *)
(** ** [src/services/sessionManager.ts] *)
(* ===================================================================== *)

Module SessionManager.

(** [createSession] up to the call of [dockerService.startContainer]. *)
Definition admission (cfg : Config) : M unit :=
  w ← get;
  let activeSessions := SessionStore.getActiveSessionsCount w in
  if decide (activeSessions >= maxSessions cfg)
  then throw (MaxSessionsReached (maxSessions cfg))
  else ret tt.

(** [createSession] after [startContainer] has returned. *)
Definition record (containerInfo : ContainerInfo) (sessionDuration : Z)
    (uid : option string) : M SessionResponse :=
  session ← SessionStore.createSession (info_id containerInfo)
               (info_hostPort containerInfo) sessionDuration uid;
  ret (mkSessionResponse
         (info_id containerInfo)
         (info_hostPort containerInfo)
         ("/browser-session/" +:+ info_id containerInfo +:+ "/")
         ("http://localhost:" +:+ pretty (info_hostPort containerInfo) +:+ "/")
         (expiresAt session)
         sessionDuration).

Definition createSession (cfg : Config) (durationMs : option Z)
    (uid : option string) : M SessionResponse :=
  let sessionDuration := number_or durationMs (defaultDurationMs cfg) in
  try_catch
    (admission cfg;;
     containerInfo ← DockerService.startContainer cfg;
     record containerInfo sessionDuration uid)
    (fun error => throw error).

Definition stopSession (cId : string) : M bool :=
  try_catch
    (containerStopped ← DockerService.stopContainer cId;
     sessionRemoved ← SessionStore.removeSession cId;
     ret (containerStopped && sessionRemoved))
    (fun _ => ret false).

Definition getRemainingTime (w : World) (cId : string) : Z :=
  SessionStore.getRemainingTime w cId.

Definition extendSession (cId : string) (extraMs : Z) : M bool :=
  try_catch
    (w ← get;
     match SessionStore.getSession w cId with
     | None => throw SessionNotFound
     | Some session =>
         let newExpiresAt := expiresAt session + extraMs in
         success ← SessionStore.updateSessionExpiry cId newExpiresAt;
         toISOString newExpiresAt;;
         ret success
     end)
    (fun _ => ret false).

Definition getSessionHostPort (w : World) (cId : string) : option Z :=
  SessionStore.getSessionHostPort w cId.

Definition isSessionActive (w : World) (cId : string) : bool :=
  SessionStore.isSessionActive w cId.

End SessionManager.

(* ===================================================================== *)
(** ** HTTP handlers ([src/api/browser/*.ts]) *)
(* ===================================================================== *)

(** [(error as Error).message] *)
Definition error_message (e : Error) : string :=
  match e with
  | MaxSessionsReached n => "Maximum number of sessions (" +:+ pretty n +:+ ") reached"
  | SessionNotFound => "Session not found"
  | RuntimeError what => what
  | InvalidTime => "Invalid time value"
  | CircularStructure => "Converting circular structure to JSON"
  end.

Module Handlers.

(** What the handler sends: the status, [success], the [message] or
    [error] text, and the [stopped] / [extended] flag of [data]. *)
Record HttpResponse := mkHttp {
  http_status : Z;
  http_success : bool;
  http_text : string;
  http_flag : option bool
}.

(** [stopSession(req, res)]; [errorsEmpty] is
    [validationResult(req).isEmpty()], [cId] is [req.body.containerId]. *)
Definition stopSession (errorsEmpty : bool) (cId : string) : M HttpResponse :=
  try_catch
    (if negb errorsEmpty then ret (mkHttp 400 false "Validation failed" None)
     else
       w ← get;
       if negb (SessionManager.isSessionActive w cId)
       then ret (mkHttp 200 true "Session already stopped or does not exist" (Some true))
       else
         success ← SessionManager.stopSession cId;
         if (success : bool)
         then ret (mkHttp 200 true "Session stopped successfully" (Some true))
         else ret (mkHttp 200 true "Session already stopped or does not exist" (Some true)))
    (fun error => ret (mkHttp 500 false (error_message error) None)).

(** [extendSession(req, res)] *)
Definition extendSession (errorsEmpty : bool) (cId : string) (extendByMs : Z)
  : M HttpResponse :=
  try_catch
    (if negb errorsEmpty then ret (mkHttp 400 false "Validation failed" None)
     else
       w ← get;
       if negb (SessionManager.isSessionActive w cId)
       then ret (mkHttp 404 false "Session not found or already expired" (Some false))
       else
         success ← SessionManager.extendSession cId extendByMs;
         if (success : bool)
         then ret (mkHttp 200 true "Session extended successfully" (Some true))
         else ret (mkHttp 500 false "Failed to extend session" (Some false)))
    (fun error => ret (mkHttp 500 false (error_message error) None)).

Inductive ProxyOutcome :=
| Answer404                 (* 'Session not found or not active' *)
| ForwardTo (port : Z).     (* target http://localhost:port *)

(** [proxyToBrowser]: [hostPort] is [number | null]; [null] fails the
    [typeof hostPort !== 'number'] test (and [!hostPort] in the other
    copy of the handler). *)
Definition proxyToBrowser (w : World) (cId : string) : ProxyOutcome :=
  match SessionManager.getSessionHostPort w cId with
  | None => Answer404
  | Some port => ForwardTo port
  end.

End Handlers.

(* ===================================================================== *)
(** ** Several [createSession] calls in flight *)
(* ===================================================================== *)

(** Node runs one call until it awaits; other calls run meanwhile.  A call
    of [SessionManager.createSession] is cut where it awaits the runtime:
    after its own admission test, and after the listing that feeds the
    capacity test of [startContainer].  (The code awaits more often; every
    schedule of this coarser machine is one of the program.) *)
Module Interleaving.

Inductive Pc :=
| AtAdmission
| AtCapacityCheck
| AtProvision
| Finished (r : Outcome SessionResponse).

Record Call := mkCall {
  call_duration : option Z;
  call_user : option string;
  call_pc : Pc
}.

Definition at_pc (c : Call) (pc : Pc) : Call :=
  mkCall (call_duration c) (call_user c) pc.

Definition step (cfg : Config) (c : Call) (w : World) : Call * World :=
  match call_pc c with
  | AtAdmission =>
      match SessionManager.admission cfg w with
      | (Returned _, w') => (at_pc c AtCapacityCheck, w')
      | (Thrown e, w') => (at_pc c (Finished (Thrown e)), w')
      end
  | AtCapacityCheck =>
      match DockerService.capacityCheck cfg w with
      | (Returned _, w') => (at_pc c AtProvision, w')
      | (Thrown e, w') => (at_pc c (Finished (Thrown e)), w')
      end
  | AtProvision =>
      let sessionDuration := number_or (call_duration c) (defaultDurationMs cfg) in
      match (containerInfo ← DockerService.provision;
             SessionManager.record containerInfo sessionDuration (call_user c)) w with
      | (r, w') => (at_pc c (Finished r), w')
      end
  | Finished _ => (c, w)
  end.

(** [schedule] names, turn after turn, the call that runs next. *)
Fixpoint run (cfg : Config) (schedule : list nat) (calls : list Call)
    (w : World) : list Call * World :=
  match schedule with
  | [] => (calls, w)
  | i :: rest =>
      match calls !! i with
      | None => run cfg rest calls w
      | Some c =>
          let '(c', w') := step cfg c w in
          run cfg rest (<[i := c']> calls) w'
      end
  end.

(** Admission granted and provisioning in flight. *)
Definition pending (c : Call) : bool :=
  match call_pc c with
  | AtCapacityCheck | AtProvision => true
  | _ => false
  end.

(** Active + Pending. *)
Definition occupancy (calls : list Call) (w : World) : Z :=
  Z.of_nat (size (sessions w)) + Z.of_nat (length (filter (fun c => pending c = true) calls)).

End Interleaving.

(* ===================================================================== *)
(** ** Worlds used in the examples *)
(* ===================================================================== *)

(** A runtime without containers where every call succeeds and ports are
    bound at start. *)
Definition healthy_docker : Docker :=
  mkDocker [] 0 false true false false [] 32768 false false.

Definition with_startOutcomes (l : list bool) (d : Docker) : Docker :=
  mkDocker (containers d) (idSupply d) (listFails d) (imageLocal d) (pullFails d)
           (createFails d) l (publishes d) (stopFails d) (removeFails d).

(** A process that has just started, without and with a mirror. *)
Definition fresh_world : World :=
  mkWorld 1000000 ∅ None (mkTimers ∅ 0) healthy_docker [].

Definition mirrored_world : World :=
  mkWorld 1000000 ∅ (Some (mkRedis ∅ [])) (mkTimers ∅ 0) healthy_docker [].

Definition one_slot : Config := mkConfig 1 300000 false.
Definition ten_slots : Config := mkConfig 10 300000 true.

(* ===================================================================== *)
(** ** Vocabulary of the statements *)
(* ===================================================================== *)

(** A method keeps [R] when the world it leaves is [R]-related to the world
    it was started in, whether it returns or throws. *)
Definition keeps (R : relation World) {A} (m : M A) : Prop :=
  ∀ w, R w (m w).2.

(** Calls that tear a container down. *)
Definition is_teardown (e : Event) : bool :=
  match e with
  | EvStop _ | EvRemove _ | EvStopContainer _ => true
  | _ => false
  end.

(** What the provisioning path may change: the registry, the mirror and
    the timers stay as they are, no container disappears, and no teardown
    call is made. *)
Definition provision_frame (w w' : World) : Prop :=
  sessions w' = sessions w ∧ redis w' = redis w ∧ timers w' = timers w
  ∧ (length (containers (docker w)) ≤ length (containers (docker w')))%nat
  ∧ ∃ δ, trace w' = trace w ++ δ ∧ Forall (fun e => is_teardown e = false) δ.


(** The trace only grows, and by events outside [sel]. *)
Definition quiet (sel : Event -> bool) (w w' : World) : Prop :=
  ∃ δ, trace w' = trace w ++ δ ∧ Forall (fun e => sel e = false) δ.

Definition is_start (e : Event) : bool :=
  match e with EvStart _ _ => true | _ => false end.

Definition is_create (e : Event) : bool :=
  match e with EvCreateContainer _ => true | _ => false end.

(** Number of events of a kind. *)
Definition count (sel : Event -> bool) (l : list Event) : nat :=
  length (filter (fun e => sel e = true) l).

(** The runtime refuses two starts and accepts the third. *)
Definition reluctant_world : World :=
  set_docker (with_startOutcomes [false; false; true] healthy_docker) fresh_world.

(** The world after a refused [container.start()], and after a backoff. *)
Definition after_refusal (cId : string) (w : World) : World :=
  set_docker (with_startOutcomes (tail (startOutcomes (docker w))) (docker w))
    (set_trace (trace w ++ [EvStart cId false]) w).

Definition after_backoff (ms : Z) (w : World) : World :=
  set_clock (clock w + timer_delay ms) (set_trace (trace w ++ [EvSleep ms]) w).

(** Entries into [DockerService.stopContainer], the teardown of the
    runtime adapter. *)
Definition is_terminate (e : Event) : bool :=
  match e with EvStopContainer _ => true | _ => false end.

(** A runtime that never binds a host port: [waitForHostPort] times out. *)
Definition mute_world : World :=
  set_docker (mkDocker [] 0 false true false false [] 0 false false) fresh_world.

(** The world after a session was created there. *)
Definition unrouted_world : World :=
  (SessionManager.createSession ten_slots None None mute_world).2.

(** A process with one running session. *)
Definition busy_world : World :=
  (SessionManager.createSession ten_slots None None mirrored_world).2.

(** A mirror found at startup: one record that has expired by now and one
    that has not. *)
Definition old_session : Session :=
  mkSession "old" 32768 900000 None None 600000 "anonymous".
Definition young_session : Session :=
  mkSession "young" 32769 1100000 None None 800000 "anonymous".

Definition left_behind : Redis :=
  mkRedis (<[redis_key "old" := (300, old_session)]>
             (<[redis_key "young" := (300, young_session)]> ∅)) [].

(** The process after its restart has read the mirror, and some time
    later, when the restored session has run out but has not been swept. *)
Definition restarted_world : World :=
  (SessionStore.initializeRedis ten_slots (Some left_behind) fresh_world).2.

Definition stale_world : World := set_clock 1150000 restarted_world.

(** Every record of the mirror is stored under the key of its session. *)
Definition mirror_keyed (d : gmap string (Z * Session)) : Prop :=
  ∀ k ttl s, d !! k = Some (ttl, s) → k = redis_key (containerId s).

(** What the restore leaves of a record of the mirror: the record when it
    has not expired, nothing when it has. *)
Definition kept (now : Z) (v : option (Z * Session)) : option (Z * Session) :=
  match v with
  | Some (ttl, s) => if decide (expiresAt s > now) then Some (ttl, s) else None
  | None => None
  end.

(** Two [createSession] calls arrive together at a process with one slot. *)
Definition two_calls : list Interleaving.Call :=
  [Interleaving.mkCall None None Interleaving.AtAdmission;
   Interleaving.mkCall None None Interleaving.AtAdmission].

(** Both calls pass their tests before either has started a container. *)
Definition racing_schedule : list nat := [0; 1; 0; 1; 0; 1]%nat.

(** Two labelled containers are running, and the runtime cannot list. *)
Definition blind_world : World :=
  set_docker
    (mkDocker [mkContainer "a" running true 4000; mkContainer "b" running true 4001]
              2 true true false false [] 32768 false false)
    fresh_world.

(* ===================================================================== *)
(** ** The rest of [src/services/dockerService.ts] *)
(* ===================================================================== *)

From Stdlib Require Import Ascii.

Module DockerServiceRest.

(** A decimal digit [\d] and its value. *)
Definition digit_of (c : ascii) : option Z :=
  let n := Z.of_N (N_of_ascii c) in
  if decide (48 <= n <= 57) then Some (n - 48) else None.

(** The longest prefix of digits, as their values, and what follows it:
    the greedy [(\d+)] of the pattern. *)
Fixpoint digits_prefix (s : string) : list Z * string :=
  match s with
  | String c rest =>
      match digit_of c with
      | Some d => let '(ds, r) := digits_prefix rest in (d :: ds, r)
      | None => ([], s)
      end
  | EmptyString => ([], EmptyString)
  end.

(** A JavaScript number that a string of digits can stand for. *)
Inductive JSNumber :=
| Finite (v : Z)
| Infinity.

(** The double nearest to a natural number [n], ties to the even
    mantissa: below [2^53] every integer is a double; above, a double has
    53 significant bits, and from [2^1024] on (after rounding) it is
    [Infinity]. *)
Definition to_double (n : Z) : JSNumber :=
  if decide (n < 2 ^ 53) then Finite n
  else
    let e := Z.log2 n - 52 in
    let q := n / 2 ^ e in
    let r := n mod 2 ^ e in
    let half := 2 ^ (e - 1) in
    let q' := if decide (r < half) then q
              else if decide (half < r) then q + 1
              else if Z.even q then q else q + 1 in
    if decide (q' * 2 ^ e < 2 ^ 1024) then Finite (q' * 2 ^ e) else Infinity.

(** [x * factor] on doubles, for a positive integer [factor]. *)
Definition times (x : JSNumber) (factor : Z) : JSNumber :=
  match x with
  | Finite v => to_double (v * factor)
  | Infinity => Infinity
  end.

(** The number the digits write. *)
Definition decimal (ds : list Z) : Z :=
  foldl (fun acc d => 10 * acc + d) 0 ds.

(** [parseInt(digits, 10)]: the double nearest to the number written. *)
Definition parseInt10 (ds : list Z) : JSNumber := to_double (decimal ds).

(** [units[unit.toLowerCase()]] for a character matched by [[bkmg]] under
    the [i] flag. *)
Definition unit_of (c : ascii) : option Z :=
  if decide (c = "b" ∨ c = "B")%char then Some 1
  else if decide (c = "k" ∨ c = "K")%char then Some 1024
  else if decide (c = "m" ∨ c = "M")%char then Some (1024 * 1024)
  else if decide (c = "g" ∨ c = "G")%char then Some (1024 * 1024 * 1024)
  else None.

(** [parseMemoryLimit]: the pattern is [/^(\d+)([bkmg])?$/i]; [None] stands
    for the thrown `Invalid memory limit format`. *)
Definition parseMemoryLimit (memoryLimit : string) : option JSNumber :=
  match digits_prefix memoryLimit with
  | ([], _) => None
  | (ds, EmptyString) => Some (times (parseInt10 ds) 1)
  | (ds, String u EmptyString) =>
      match unit_of u with
      | Some factor => Some (times (parseInt10 ds) factor)
      | None => None
      end
  | (_, String _ (String _ _)) => None
  end.

(** A listed container that [cleanupOrphanedContainers] removes. *)
Definition orphaned (c : Container) : Prop :=
  labelled c = true ∧ (cstate c = exited ∨ cstate c = dead).

#[global] Instance orphaned_dec c : Decision (orphaned c).
Proof. unfold orphaned. apply _. Defined.

(** The [for] loop of [cleanupOrphanedContainers] over the listing. *)
Fixpoint cleanupLoop (listing : list Container) (cleanedCount : Z) : M Z :=
  match listing with
  | [] => ret cleanedCount
  | containerInfo :: rest =>
      n ← try_catch
             (if decide (cstate containerInfo = exited ∨ cstate containerInfo = dead)
              then DockerService.container_remove (cid containerInfo);;
                   ret (cleanedCount + 1)
              else ret cleanedCount)
             (fun _ => ret cleanedCount);
      cleanupLoop rest n
  end.

Definition cleanupOrphanedContainers : M Z :=
  try_catch
    (listing ← DockerService.listContainers true;
     cleanupLoop listing 0)
    (fun _ => ret 0).

End DockerServiceRest.

(* ===================================================================== *)
(** ** The rest of [src/models/sessionStore.ts] *)
(* ===================================================================== *)

Module SessionStoreRest.

(** [shutdown]: the client quits once what is in flight has completed, the
    timer of every session is cleared, the table is emptied.  (The
    interval of the periodic sweep is not part of the world; the sweep it
    runs is [SessionStore.cleanupExpiredSessions].) *)
Definition shutdown : M unit :=
  SessionStore.redis_await;;
  w ← get;
  forEach (SessionStore.getAllSessions w) (fun session => clearTimeout (timer session));;
  modify (set_sessions ∅).

End SessionStoreRest.

(* ===================================================================== *)
(** ** The rest of [src/services/sessionManager.ts] *)
(* ===================================================================== *)

Module SessionManagerRest.

(** The callback of [sessions.map] in [getAllSessions]. *)
Definition toResponse (w : World) (session : Session) : SessionResponse :=
  mkSessionResponse
    (containerId session)
    (hostPort session)
    ("/browser-session/" +:+ containerId session +:+ "/")
    ("http://localhost:" +:+ pretty (hostPort session) +:+ "/")
    (expiresAt session)
    (SessionStore.getRemainingTime w (containerId session)).

Definition getSessionInfo (w : World) (cId : string) : option SessionResponse :=
  match SessionStore.getSession w cId with
  | None => None
  | Some session =>
      let remainingTime := SessionStore.getRemainingTime w cId in
      Some (mkSessionResponse
              (containerId session)
              (hostPort session)
              ("/browser-session/" +:+ containerId session +:+ "/")
              ("http://localhost:" +:+ pretty (hostPort session) +:+ "/")
              (expiresAt session)
              remainingTime)
  end.

Definition getAllSessions (w : World) : list SessionResponse :=
  toResponse w <$> SessionStore.getAllSessions w.

Definition cleanupExpiredSessions : M Z :=
  try_catch
    (orphanedContainers ← DockerServiceRest.cleanupOrphanedContainers;
     ret orphanedContainers)
    (fun _ => ret 0).

Definition shutdown : M unit :=
  try_catch
    (w ← get;
     forEach (SessionStore.getAllSessions w)
       (fun session => SessionManager.stopSession (containerId session);; ret tt);;
     SessionStoreRest.shutdown)
    (fun _ => ret tt).

End SessionManagerRest.

(* ===================================================================== *)
(** ** The other HTTP handlers *)
(* ===================================================================== *)

(** [haystack.includes(needle)] *)
Fixpoint includes (needle haystack : string) : bool :=
  String.prefix needle haystack
  || match haystack with
     | String _ rest => includes needle rest
     | EmptyString => false
     end.

Module HandlersRest.

(** The answer of [startSession]: status, [success], the [error] text and
    the session under [data]. *)
Record StartResponse := mkStart {
  start_status : Z;
  start_success : bool;
  start_error : option string;
  start_data : option SessionResponse
}.

Definition startSession (cfg : Config) (errorsEmpty : bool)
    (durationMs : option Z) (uid : option string) : M StartResponse :=
  try_catch
    (if negb errorsEmpty
     then ret (mkStart 400 false (Some "Validation failed") None)
     else
       session ← SessionManager.createSession cfg durationMs uid;
       ret (mkStart 201 true None (Some session)))
    (fun error =>
       let errorMessage := error_message error in
       let statusCode :=
         if includes "Maximum number of sessions" errorMessage then 429
         else if includes "Docker" errorMessage then 503
         else 500 in
       ret (mkStart statusCode false (Some errorMessage) None)).

(** The answer of [getRemainingTime]: status, [success] and
    [data.remainingTimeMs] (absent from the answer to an invalid request). *)
Record TimeResponse := mkTime {
  time_status : Z;
  time_success : bool;
  time_remainingTimeMs : option Z
}.

Definition getRemainingTime (w : World) (errorsEmpty : bool) (cId : string)
  : TimeResponse :=
  if negb errorsEmpty then mkTime 400 false None
  else if negb (SessionManager.isSessionActive w cId)
  then mkTime 404 false (Some 0)
  else mkTime 200 true (Some (SessionManager.getRemainingTime w cId)).

End HandlersRest.

(* ===================================================================== *)
(** ** More vocabulary *)
(* ===================================================================== *)

(** The timers agree with the registry.  Handles are below the next one
    to be given out.  The timer a session holds is pending and aimed at
    that session; it is due at the session's expiry, or, when Node replaced
    its delay by 1 ms, no later than 1 ms from now.  And there is no other
    pending timer: each one is held by the session it is aimed at. *)
Definition timers_ok (w : World) : Prop :=
  (∀ h t, live (timers w) !! h = Some t → (h < next_handle (timers w))%nat)
  ∧ (∀ cId s h, sessions w !! cId = Some s → timer s = Some h →
       ∃ due, live (timers w) !! h = Some (cId, due)
              ∧ (due = expiresAt s ∨ due <= clock w + 1))
  ∧ (∀ h cId due, live (timers w) !! h = Some (cId, due) →
       ∃ s, sessions w !! cId = Some s ∧ timer s = Some h).

(** No two containers of the runtime share an id. *)
Definition distinct_ids (d : Docker) : Prop := NoDup (cid <$> containers d).

(** Every session sits in the table under its own [containerId]. *)
Definition registry_keyed (w : World) : Prop :=
  ∀ k s, sessions w !! k = Some s → containerId s = k.

(** What a runtime-only method leaves alone: registry, mirror, timers and
    clock. *)
Definition registry_same (w w' : World) : Prop :=
  sessions w' = sessions w ∧ redis w' = redis w ∧ timers w' = timers w
  ∧ clock w' = clock w.

(** A runtime with litter: of the labelled containers one is running, one
    is only created, one has exited and one is dead; an exited container
    of somebody else carries no label. *)
Definition littered_world : World :=
  set_docker
    (mkDocker [mkContainer "a" running true 4000; mkContainer "b" exited true 0;
               mkContainer "c" dead true 0; mkContainer "d" exited false 0;
               mkContainer "e" created true 0]
              5 false true false false [] 32768 false false)
    fresh_world.

(** The standing faults of the runtime are the same: what changes are the
    containers, the image cache and the script of start outcomes. *)
Definition faults_same (w w' : World) : Prop :=
  listFails (docker w') = listFails (docker w)
  ∧ stopFails (docker w') = stopFails (docker w)
  ∧ removeFails (docker w') = removeFails (docker w).

(** From [w] to [w'] the process only winds down: the registry shrinks,
    timers are only cleared, a session that left the registry had its
    timer cleared, no container appears in the runtime, and the standing
    faults are the same. *)
Definition winds (w w' : World) : Prop :=
  (∀ k s, sessions w' !! k = Some s → sessions w !! k = Some s)
  ∧ (∀ h, live (timers w) !! h = None → live (timers w') !! h = None)
  ∧ (∀ k s h, sessions w !! k = Some s → timer s = Some h →
       sessions w' !! k = Some s ∨ live (timers w') !! h = None)
  ∧ (∀ other, DockerService.find_container other (containers (docker w)) = None →
       DockerService.find_container other (containers (docker w')) = None)
  ∧ faults_same w w'.

(** The containers the capacity test of [startContainer] counts: those
    with the label that are running. *)
Definition running_labelled (d : Docker) : list Container :=
  filter (fun c => labelled c = true ∧ cstate c = running) (containers d).

(** Two processes that differ at most in their mirror. *)
Definition same_but_mirror (w w2 : World) : Prop :=
  clock w2 = clock w ∧ sessions w2 = sessions w ∧ timers w2 = timers w
  ∧ docker w2 = docker w ∧ trace w2 = trace w.

(** [m] gives the same answer and the same process, the mirror apart, on
    processes that differ at most in their mirror. *)
Definition mirror_blind {A} (m : M A) : Prop :=
  ∀ w w2, same_but_mirror w w2 →
    (m w).1 = (m w2).1 ∧ same_but_mirror (m w).2 (m w2).2.

(* ===================================================================== *)
(** ** Reasoning about methods *)
(* ===================================================================== *)

Ltac unfold_js :=
  unfold mbind, M_bind, mret, M_ret, bind, ret, throw, try_catch, get,
         modify in *.

(** A [catch] block that only logs and rethrows changes nothing. *)
Lemma try_catch_rethrow {A} (m : M A) (w : World) :
  try_catch m (fun error => throw error) w = m w.
Proof. unfold try_catch, throw. destruct (m w) as [[a|e] w']; reflexivity. Qed.

(* ===================================================================== *)
(** ** Remaining time *)
(* ===================================================================== *)

(** C8. [getRemainingTime(id)] is never negative; it is 0 for an id the
    registry does not know and 0 for a session whose [expiresAt] has
    passed. *)
Theorem getRemainingTime_never_negative (w : World) (cId : string) :
  0 <= SessionManager.getRemainingTime w cId
  ∧ (sessions w !! cId = None → SessionManager.getRemainingTime w cId = 0)
  ∧ (∀ s, sessions w !! cId = Some s → expiresAt s <= clock w →
          SessionManager.getRemainingTime w cId = 0).
Proof.
  unfold SessionManager.getRemainingTime, SessionStore.getRemainingTime.
  repeat split.
  - destruct (sessions w !! cId); lia.
  - intros ->. reflexivity.
  - intros s -> Hle. lia.
Qed.

(** C8, witness: an unknown id, and a session that has run out. *)
Lemma getRemainingTime_never_negative_witness :
  SessionManager.getRemainingTime stale_world "nobody" = 0
  ∧ SessionManager.getRemainingTime stale_world "young" = 0.
Proof.
  split.
  - apply (proj1 (proj2 (getRemainingTime_never_negative stale_world "nobody"))).
    vm_compute. reflexivity.
  - apply (proj2 (proj2 (getRemainingTime_never_negative stale_world "young"))
             young_session).
    + vm_compute. reflexivity.
    + vm_compute. discriminate.
Defined.

(* ===================================================================== *)
(** ** The capacity test of [startContainer] when listing fails *)
(* ===================================================================== *)

(** C9. When the runtime cannot list containers,
    [getActiveContainersCount] answers 0 instead of failing, the capacity
    test of [startContainer] passes for any positive ceiling, and
    [startContainer] goes on to provision. *)
Theorem capacity_check_fails_open (cfg : Config) (w : World) :
  listFails (docker w) = true → 0 < maxSessions cfg →
  DockerService.getActiveContainersCount w
    = (Returned 0, set_trace (trace w ++ [EvListContainers]) w)
  ∧ DockerService.capacityCheck cfg w
    = (Returned tt, set_trace (trace w ++ [EvListContainers]) w)
  ∧ DockerService.startContainer cfg w
    = DockerService.provision (set_trace (trace w ++ [EvListContainers]) w).
Proof.
  intros Hfail Hmax.
  assert (Hcount : DockerService.getActiveContainersCount w
    = (Returned 0, set_trace (trace w ++ [EvListContainers]) w)).
  { unfold DockerService.getActiveContainersCount, DockerService.listContainers, emit.
    unfold_js. simpl. rewrite Hfail. reflexivity. }
  assert (Hcheck : DockerService.capacityCheck cfg w
    = (Returned tt, set_trace (trace w ++ [EvListContainers]) w)).
  { unfold DockerService.capacityCheck. unfold_js. rewrite Hcount.
    destruct (decide (0 >= maxSessions cfg)); [lia | reflexivity]. }
  repeat split; try assumption.
  unfold DockerService.startContainer. rewrite try_catch_rethrow.
  unfold mbind, M_bind, bind. rewrite Hcheck. reflexivity.
Qed.

(** C9, witness: one slot, two containers running, listing fails; the
    count is 0 and a third container is started. *)
Lemma capacity_check_fails_open_witness :
  (DockerService.getActiveContainersCount blind_world).1 = Returned 0
  ∧ (DockerService.startContainer one_slot blind_world).1
    = Returned (mkContainerInfo "2" 32768 running).
Proof.
  destruct (capacity_check_fails_open one_slot blind_world) as (Hcount & _ & Hstart);
    [reflexivity | reflexivity |].
  rewrite Hcount, Hstart. split; vm_compute; reflexivity.
Defined.

(* ===================================================================== *)
(** ** Frames: what a method leaves alone *)
(* ===================================================================== *)

Section Frames.
Context (R : relation World) `{!PreOrder R}.

Lemma keeps_ret {A} (a : A) : keeps R (mret a).
Proof. intros w. simpl. reflexivity. Qed.

Lemma keeps_throw {A} (e : Error) : keeps R (@throw A e).
Proof. intros w. simpl. reflexivity. Qed.

Lemma keeps_get : keeps R get.
Proof. intros w. simpl. reflexivity. Qed.

Lemma keeps_modify (f : World → World) : (∀ w, R w (f w)) → keeps R (modify f).
Proof. intros H w. apply H. Qed.

Lemma keeps_bind {A B} (m : M A) (k : A → M B) :
  keeps R m → (∀ a, keeps R (k a)) → keeps R (m ≫= k).
Proof.
  intros Hm Hk w. unfold mbind, M_bind, bind.
  specialize (Hm w). destruct (m w) as [[a|e] w1]; simpl in *; [|done].
  etrans; [exact Hm | apply Hk].
Qed.

Lemma keeps_try_catch {A} (m : M A) (h : Error → M A) :
  keeps R m → (∀ e, keeps R (h e)) → keeps R (try_catch m h).
Proof.
  intros Hm Hh w. unfold try_catch.
  specialize (Hm w). destruct (m w) as [[a|e] w1]; simpl in *; [done|].
  etrans; [exact Hm | apply Hh].
Qed.

Lemma keeps_if {A} (b : bool) (m1 m2 : M A) :
  keeps R m1 → keeps R m2 → keeps R (if b then m1 else m2).
Proof. by destruct b. Qed.

Lemma keeps_decide {A} (P : Prop) `{!Decision P} (m1 m2 : M A) :
  keeps R m1 → keeps R m2 → keeps R (if decide P then m1 else m2).
Proof. by destruct (decide P). Qed.
End Frames.

(** One structural step of a [keeps] goal, read off the syntax of the
    method. *)
Ltac frame_step :=
  lazymatch goal with
  | |- keeps _ (ret _) => apply keeps_ret
  | |- keeps _ (throw _) => apply keeps_throw
  | |- keeps _ get => apply keeps_get
  | |- keeps _ (_ ≫= _) => apply keeps_bind; [ | | intros ? ]
  | |- keeps _ (try_catch _ _) => apply keeps_try_catch; [ | | intros ? ]
  | |- keeps _ (if decide _ then _ else _) => apply keeps_decide
  | |- keeps _ (if _ then _ else _) => apply keeps_if
  | |- keeps _ (match ?x with Some _ => _ | None => _ end) => destruct x
  end;
  try apply _.

Create HintDb frames.

Ltac frames := cbv zeta; repeat (first [ frame_step | solve [auto with frames] ]; cbv zeta).

#[global] Instance provision_frame_preorder : PreOrder provision_frame.
Proof.
  split.
  - intros w. repeat split; try lia. exists []. by rewrite app_nil_r.
  - intros w1 w2 w3 (?&?&?&?&δ1&?&?) (?&?&?&?&δ2&?&?).
    repeat split; try congruence; try lia.
    exists (δ1 ++ δ2). split; [|by apply Forall_app].
    rewrite app_assoc. congruence.
Qed.

Lemma provision_frame_emit (e : Event) :
  is_teardown e = false → keeps provision_frame (emit e).
Proof.
  intros He. apply keeps_modify. intros w. repeat split; simpl; try lia.
  exists [e]. split; [done|]. by constructor.
Qed.

Lemma provision_frame_clock (f : World → Z) :
  keeps provision_frame (modify (fun w => set_clock (f w) w)).
Proof.
  apply keeps_modify. intros w. repeat split; simpl; try lia.
  exists []. by rewrite app_nil_r.
Qed.

Lemma provision_frame_docker (f : Docker → Docker) :
  (∀ d, (length (containers d) ≤ length (containers (f d)))%nat) →
  keeps provision_frame (DockerService.modify_docker f).
Proof.
  intros Hf. apply keeps_modify. intros w. repeat split; simpl; try apply Hf.
  exists []. by rewrite app_nil_r.
Qed.

#[export] Hint Resolve provision_frame_clock : frames.
#[export] Hint Extern 1 (keeps provision_frame (emit _)) =>
  apply provision_frame_emit; reflexivity : frames.

Lemma provision_frame_sleep (ms : Z) : keeps provision_frame (sleep ms).
Proof. unfold sleep. frames. Qed.
#[export] Hint Resolve provision_frame_sleep : frames.

Lemma length_update_container cId f cs :
  length (DockerService.update_container cId f cs) = length cs.
Proof. unfold DockerService.update_container. by rewrite length_fmap. Qed.

Lemma provision_frame_listContainers all :
  keeps provision_frame (DockerService.listContainers all).
Proof. unfold DockerService.listContainers. frames. Qed.

Lemma provision_frame_ensureImageExists :
  keeps provision_frame DockerService.ensureImageExists.
Proof.
  unfold DockerService.ensureImageExists, DockerService.imageInspect,
    DockerService.pull.
  frames. by apply provision_frame_docker.
Qed.

Lemma provision_frame_createContainer :
  keeps provision_frame DockerService.createContainer.
Proof.
  unfold DockerService.createContainer. frames.
  apply provision_frame_docker. intros d. simpl. rewrite length_app. lia.
Qed.

Lemma provision_frame_container_start cId :
  keeps provision_frame (DockerService.container_start cId).
Proof.
  unfold DockerService.container_start. frames.
  apply provision_frame_docker. intros d. simpl.
  case_match; [by rewrite length_update_container | done].
Qed.

Lemma provision_frame_inspect cId :
  keeps provision_frame (DockerService.inspect cId).
Proof. unfold DockerService.inspect. frames. Qed.

#[export] Hint Resolve provision_frame_listContainers
  provision_frame_ensureImageExists provision_frame_createContainer
  provision_frame_container_start provision_frame_inspect : frames.

Lemma provision_frame_startAttempts remaining attempt cId :
  keeps provision_frame (DockerService.startAttempts remaining attempt cId).
Proof.
  revert attempt. induction remaining as [|r IH]; intros attempt; simpl; frames.
Qed.

Lemma provision_frame_waitLoop fuel start timeoutMs cId :
  keeps provision_frame (DockerService.waitLoop fuel start timeoutMs cId).
Proof. induction fuel as [|f IH]; simpl; frames. Qed.

#[export] Hint Resolve provision_frame_startAttempts provision_frame_waitLoop
  : frames.

Lemma provision_frame_capacityCheck (cfg : Config) :
  keeps provision_frame (DockerService.capacityCheck cfg).
Proof.
  unfold DockerService.capacityCheck, DockerService.getActiveContainersCount.
  frames.
Qed.

Lemma provision_frame_provision : keeps provision_frame DockerService.provision.
Proof.
  unfold DockerService.provision, DockerService.startContainerWithRetry,
    DockerService.waitForHostPort.
  frames.
Qed.

#[export] Hint Resolve provision_frame_capacityCheck provision_frame_provision
  : frames.

Lemma provision_frame_startContainer (cfg : Config) :
  keeps provision_frame (DockerService.startContainer cfg).
Proof. unfold DockerService.startContainer. frames. Qed.

Lemma admission_eq cfg w :
  SessionManager.admission cfg w
  = (if decide (Z.of_nat (size (sessions w)) >= maxSessions cfg)
     then Thrown (MaxSessionsReached (maxSessions cfg)) else Returned tt, w).
Proof.
  unfold SessionManager.admission, SessionStore.getActiveSessionsCount. unfold_js.
  case_decide; reflexivity.
Qed.

Lemma clearTimeout_eq h w :
  clearTimeout h w
  = (Returned tt,
     match h with
     | Some n => set_timers (mkTimers (delete n (live (timers w)))
                                      (next_handle (timers w))) w
     | None => w
     end).
Proof. by destruct h. Qed.

(** [persistSession] on a session whose timer is pending: the [catch]
    swallows the [TypeError] of [JSON.stringify] and nothing is sent. *)
Lemma persistSession_pending s h w :
  timer s = Some h → is_Some (live (timers w) !! h) →
  SessionStore.persistSession s w = (Returned tt, w).
Proof.
  intros Ht Hlive. unfold SessionStore.persistSession, SessionStore.stringify.
  unfold_js. destruct (redis w); [|done]. rewrite Ht. by rewrite decide_True.
Qed.

(** [SessionStore.createSession] as one step: the timer is armed, the
    session is in the table, nothing is sent to the mirror, and the log
    line throws when the expiry is no valid date. *)
Lemma store_createSession_eq cId port durationMs uid w :
  SessionStore.createSession cId port durationMs uid w
  = (if decide (valid_date (clock w + durationMs))
     then Returned (mkSession cId port (clock w + durationMs)
                      (Some (next_handle (timers w))) (truthy_string uid) (clock w)
                      (default "anonymous" (truthy_string uid)))
     else Thrown InvalidTime,
     set_sessions
       (<[cId := mkSession cId port (clock w + durationMs)
                   (Some (next_handle (timers w))) (truthy_string uid) (clock w)
                   (default "anonymous" (truthy_string uid))]> (sessions w))
       (set_timers
          (mkTimers (<[next_handle (timers w) := (cId, clock w + timer_delay durationMs)]>
                       (live (timers w)))
                    (S (next_handle (timers w)))) w)).
Proof.
  unfold SessionStore.createSession, setTimeout.
  unfold mbind, M_bind, bind, get, modify. cbv beta iota zeta.
  rewrite (persistSession_pending _ (next_handle (timers w)));
    [|done|simpl; rewrite lookup_insert_eq; eauto].
  unfold toISOString, ret, throw. cbn [clock]. by case_decide.
Qed.

(** [updateSessionExpiry] on a session that is present, as one step. *)
Lemma updateSessionExpiry_eq cId newExpiresAt w s :
  sessions w !! cId = Some s →
  SessionStore.updateSessionExpiry cId newExpiresAt w
  = (if decide (valid_date newExpiresAt) then Returned true else Thrown InvalidTime,
     set_sessions
       (<[cId := mkSession (containerId s) (hostPort s) newExpiresAt
                   (Some (next_handle (timers w))) (userId s) (createdAt s)
                   (createdBy s)]> (sessions w))
       (set_timers
          (mkTimers (<[next_handle (timers w)
                       := (cId, clock w + timer_delay (newExpiresAt - clock w))]>
                       (match timer s with
                        | Some h => delete h (live (timers w))
                        | None => live (timers w)
                        end))
                    (S (next_handle (timers w)))) w)).
Proof.
  intros Hs. unfold SessionStore.updateSessionExpiry, setTimeout.
  unfold mbind at 1, M_bind at 1, bind at 1, get. rewrite Hs.
  unfold mbind at 1, M_bind at 1, bind at 1. rewrite clearTimeout_eq.
  unfold mbind, M_bind, bind, modify. cbv beta iota zeta.
  destruct (timer s) as [h0|]; cbn [timers next_handle live clock set_timers];
    (rewrite (persistSession_pending _ (next_handle (timers w)));
     [|done|simpl; rewrite lookup_insert_eq; eauto]);
    unfold toISOString, ret, throw; simpl; by case_decide.
Qed.

(** [record] registers the session and, the expiry being a valid date,
    cannot fail. *)
Lemma record_outcome ci duration uid w :
  ∃ r w' s, SessionManager.record ci duration uid w
            = (if decide (valid_date (clock w + duration))
               then Returned r else Thrown InvalidTime, w')
    ∧ resp_containerId r = info_id ci
    ∧ sessions w' = <[info_id ci := s]> (sessions w)
    ∧ redis w' = redis w
    ∧ docker w' = docker w ∧ trace w' = trace w ∧ clock w' = clock w
    ∧ containerId s = info_id ci
    ∧ expiresAt s = resp_expiresAt r ∧ hostPort s = resp_hostPort r
    ∧ hostPort s = info_hostPort ci
    ∧ resp_expiresAt r = clock w + duration
    ∧ resp_remainingTimeMs r = duration
    ∧ timer s = Some (next_handle (timers w))
    ∧ is_Some (live (timers w') !! next_handle (timers w)).
Proof.
  unfold SessionManager.record. unfold mbind, M_bind, bind.
  rewrite store_createSession_eq.
  exists (mkSessionResponse (info_id ci) (info_hostPort ci)
            ("/browser-session/" +:+ info_id ci +:+ "/")
            ("http://localhost:" +:+ pretty (info_hostPort ci) +:+ "/")
            (clock w + duration) duration).
  case_decide; eexists _, _; (split; [reflexivity|]); simpl;
    rewrite ?lookup_insert_eq; repeat split; eauto.
Qed.

Lemma record_returns ci duration uid w :
  valid_date (clock w + duration) →
  ∃ r, (SessionManager.record ci duration uid w).1 = Returned r.
Proof.
  intros Hvalid. destruct (record_outcome ci duration uid w) as (r & w' & s & -> & _).
  rewrite decide_True by done. eauto.
Qed.

(* ===================================================================== *)
(** ** A failed [createSession] *)
(* ===================================================================== *)





(* ===================================================================== *)
(** ** Quiet methods: events a method never emits *)
(* ===================================================================== *)

#[global] Instance quiet_preorder sel : PreOrder (quiet sel).
Proof.
  split.
  - intros w. exists []. by rewrite app_nil_r.
  - intros w1 w2 w3 (δ1&?&?) (δ2&?&?). exists (δ1 ++ δ2).
    split; [|by apply Forall_app]. rewrite app_assoc. congruence.
Qed.

Lemma quiet_count sel w w' :
  quiet sel w w' → ∃ δ, trace w' = trace w ++ δ ∧ count sel δ = 0%nat.
Proof.
  intros (δ&?&Hδ). exists δ. split; [done|]. unfold count.
  clear -Hδ. induction Hδ as [|e l He _ IH]; [done|].
  rewrite filter_cons_False; [done | congruence].
Qed.

Lemma count_app sel l1 l2 : count sel (l1 ++ l2) = (count sel l1 + count sel l2)%nat.
Proof. unfold count. by rewrite filter_app, length_app. Qed.

Lemma quiet_emit sel e : sel e = false → keeps (quiet sel) (emit e).
Proof.
  intros He. apply keeps_modify. intros w. exists [e]. split; [done|]. by constructor.
Qed.

Lemma quiet_same_trace sel (f : World → World) :
  (∀ w, trace (f w) = trace w) → keeps (quiet sel) (modify f).
Proof.
  intros Hf. apply keeps_modify. intros w. exists []. by rewrite app_nil_r.
Qed.

#[export] Hint Extern 1 (keeps (quiet _) (emit _)) =>
  apply quiet_emit; reflexivity : frames.
#[export] Hint Extern 1 (keeps (quiet _) (modify _)) =>
  apply quiet_same_trace; reflexivity : frames.
#[export] Hint Extern 1 (keeps (quiet _) (DockerService.modify_docker _)) =>
  apply quiet_same_trace; reflexivity : frames.

(** Solves [keeps (quiet sel) m] for a method without loops. *)
Ltac quiet_method :=
  repeat progress
    unfold sleep, DockerService.listContainers, DockerService.imageInspect,
      DockerService.pull, DockerService.inspect, DockerService.container_start,
      DockerService.getActiveContainersCount, DockerService.ensureImageExists,
      DockerService.capacityCheck;
  frames.

Lemma no_create_startAttempts remaining attempt cId :
  keeps (quiet is_create) (DockerService.startAttempts remaining attempt cId).
Proof.
  revert attempt. induction remaining as [|r IH]; intros attempt; simpl; quiet_method.
Qed.

Lemma no_create_waitLoop fuel start timeoutMs cId :
  keeps (quiet is_create) (DockerService.waitLoop fuel start timeoutMs cId).
Proof. induction fuel as [|f IH]; simpl; quiet_method. Qed.

#[export] Hint Resolve no_create_startAttempts no_create_waitLoop : frames.

Lemma no_create_after_create cId :
  keeps (quiet is_create)
    (DockerService.startContainerWithRetry cId;;
     port ← DockerService.waitForHostPort cId 5000;
     info ← DockerService.inspect cId;
     ret (mkContainerInfo cId port (cstate info))).
Proof.
  unfold DockerService.startContainerWithRetry, DockerService.waitForHostPort.
  quiet_method.
Qed.

Lemma no_create_before_create (cfg : Config) :
  keeps (quiet is_create) (DockerService.capacityCheck cfg)
  ∧ keeps (quiet is_create) DockerService.ensureImageExists.
Proof. split; quiet_method. Qed.

(** [createContainer] is one call to the runtime. *)
Lemma createContainer_trace w :
  ∃ r, trace (DockerService.createContainer w).2 = trace w ++ [EvCreateContainer r].
Proof.
  unfold DockerService.createContainer, emit, DockerService.modify_docker.
  unfold_js. destruct (createFails (docker w)); simpl; eauto.
Qed.

(** A [startContainer] call creates at most one container. *)
Lemma startContainer_creates_once (cfg : Config) (w : World) :
  ∃ δ, trace (DockerService.startContainer cfg w).2 = trace w ++ δ
       ∧ (count is_create δ ≤ 1)%nat.
Proof.
  unfold DockerService.startContainer. rewrite try_catch_rethrow.
  unfold DockerService.provision, mbind, M_bind, bind.
  destruct (no_create_before_create cfg) as [Hcheck Himage].
  specialize (Hcheck w). apply quiet_count in Hcheck as (δ1&H1&C1).
  destruct (DockerService.capacityCheck cfg w) as [[[]|e1] w1]; simpl in *;
    [|exists δ1; split; [done|lia]].
  specialize (Himage w1). apply quiet_count in Himage as (δ2&H2&C2).
  destruct (DockerService.ensureImageExists w1) as [[[]|e2] w2]; simpl in *;
    [|exists (δ1 ++ δ2); rewrite count_app, app_assoc; split; [congruence|lia]].
  destruct (createContainer_trace w2) as [r H3].
  destruct (DockerService.createContainer w2) as [[cId|e3] w3]; simpl in *.
  - pose proof (no_create_after_create cId w3) as H4.
    apply quiet_count in H4 as (δ4&H4&C4).
    unfold mbind, M_bind, bind in H4.
    match goal with |- context [match ?m with _ => _ end] => destruct m as [[?|?] w4] end;
      simpl in *;
      exists (δ1 ++ δ2 ++ [EvCreateContainer r] ++ δ4);
      rewrite !count_app, !app_assoc; (split; [congruence | simpl; try lia]).
    all: unfold count at 3; simpl; lia.
  - exists (δ1 ++ δ2 ++ [EvCreateContainer r]).
    rewrite !count_app, !app_assoc. split; [congruence|].
    unfold count at 3; simpl. lia.
Qed.

(* ===================================================================== *)
(** ** Start with retry *)
(* ===================================================================== *)

Lemma container_start_eq cId w :
  DockerService.container_start cId w
  = (if DockerService.start_ok cId (docker w)
     then Returned tt else Thrown (RuntimeError "start"),
     set_docker (DockerService.after_start cId (docker w))
       (set_trace (trace w ++ [EvStart cId (DockerService.start_ok cId (docker w))]) w)).
Proof.
  unfold DockerService.container_start, emit, DockerService.modify_docker.
  unfold_js. simpl. by destruct (DockerService.start_ok cId (docker w)).
Qed.

Lemma sleep_eq ms w :
  sleep ms w
  = (Returned tt,
     set_clock (clock w + timer_delay ms) (set_trace (trace w ++ [EvSleep ms]) w)).
Proof. reflexivity. Qed.

(** The loop makes at most as many start calls as it has turns. *)
Lemma startAttempts_bound remaining attempt cId w :
  ∃ δ, trace (DockerService.startAttempts remaining attempt cId w).2 = trace w ++ δ
       ∧ (count is_start δ ≤ remaining)%nat.
Proof.
  revert attempt w. induction remaining as [|r IH]; intros attempt w; simpl.
  - exists []. by rewrite app_nil_r.
  - unfold try_catch. rewrite container_start_eq.
    destruct (DockerService.start_ok cId (docker w)).
    + exists [EvStart cId true]. split; [done|]. unfold count; simpl; lia.
    + case_decide.
      * exists [EvStart cId false]. split; [done|]. unfold count; simpl; lia.
      * unfold mbind, M_bind, bind. rewrite sleep_eq; try change (timer_delay 100) with 100.
        edestruct IH as (δ & -> & Hδ). simpl.
        exists ([EvStart cId false; EvSleep (DockerService.retryDelay * attempt)] ++ δ).
        rewrite count_app. split; [by rewrite <- !app_assoc|].
        unfold count at 1; simpl. lia.
Qed.

Lemma container_start_refused cId w rest :
  startOutcomes (docker w) = false :: rest →
  DockerService.container_start cId w
  = (Thrown (RuntimeError "start"), after_refusal cId w).
Proof.
  intros Hout. rewrite container_start_eq.
  unfold DockerService.start_ok, DockerService.after_start, after_refusal,
    DockerService.start_ok.
  rewrite Hout. reflexivity.
Qed.

Lemma startAttempts_refused r attempt cId w rest :
  startOutcomes (docker w) = false :: rest →
  DockerService.startAttempts (S r) attempt cId w
  = if decide (attempt = 3) then (Thrown (RuntimeError "start"), after_refusal cId w)
    else DockerService.startAttempts r (attempt + 1) cId
           (after_backoff (1000 * attempt) (after_refusal cId w)).
Proof.
  intros Hout. simpl. unfold try_catch.
  rewrite (container_start_refused _ _ _ Hout).
  change (Z.of_nat DockerService.maxRetries) with 3.
  case_decide; reflexivity.
Qed.

(** Three refusals: three attempts, 1000 ms then 2000 ms apart, and the
    error of the last one. *)
Lemma startContainerWithRetry_gives_up cId w rest :
  startOutcomes (docker w) = false :: false :: false :: rest →
  ∃ w', DockerService.startContainerWithRetry cId w = (Thrown (RuntimeError "start"), w')
        ∧ trace w' = trace w ++ [EvStart cId false; EvSleep 1000; EvStart cId false;
                                  EvSleep 2000; EvStart cId false].
Proof.
  intros Hout. unfold DockerService.startContainerWithRetry, DockerService.maxRetries.
  erewrite startAttempts_refused by exact Hout.
  erewrite startAttempts_refused by (simpl; rewrite Hout; reflexivity).
  erewrite startAttempts_refused by (simpl; rewrite Hout; reflexivity).
  simpl. eexists. split; [reflexivity|]. simpl. by rewrite <- !app_assoc.
Qed.

Lemma find_container_new cId cs st l p :
  is_Some (DockerService.find_container cId (cs ++ [mkContainer cId st l p])).
Proof.
  unfold DockerService.find_container. induction cs as [|c cs IH]; simpl.
  - rewrite bool_decide_eq_true_2 by done. eauto.
  - destruct (bool_decide (cid c = cId)); eauto.
Qed.

Lemma find_container_update cId cId' f cs :
  (∀ c, cid (f c) = cid c) →
  is_Some (DockerService.find_container cId cs) →
  is_Some (DockerService.find_container cId (DockerService.update_container cId' f cs)).
Proof.
  intros Hf. unfold DockerService.find_container, DockerService.update_container.
  induction cs as [|c cs IH]; simpl; [done|].
  assert (Hcid : cid (if decide (cid c = cId') then f c else c) = cid c)
    by (case_decide; [apply Hf | done]).
  rewrite Hcid. destruct (bool_decide (cid c = cId)); eauto.
Qed.

Lemma container_start_accepted cId w rest :
  startOutcomes (docker w) = true :: rest →
  is_Some (DockerService.find_container cId (containers (docker w))) →
  ∃ w', DockerService.container_start cId w = (Returned tt, w')
        ∧ clock w' = clock w
        ∧ trace w' = trace w ++ [EvStart cId true]
        ∧ length (containers (docker w')) = length (containers (docker w))
        ∧ is_Some (DockerService.find_container cId (containers (docker w'))).
Proof.
  intros Hout Hex. rewrite container_start_eq.
  assert (Hok : DockerService.start_ok cId (docker w) = true).
  { unfold DockerService.start_ok. rewrite Hout. simpl. by apply bool_decide_eq_true_2. }
  rewrite Hok. eexists. split; [reflexivity|]. simpl. rewrite Hok.
  repeat split.
  - apply length_update_container.
  - by apply find_container_update.
Qed.

Lemma inspect_eq cId w :
  DockerService.inspect cId w
  = (match DockerService.find_container cId (containers (docker w)) with
     | Some c => Returned c
     | None => Thrown (RuntimeError "no such container")
     end, set_trace (trace w ++ [EvInspect cId]) w).
Proof.
  unfold DockerService.inspect, emit. unfold_js. simpl.
  by destruct (DockerService.find_container cId (containers (docker w))).
Qed.

(** Polling for the port returns as long as the container exists, and
    only inspects and sleeps. *)
Lemma waitLoop_returns fuel start timeoutMs cId w :
  is_Some (DockerService.find_container cId (containers (docker w))) →
  ∃ port w', DockerService.waitLoop fuel start timeoutMs cId w = (Returned port, w')
    ∧ docker w' = docker w
    ∧ ∃ δ, trace w' = trace w ++ δ
           ∧ Forall (fun e => is_create e = false ∧ is_start e = false) δ.
Proof.
  revert w. induction fuel as [|f IH]; intros w [c Hc]; simpl.
  - exists 0, w. repeat split. exists []. by rewrite app_nil_r.
  - unfold mbind, M_bind, bind, get. case_decide.
    + rewrite inspect_eq, Hc. case_decide.
      * eexists _, _. split; [reflexivity|]. split; [done|].
        exists [EvInspect cId]. split; [done|]. by repeat constructor.
      * rewrite sleep_eq; try change (timer_delay 100) with 100.
        match goal with
        | |- context [DockerService.waitLoop f _ _ _ ?w1] =>
            destruct (IH w1) as (port & w' & -> & Hd & δ & Ht & Hδ)
        end.
        { simpl. eauto. }
        exists port, w'. split; [done|]. split; [done|].
        exists ([EvInspect cId; EvSleep 100] ++ δ). split.
        -- rewrite Ht. simpl. by rewrite <- !app_assoc.
        -- apply Forall_app. split; [by repeat constructor | done].
    + exists 0, w. repeat split. exists []. by rewrite app_nil_r.
Qed.

Lemma Forall_count_zero sel (P : Event → Prop) δ :
  (∀ e, P e → sel e = false) → Forall P δ → count sel δ = 0%nat.
Proof.
  intros HP Hδ. unfold count. induction Hδ as [|e l He _ IH]; [done|].
  rewrite filter_cons_False; [done|]. rewrite (HP e He). done.
Qed.

Lemma ensureImageExists_ok w :
  imageLocal (docker w) = true ∨ pullFails (docker w) = false →
  ∃ w', DockerService.ensureImageExists w = (Returned tt, w')
    ∧ containers (docker w') = containers (docker w)
    ∧ createFails (docker w') = createFails (docker w)
    ∧ startOutcomes (docker w') = startOutcomes (docker w)
    ∧ ∃ δ, trace w' = trace w ++ δ ∧ count is_create δ = 0%nat ∧ count is_start δ = 0%nat.
Proof.
  intros Himg.
  unfold DockerService.ensureImageExists, DockerService.imageInspect,
    DockerService.pull, DockerService.modify_docker, emit.
  unfold_js. simpl.
  destruct (imageLocal (docker w)) eqn:Hlocal.
  - eexists. split; [reflexivity|]. repeat split. by exists [EvImageInspect].
  - destruct Himg as [|Hpull]; [done|]. simpl. rewrite Hpull.
    eexists. split; [reflexivity|]. repeat split.
    exists [EvImageInspect; EvPull]. simpl. by rewrite <- app_assoc.
Qed.

Lemma createContainer_ok w :
  createFails (docker w) = false →
  ∃ cId w', DockerService.createContainer w = (Returned cId, w')
    ∧ containers (docker w') = containers (docker w) ++ [mkContainer cId created true 0]
    ∧ startOutcomes (docker w') = startOutcomes (docker w)
    ∧ trace w' = trace w ++ [EvCreateContainer (Some cId)].
Proof.
  intros Hcreate.
  unfold DockerService.createContainer, DockerService.modify_docker, emit.
  unfold_js. rewrite Hcreate. simpl. eexists _, _. split; [reflexivity|]. done.
Qed.

(** Two refusals, then the start is accepted. *)
Lemma startContainerWithRetry_third_time cId w rest :
  startOutcomes (docker w) = false :: false :: true :: rest →
  is_Some (DockerService.find_container cId (containers (docker w))) →
  ∃ w', DockerService.startContainerWithRetry cId w = (Returned tt, w')
    ∧ trace w' = trace w ++ [EvStart cId false; EvSleep 1000; EvStart cId false;
                              EvSleep 2000; EvStart cId true]
    ∧ length (containers (docker w')) = length (containers (docker w))
    ∧ is_Some (DockerService.find_container cId (containers (docker w'))).
Proof.
  intros Hout Hex. unfold DockerService.startContainerWithRetry, DockerService.maxRetries.
  erewrite startAttempts_refused by exact Hout.
  destruct (decide (1 = 3)) as [?|_]; [lia|].
  erewrite startAttempts_refused by (simpl; rewrite Hout; reflexivity).
  destruct (decide (1 + 1 = 3)) as [?|_]; [lia|].
  cbn [DockerService.startAttempts]. unfold try_catch.
  match goal with
  | |- context [DockerService.container_start cId ?w1] =>
      destruct (container_start_accepted cId w1 rest)
        as (w' & -> & _ & Ht & Hlen & Hfind)
  end.
  { simpl. by rewrite Hout. }
  { exact Hex. }
  exists w'. split; [done|]. split; [|done].
  rewrite Ht. simpl. by rewrite <- !app_assoc.
Qed.

Lemma provision_third_time w rest :
  startOutcomes (docker w) = false :: false :: true :: rest →
  createFails (docker w) = false →
  imageLocal (docker w) = true ∨ pullFails (docker w) = false →
  ∃ ci w', DockerService.provision w = (Returned ci, w')
    ∧ length (containers (docker w')) = S (length (containers (docker w)))
    ∧ ∃ δ, trace w' = trace w ++ δ
           ∧ count is_create δ = 1%nat ∧ count is_start δ = 3%nat.
Proof.
  intros Hout Hcreate Himg. unfold DockerService.provision, mbind, M_bind, bind.
  destruct (ensureImageExists_ok w Himg)
    as (wa & -> & Hcs_a & Hcreate_a & Hout_a & δa & Ht_a & Ca & Sa).
  destruct (createContainer_ok wa) as (cId & wb & -> & Hcs_b & Hout_b & Ht_b);
    [congruence|].
  destruct (startContainerWithRetry_third_time cId wb rest)
    as (wc & -> & Ht_c & Hlen_c & Hfind_c).
  { congruence. }
  { rewrite Hcs_b. apply find_container_new. }
  unfold DockerService.waitForHostPort, mbind, M_bind, bind, get.
  destruct (waitLoop_returns (Z.to_nat (5000 / 100) + 2) (clock wc) 5000 cId wc Hfind_c)
    as (port & wd & -> & Hd_d & δd & Ht_d & Hδd).
  rewrite inspect_eq, Hd_d. destruct Hfind_c as [c ->].
  eexists _, _. split; [reflexivity|]. simpl. rewrite Hd_d, Hlen_c, Hcs_b, Hcs_a.
  split; [rewrite length_app; simpl; lia|].
  exists (δa ++ [EvCreateContainer (Some cId)]
          ++ [EvStart cId false; EvSleep 1000; EvStart cId false; EvSleep 2000;
              EvStart cId true] ++ δd ++ [EvInspect cId]).
  split.
  - rewrite Ht_d, Ht_c, Ht_b, Ht_a. by rewrite <- !app_assoc.
  - rewrite !count_app, Ca, Sa.
    rewrite (Forall_count_zero is_create _ δd (fun e H => proj1 H) Hδd).
    rewrite (Forall_count_zero is_start _ δd (fun e H => proj2 H) Hδd).
    split; reflexivity.
Qed.

Lemma record_spec ci duration uid w :
  valid_date (clock w + duration) →
  ∃ r w' s, SessionManager.record ci duration uid w = (Returned r, w')
    ∧ resp_containerId r = info_id ci
    ∧ sessions w' = <[info_id ci := s]> (sessions w)
    ∧ docker w' = docker w ∧ trace w' = trace w
    ∧ expiresAt s = clock w + duration ∧ hostPort s = info_hostPort ci.
Proof.
  intros Hvalid.
  destruct (record_outcome ci duration uid w)
    as (r & w' & s & Hrun & Hid & Hs & _ & Hd & Ht & _ & _ & He & _ & Hp & Hat & _).
  rewrite decide_True in Hrun by done.
  exists r, w', s. rewrite He, Hat. done.
Qed.

Lemma capacityCheck_world cfg w :
  (DockerService.capacityCheck cfg w).2 = set_trace (trace w ++ [EvListContainers]) w.
Proof.
  unfold DockerService.capacityCheck, DockerService.getActiveContainersCount,
    DockerService.listContainers, emit.
  unfold_js. simpl. destruct (listFails (docker w)); simpl; case_decide; reflexivity.
Qed.

(* ===================================================================== *)
(** ** The retry budget of provisioning *)
(* ===================================================================== *)

(** C7. [startContainerWithRetry] calls [container.start()] at most three
    times; after three refusals it has waited 1000 ms and then 2000 ms and
    surfaces the error.  A [startContainer] call creates a container at
    most once.  When the start is refused twice and accepted the third
    time, and nothing else fails (in particular the expiry to be set is a
    valid date), [createSession] returns the session,
    the registry holds it, and the runtime holds exactly one container
    more than before, created by one call and started at the third. *)
Theorem start_retried_create_not (cfg : Config) :
  (∀ cId w, ∃ δ,
      trace (DockerService.startContainerWithRetry cId w).2 = trace w ++ δ
      ∧ (count is_start δ ≤ 3)%nat)
  ∧ (∀ cId w rest,
      startOutcomes (docker w) = false :: false :: false :: rest →
      ∃ w', DockerService.startContainerWithRetry cId w
              = (Thrown (RuntimeError "start"), w')
            ∧ trace w' = trace w ++ [EvStart cId false; EvSleep 1000;
                                      EvStart cId false; EvSleep 2000;
                                      EvStart cId false])
  ∧ (∀ w, ∃ δ,
      trace (DockerService.startContainer cfg w).2 = trace w ++ δ
      ∧ (count is_create δ ≤ 1)%nat)
  ∧ (∀ durationMs uid w rest,
      startOutcomes (docker w) = false :: false :: true :: rest →
      createFails (docker w) = false →
      imageLocal (docker w) = true ∨ pullFails (docker w) = false →
      Z.of_nat (size (sessions w)) < maxSessions cfg →
      (DockerService.capacityCheck cfg w).1 = Returned tt →
      valid_date (clock (DockerService.startContainer cfg w).2
                  + number_or durationMs (defaultDurationMs cfg)) →
      ∃ r w', SessionManager.createSession cfg durationMs uid w = (Returned r, w')
        ∧ is_Some (sessions w' !! resp_containerId r)
        ∧ length (containers (docker w')) = S (length (containers (docker w)))
        ∧ ∃ δ, trace w' = trace w ++ δ
               ∧ count is_create δ = 1%nat ∧ count is_start δ = 3%nat).
Proof.
  split; [|split; [|split]].
  - intros cId w. apply startAttempts_bound.
  - intros cId w rest. apply startContainerWithRetry_gives_up.
  - apply startContainer_creates_once.
  - intros durationMs uid w rest Hout Hcreate Himg Hroom Hcap Hvalid.
    unfold SessionManager.createSession. rewrite try_catch_rethrow.
    unfold mbind, M_bind, bind. rewrite admission_eq.
    destruct (decide _) as [?|_]; [lia|].
    revert Hvalid.
    unfold DockerService.startContainer. rewrite try_catch_rethrow.
    unfold mbind, M_bind, bind.
    pose proof (capacityCheck_world cfg w) as Hw.
    destruct (DockerService.capacityCheck cfg w) as [chk w1]. simpl in Hcap, Hw.
    subst chk w1.
    destruct (provision_third_time (set_trace (trace w ++ [EvListContainers]) w) rest)
      as (ci & w2 & -> & Hlen & δ & Ht & Cc & Cs); [done..|].
    intros Hvalid.
    destruct (record_spec ci (number_or durationMs (defaultDurationMs cfg)) uid w2
                Hvalid)
      as (r & w3 & s & -> & Hid & Hs & Hd & Ht3 & _).
    exists r, w3. split; [done|]. split; [|split].
    + rewrite Hs, Hid, lookup_insert_eq. eauto.
    + rewrite Hd, Hlen. reflexivity.
    + exists ([EvListContainers] ++ δ). split.
      * rewrite Ht3, Ht. simpl. by rewrite <- app_assoc.
      * rewrite !count_app, Cc, Cs. done.
Qed.

(** C7, witness: two refusals in an otherwise healthy runtime. *)
Lemma start_retried_create_not_witness :
  ∃ r w', SessionManager.createSession one_slot None None reluctant_world = (Returned r, w')
    ∧ is_Some (sessions w' !! resp_containerId r)
    ∧ length (containers (docker w')) = 1%nat
    ∧ ∃ δ, trace w' = trace reluctant_world ++ δ
           ∧ count is_create δ = 1%nat ∧ count is_start δ = 3%nat.
Proof.
  apply (proj2 (proj2 (proj2 (start_retried_create_not one_slot))) None None
           reluctant_world []); try reflexivity.
  - left. reflexivity.
  - vm_compute. split; discriminate.
Defined.

(* ===================================================================== *)
(** ** Endpoint resolution *)
(* ===================================================================== *)

(** C10. A session recorded with host port 0 resolves to the same [null]
    as an id the registry does not hold, and the proxy answers 404 for
    both. *)
Theorem zero_port_resolves_like_absent (w : World) (cId missing : string)
    (s : Session) :
  sessions w !! cId = Some s → hostPort s = 0 → sessions w !! missing = None →
  SessionManager.getSessionHostPort w cId = None
  ∧ SessionManager.getSessionHostPort w missing = None
  ∧ Handlers.proxyToBrowser w cId = Handlers.Answer404
  ∧ Handlers.proxyToBrowser w missing = Handlers.Answer404.
Proof.
  intros Hs Hport Hmissing.
  unfold Handlers.proxyToBrowser, SessionManager.getSessionHostPort,
    SessionStore.getSessionHostPort.
  rewrite Hs, Hmissing. destruct (decide (hostPort s = 0)); done.
Qed.

(** C10, witness: the session of a container whose port never appeared
    (the wait timed out after 5000 ms) next to an unknown id. *)
Lemma zero_port_resolves_like_absent_witness :
  clock unrouted_world = clock mute_world + 5000
  ∧ SessionManager.getSessionHostPort unrouted_world "0" = None
  ∧ SessionManager.getSessionHostPort unrouted_world "nobody" = None
  ∧ Handlers.proxyToBrowser unrouted_world "0" = Handlers.Answer404
  ∧ Handlers.proxyToBrowser unrouted_world "nobody" = Handlers.Answer404.
Proof.
  split; [vm_compute; reflexivity|].
  apply (zero_port_resolves_like_absent unrouted_world "0" "nobody"
           (mkSession "0" 0 1305000 (Some 0%nat) None 1005000 "anonymous"));
    vm_compute; reflexivity.
Defined.

(* ===================================================================== *)
(** ** Stopping a session *)
(* ===================================================================== *)

(** [stopContainer] never throws, enters the adapter once, and leaves the
    registry, the mirror, the timers and the clock alone. *)
Lemma stopContainer_spec cId w :
  ∃ b w' δ, DockerService.stopContainer cId w = (Returned b, w')
    ∧ sessions w' = sessions w ∧ redis w' = redis w ∧ timers w' = timers w
    ∧ clock w' = clock w
    ∧ trace w' = trace w ++ EvStopContainer cId :: δ
    ∧ count is_terminate δ = 0%nat.
Proof.
  unfold DockerService.stopContainer, DockerService.container_stop,
    DockerService.container_remove, DockerService.inspect,
    DockerService.modify_docker, emit.
  unfold_js. simpl.
  repeat (case_match; simpl);
    simplify_eq; eexists _, _, _; (split; [reflexivity|]); simpl;
    repeat split; rewrite <- ?app_assoc; simpl; reflexivity.
Qed.

(** [removeSession] never throws; it says whether the id was there. *)
Lemma removeSession_spec cId w :
  ∃ w', SessionStore.removeSession cId w
          = (Returned (bool_decide (is_Some (sessions w !! cId))), w')
    ∧ sessions w' = delete cId (sessions w)
    ∧ trace w' = trace w ∧ clock w' = clock w ∧ docker w' = docker w.
Proof.
  unfold SessionStore.removeSession, SessionStore.removeSessionFromRedis,
    SessionStore.redis_send, SessionStore.redis_await, clearTimeout.
  unfold_js. destruct (sessions w !! cId) as [s|] eqn:Hs; simpl.
  - destruct (timer s); simpl; destruct (redis w) eqn:Hr; simpl; rewrite ?Hr; simpl;
      eexists; (split; [reflexivity|]); done.
  - exists w. by rewrite delete_id.
Qed.

(** [SessionManager.stopSession] never throws, enters the runtime adapter
    once and removes the registry entry. *)
Lemma stopSession_spec cId w :
  ∃ b w' δ, SessionManager.stopSession cId w = (Returned b, w')
    ∧ (sessions w !! cId = None → b = false)
    ∧ sessions w' = delete cId (sessions w)
    ∧ clock w' = clock w
    ∧ trace w' = trace w ++ EvStopContainer cId :: δ
    ∧ count is_terminate δ = 0%nat.
Proof.
  unfold SessionManager.stopSession, try_catch, mbind, M_bind, bind.
  destruct (stopContainer_spec cId w)
    as (b & w1 & δ & -> & Hs & _ & _ & Hclock & Ht & Hδ).
  destruct (removeSession_spec cId w1) as (w2 & -> & Hs2 & Ht2 & Hclock2 & _).
  eexists _, w2, δ. split; [reflexivity|]. rewrite Hs2, Hs, Ht2, Hclock2.
  repeat split; try done.
  intros Hnone. rewrite Hnone. rewrite bool_decide_eq_false_2 by (by intros [? ?]).
  apply andb_false_r.
Qed.

(** A session that is not in the registry is not active. *)
Lemma isSessionActive_absent w cId :
  sessions w !! cId = None → SessionManager.isSessionActive w cId = false.
Proof.
  intros H. unfold SessionManager.isSessionActive, SessionStore.isSessionActive.
  by rewrite H.
Qed.

(** C3 (amended). The stop handler answers 200 with [stopped: true]
    whatever the state of the session, twice in a row; over the two calls
    [DockerService.stopContainer] is entered once when the session was
    active at the first call and not at all otherwise.
    [SessionManager.stopSession] itself never throws, and returns [false]
    for an id the registry does not hold. *)
Theorem stop_handler_idempotent (w : World) (cId : string) :
  (∃ r1 w1 r2 w2 δ,
      Handlers.stopSession true cId w = (Returned r1, w1)
      ∧ Handlers.stopSession true cId w1 = (Returned r2, w2)
      ∧ Handlers.http_status r1 = 200 ∧ Handlers.http_flag r1 = Some true
      ∧ Handlers.http_status r2 = 200 ∧ Handlers.http_flag r2 = Some true
      ∧ trace w2 = trace w ++ δ
      ∧ count is_terminate δ
        = if SessionManager.isSessionActive w cId then 1%nat else 0%nat)
  ∧ (∃ b w', SessionManager.stopSession cId w = (Returned b, w')
             ∧ (sessions w !! cId = None → b = false)).
Proof.
  split.
  - unfold Handlers.stopSession at 1. unfold try_catch, mbind, M_bind, bind, get.
    simpl. destruct (SessionManager.isSessionActive w cId) eqn:Hactive; simpl.
    + destruct (stopSession_spec cId w) as (b & w1 & δ & -> & _ & Hs & Hclock & Ht & Hδ).
      assert (Hgone : SessionManager.isSessionActive w1 cId = false).
      { apply isSessionActive_absent. rewrite Hs. apply lookup_delete_eq. }
      assert (H2 : ∃ r2,
        Handlers.stopSession true cId w1 = (Returned r2, w1)
        ∧ Handlers.http_status r2 = 200 ∧ Handlers.http_flag r2 = Some true).
      { unfold Handlers.stopSession, try_catch, mbind, M_bind, bind, get.
        simpl. rewrite Hgone. simpl. eauto. }
      destruct H2 as (r2 & Hr2 & ? & ?).
      destruct b; eexists _, w1, r2, w1, (EvStopContainer cId :: δ);
        (split; [reflexivity|]); (split; [exact Hr2|]); simpl;
        repeat split; try done; unfold count in *; simpl; by rewrite Hδ.
    + eexists _, w, _, w, []. split; [reflexivity|].
      unfold Handlers.stopSession, try_catch, mbind, M_bind, bind, get.
      simpl. rewrite Hactive. simpl. split; [reflexivity|]. simpl.
      repeat split; try done. by rewrite app_nil_r.
  - destruct (stopSession_spec cId w) as (b & w' & δ & Hstop & Hb & _).
    eauto.
Qed.

(** C3, counterexample: [stopSession] on an id that is already gone returns
    [false], not [true]; the second of two calls on a running session
    returns [false] too, and the runtime adapter is entered both times. *)
Lemma stopSession_twice_false_second_time :
  (SessionManager.stopSession "non-existent-id" fresh_world).1 = Returned false
  ∧ (SessionManager.stopSession "0" busy_world).1 = Returned true
  ∧ (SessionManager.stopSession "0"
       (SessionManager.stopSession "0" busy_world).2).1 = Returned false
  ∧ count is_terminate
      (trace (SessionManager.stopSession "0"
               (SessionManager.stopSession "0" busy_world).2).2)
    = (2 + count is_terminate (trace busy_world))%nat.
Proof. vm_compute. repeat split; reflexivity. Qed.

(** C3, witness: an id that was never there. *)
Lemma stop_handler_idempotent_witness :
  ∃ b w', SessionManager.stopSession "gone" fresh_world = (Returned b, w') ∧ b = false.
Proof.
  destruct (proj2 (stop_handler_idempotent fresh_world "gone")) as (b & w' & H & Hb).
  exists b, w'. split; [exact H | apply Hb; reflexivity].
Defined.

(* ===================================================================== *)
(** ** Extending a session *)
(* ===================================================================== *)






(* ===================================================================== *)
(** ** Writes to the mirror *)
(* ===================================================================== *)

Lemma redis_settle_issue c r :
  rdata (redis_settle (redis_issue c r)) = redis_apply c (rdata (redis_settle r)).
Proof.
  unfold redis_settle, redis_issue. cbn [rdata rpending]. by rewrite foldl_app.
Qed.

(** C4 (the code). With a mirror connected, [createSession] and
    [updateSessionExpiry] change the registry and return (or throw at
    their log line) without any command handed to the mirror client: the
    session they try to write holds a pending timer, [JSON.stringify]
    throws on it, and [persistSession] swallows the error.  The client is
    exactly as before, so nothing is in the mirror when the command would
    have completed either.  Only [removeSession] reaches the mirror: it
    returns after its DEL has completed. *)
Theorem mirror_write_never_issued (w : World) (r : Redis) :
  redis w = Some r →
  (∀ cId port durationMs uid,
     redis (SessionStore.createSession cId port durationMs uid w).2 = Some r
     ∧ is_Some (sessions (SessionStore.createSession cId port durationMs uid w).2
                  !! cId))
  ∧ (∀ cId newExpiresAt s, sessions w !! cId = Some s →
     redis (SessionStore.updateSessionExpiry cId newExpiresAt w).2 = Some r
     ∧ expiresAt <$> sessions (SessionStore.updateSessionExpiry cId newExpiresAt w).2
                       !! cId = Some newExpiresAt)
  ∧ (∀ cId s, sessions w !! cId = Some s →
     ∃ w' r', SessionStore.removeSession cId w = (Returned true, w')
       ∧ redis w' = Some r'
       ∧ rpending r' = []
       ∧ rdata r' !! redis_key cId = None).
Proof.
  intros Hr. split; [|split].
  - intros cId port durationMs uid. rewrite store_createSession_eq. simpl.
    split; [exact Hr|]. rewrite lookup_insert_eq. eauto.
  - intros cId newExpiresAt s Hs. rewrite (updateSessionExpiry_eq _ _ _ _ Hs). simpl.
    split; [exact Hr|]. by rewrite lookup_insert_eq.
  - intros cId s Hs.
    unfold SessionStore.removeSession, SessionStore.removeSessionFromRedis,
      SessionStore.redis_send, SessionStore.redis_await, clearTimeout.
    unfold_js. rewrite Hs.
    destruct (timer s); simpl; rewrite Hr; simpl; rewrite Hr; simpl;
      eexists _, _; (split; [reflexivity|]); simpl; (split; [reflexivity|]);
      (split; [reflexivity|]); rewrite redis_settle_issue; apply lookup_delete_eq.
Qed.

(** C4, at a process with an empty mirror: the session is created and
    registered, and the mirror, with everything in flight completed, is
    still empty. *)
Lemma mirror_write_never_issued_witness :
  (SessionStore.createSession "c1" 32768 300000 None mirrored_world).1
  = Returned (mkSession "c1" 32768 1300000 (Some 0%nat) None 1000000 "anonymous")
  ∧ redis (SessionStore.createSession "c1" 32768 300000 None mirrored_world).2
    = Some (mkRedis ∅ [])
  ∧ is_Some (sessions (SessionStore.createSession "c1" 32768 300000 None
                         mirrored_world).2 !! "c1").
Proof.
  split; [vm_compute; reflexivity|].
  apply (proj1 (mirror_write_never_issued mirrored_world (mkRedis ∅ []) eq_refl)).
Defined.

(* ===================================================================== *)
(** ** Restoring from the mirror *)
(* ===================================================================== *)

(** One turn of the restore loop on a settled mirror. *)
Lemma loadKey_spec k w d :
  redis w = Some (mkRedis d []) →
  ∃ w1, SessionStore.loadKey k w = (Returned tt, w1)
    ∧ timers w1 = timers w ∧ clock w1 = clock w
    ∧ redis w1 = Some (mkRedis
        (match d !! k with
         | Some (_, s) => if decide (expiresAt s > clock w) then d else delete k d
         | None => d
         end) [])
    ∧ sessions w1
      = match d !! k with
        | Some (_, s) =>
            if decide (expiresAt s > clock w)
            then <[containerId s := s]> (sessions w) else sessions w
        | None => sessions w
        end.
Proof.
  intros Hr.
  unfold SessionStore.loadKey, SessionStore.redis_await, SessionStore.redis_send.
  unfold_js. rewrite Hr. simpl.
  destruct (d !! k) as [[ttl s]|] eqn:Hk; simpl.
  - case_decide; simpl; eexists; (split; [reflexivity|]); done.
  - eexists; (split; [reflexivity|]); done.
Qed.

Lemma mirror_keyed_delete k d : mirror_keyed d → mirror_keyed (delete k d).
Proof.
  intros Hd k' ttl s Hk'. apply (Hd k' ttl s).
  apply lookup_delete_Some in Hk'. tauto.
Qed.

(** The restore loop over distinct keys. *)
Lemma forEach_loadKey ks :
  NoDup ks → ∀ w d, redis w = Some (mkRedis d []) →
  ∃ w' d', forEach ks SessionStore.loadKey w = (Returned tt, w')
    ∧ timers w' = timers w ∧ clock w' = clock w
    ∧ redis w' = Some (mkRedis d' [])
    ∧ (∀ k, d' !! k = if bool_decide (k ∈ ks) then kept (clock w) (d !! k) else d !! k)
    ∧ (∀ id s, sessions w' !! id = Some s →
         sessions w !! id = Some s
         ∨ ∃ k ttl, k ∈ ks ∧ d !! k = Some (ttl, s) ∧ containerId s = id
                    ∧ expiresAt s > clock w)
    ∧ (∀ id, (∀ k ttl s, k ∈ ks → d !! k = Some (ttl, s) → expiresAt s > clock w →
                         containerId s ≠ id) →
             sessions w' !! id = sessions w !! id)
    ∧ (mirror_keyed d → ∀ k ttl s, k ∈ ks → d !! k = Some (ttl, s) →
         expiresAt s > clock w → sessions w' !! containerId s = Some s).
Proof.
  induction 1 as [|k ks Hk Hks IH]; intros w d Hr.
  - exists w, d. simpl. repeat split; try done.
    + intros id s Hs. by left.
    + intros _ k ttl s Hin. by apply elem_of_nil in Hin.
  - simpl. unfold mbind, M_bind, bind.
    destruct (loadKey_spec k w d Hr) as (w1 & -> & Ht1 & Hc1 & Hr1 & Hs1).
    destruct (IH w1 _ Hr1) as (w' & d' & -> & Ht & Hc & Hr' & Hd' & Honly & Hframe & Hall).
    rewrite Hc1 in *.
    (* lookups in the mirror after the first turn *)
    set (d1 := match d !! k with
               | Some (_, s) => if decide (expiresAt s > clock w) then d else delete k d
               | None => d
               end) in *.
    assert (Hd1_ne : ∀ k', k' ≠ k → d1 !! k' = d !! k').
    { intros k' Hne. subst d1. destruct (d !! k) as [[? s]|]; [|done].
      case_decide; [done|]. by rewrite lookup_delete_ne. }
    assert (Hd1_eq : d1 !! k = kept (clock w) (d !! k)).
    { subst d1. unfold kept. destruct (d !! k) as [[? s]|] eqn:Hdk; [|done].
      case_decide; [done|]. apply lookup_delete_eq. }
    exists w', d'. split; [done|]. split; [congruence|]. split; [congruence|].
    split; [done|]. split; [|split; [|split]].
    + intros k'. rewrite Hd'. destruct (decide (k' = k)) as [->|Hne].
      * rewrite bool_decide_eq_false_2 by done.
        rewrite bool_decide_eq_true_2 by apply list_elem_of_here. done.
      * rewrite Hd1_ne by done.
        destruct (decide (k' ∈ ks)) as [Hin|Hnin].
        -- rewrite !bool_decide_eq_true_2; [done | by apply list_elem_of_further | done].
        -- rewrite !bool_decide_eq_false_2; [done | | done].
           intros Hin. apply elem_of_cons in Hin as [?|?]; done.
    + intros id s Hs. destruct (Honly id s Hs) as [Hw1 | (k' & ttl & Hin & Hk' & Hid & Hexp)].
      * rewrite Hs1 in Hw1. destruct (d !! k) as [[ttl0 s0]|] eqn:Hdk; [|by left].
        case_decide; [|by left].
        destruct (decide (containerId s0 = id)) as [Heq|Hne].
        -- rewrite Heq, lookup_insert_eq in Hw1. simplify_eq.
           right. exists k, ttl0. split; [apply list_elem_of_here|]. done.
        -- rewrite lookup_insert_ne in Hw1 by done. by left.
      * right. exists k', ttl. split; [by apply list_elem_of_further|].
        rewrite <- Hd1_ne; [done|]. intros ->. done.
    + intros id Hother. rewrite Hframe.
      * rewrite Hs1. destruct (d !! k) as [[ttl0 s0]|] eqn:Hdk; [|done].
        case_decide; [|done]. rewrite lookup_insert_ne; [done|].
        apply (Hother k ttl0 s0); [apply list_elem_of_here | done | done].
      * intros k' ttl s Hin Hk' Hexp. apply (Hother k' ttl s); [|  | done].
        -- by apply list_elem_of_further.
        -- rewrite <- Hd1_ne; [done|]. intros ->. done.
    + intros Hkeyed k' ttl s Hin Hk' Hexp.
      assert (Hkeyed1 : mirror_keyed d1).
      { subst d1. destruct (d !! k) as [[? s0]|]; [|done].
        case_decide; [done | by apply mirror_keyed_delete]. }
      apply elem_of_cons in Hin as [->|Hin].
      * rewrite Hframe.
        -- rewrite Hs1, Hk'. rewrite decide_True by done. apply lookup_insert_eq.
        -- intros k2 ttl2 s2 Hin2 Hk2 Hexp2 Hsame.
           assert (k2 ≠ k) by (intros ->; done).
           rewrite Hd1_ne in Hk2 by done.
           apply Hkeyed in Hk2, Hk'. congruence.
      * apply (Hall Hkeyed1 k' ttl s); [done | | done].
        rewrite Hd1_ne; [done|]. intros ->. done.
Qed.

Lemma elem_of_sessionKeys k r :
  k ∈ SessionStore.sessionKeys r
  ↔ String.prefix "session:" k = true ∧ is_Some (rdata r !! k).
Proof.
  unfold SessionStore.sessionKeys. rewrite list_elem_of_filter, list_elem_of_fmap.
  split.
  - intros [Hp ([k' v] & -> & Hin)]. apply elem_of_map_to_list in Hin. eauto.
  - intros [Hp [v Hv]]. split; [done|]. exists (k, v). split; [done|].
    by apply elem_of_map_to_list.
Qed.

Lemma NoDup_sessionKeys r : NoDup (SessionStore.sessionKeys r).
Proof. apply NoDup_filter, NoDup_fst_map_to_list. Qed.

Lemma prefix_redis_key cId : String.prefix "session:" (redis_key cId) = true.
Proof. unfold redis_key. simpl. by destruct cId. Qed.

(** C6 (amended). With [d] the content of the mirror at startup, the
    restore deletes from the mirror exactly the session records that have
    expired and keeps the others; a session it puts into memory comes from
    a record of the mirror whose [expiresAt] is still in the future; when
    records sit under the key of their session, every such record is in
    memory afterwards. *)
Theorem restore_loads_unexpired_without_timers (w : World) (r : Redis) :
  redis w = Some r →
  let d := rdata (redis_settle r) in
  ∃ w' d', SessionStore.loadSessionsFromRedis w = (Returned tt, w')
    ∧ redis w' = Some (mkRedis d' [])
    ∧ (∀ k, d' !! k = if String.prefix "session:" k
                      then kept (clock w) (d !! k) else d !! k)
    ∧ (∀ id s, sessions w' !! id = Some s →
         sessions w !! id = Some s
         ∨ ∃ k ttl, String.prefix "session:" k = true ∧ d !! k = Some (ttl, s)
                    ∧ containerId s = id ∧ expiresAt s > clock w)
    ∧ (mirror_keyed d → ∀ k ttl s, d !! k = Some (ttl, s) →
         expiresAt s > clock w → sessions w' !! containerId s = Some s).
Proof.
  intros Hr d.
  unfold SessionStore.loadSessionsFromRedis, SessionStore.redis_await.
  unfold_js. rewrite Hr. simpl. rewrite Hr. simpl.
  set (w0 := set_redis (Some (redis_settle r)) w).
  destruct (forEach_loadKey (SessionStore.sessionKeys (redis_settle r))
              (NoDup_sessionKeys _) w0 d eq_refl)
    as (w' & d' & Hrun & Ht & Hc & Hr' & Hd' & Honly & _ & Hall).
  exists w', d'. split; [exact Hrun|]. split; [exact Hr'|].
  split; [|split].
  - intros k. rewrite Hd'. simpl. destruct (String.prefix "session:" k) eqn:Hp.
    + destruct (d !! k) as [v|] eqn:Hk.
      * rewrite bool_decide_eq_true_2; [done|].
        apply elem_of_sessionKeys. split; [done|].
        change (is_Some (d !! k)). rewrite Hk. eauto.
      * by case_bool_decide.
    + rewrite bool_decide_eq_false_2; [done|].
      intros [Hp' _]%elem_of_sessionKeys. congruence.
  - intros id s Hs. destruct (Honly id s Hs) as [?|(k & ttl & Hin & Hk & Hid & Hexp)];
      [by left|]. right. exists k, ttl. apply elem_of_sessionKeys in Hin as [Hp _].
    done.
  - intros Hkeyed k ttl s Hk Hexp. apply (Hall Hkeyed k ttl s); [|done|done].
    apply elem_of_sessionKeys. split.
    + rewrite (Hkeyed k ttl s Hk). apply prefix_redis_key.
    + change (is_Some (d !! k)). rewrite Hk. eauto.
Qed.

(** C6, witness: the mirror a crashed process left behind. *)
Lemma restore_loads_unexpired_without_timers_witness :
  ∃ w' d', SessionStore.loadSessionsFromRedis (set_redis (Some left_behind) fresh_world)
             = (Returned tt, w')
    ∧ redis w' = Some (mkRedis d' [])
    ∧ d' !! redis_key "old" = None
    ∧ d' !! redis_key "young" = Some (300, young_session)
    ∧ sessions w' !! "young" = Some young_session
    ∧ sessions w' !! "old" = None.
Proof.
  destruct (restore_loads_unexpired_without_timers
              (set_redis (Some left_behind) fresh_world) left_behind eq_refl)
    as (w' & d' & Hrun & Hr' & Hd' & _ & _).
  exists w', d'. split; [exact Hrun|]. split; [exact Hr'|].
  split; [rewrite Hd'; vm_compute; reflexivity|].
  split; [rewrite Hd'; vm_compute; reflexivity|].
  assert (Hw' : restarted_world = w') by exact (f_equal snd Hrun).
  rewrite <- Hw'. split; vm_compute; reflexivity.
Defined.

(** C6, counterexample: the session the restore brought back has no timer:
    its handle is not a live one and the timer table is empty. *)
Lemma restored_session_has_no_timer :
  sessions restarted_world !! "young" = Some young_session
  ∧ timer young_session = None
  ∧ live (timers restarted_world) = ∅.
Proof. vm_compute. repeat split; reflexivity. Qed.

(** The periodic sweep is what removes a restored session that has run
    out. *)
Lemma sweep_reclaims_restored_session :
  sessions (SessionStore.cleanupExpiredSessions stale_world).2 = ∅
  ∧ (∃ r, redis (SessionStore.cleanupExpiredSessions stale_world).2 = Some r
          ∧ rdata r = ∅).
Proof. split; [|eexists]; vm_compute; repeat split; reflexivity. Qed.

(* ===================================================================== *)
(** ** Admission *)
(* ===================================================================== *)

(** A call that runs alone through the three turns of the machine is
    [SessionManager.createSession]. *)
Lemma run_alone_is_createSession cfg durationMs uid w :
  Interleaving.run cfg [0; 0; 0]%nat
    [Interleaving.mkCall durationMs uid Interleaving.AtAdmission] w
  = ([Interleaving.mkCall durationMs uid
        (Interleaving.Finished (SessionManager.createSession cfg durationMs uid w).1)],
     (SessionManager.createSession cfg durationMs uid w).2).
Proof.
  unfold SessionManager.createSession, DockerService.startContainer.
  rewrite !try_catch_rethrow. unfold mbind, M_bind, bind.
  simpl. unfold Interleaving.step at 1. simpl.
  destruct (SessionManager.admission cfg w) as [[[]|e] w1]; simpl.
  - unfold Interleaving.step at 1. simpl. rewrite try_catch_rethrow.
    unfold mbind, M_bind, bind.
    destruct (DockerService.capacityCheck cfg w1) as [[[]|e] w2]; simpl.
    + unfold Interleaving.step, mbind, M_bind, bind. simpl.
      destruct (DockerService.provision w2) as [[ci|e] w3]; simpl; [|done].
      by destruct (SessionManager.record ci _ uid w3).
    + reflexivity.
  - reflexivity.
Qed.

(** One call at a time, the registry never grows past the ceiling. *)
Lemma createSession_sequential_ceiling cfg durationMs uid w r w' :
  SessionManager.createSession cfg durationMs uid w = (Returned r, w') →
  Z.of_nat (size (sessions w)) < maxSessions cfg
  ∧ Z.of_nat (size (sessions w')) <= maxSessions cfg.
Proof.
  unfold SessionManager.createSession. rewrite try_catch_rethrow.
  unfold mbind, M_bind, bind. rewrite admission_eq.
  case_decide; [done|].
  pose proof (provision_frame_startContainer cfg w) as (Hs & _).
  destruct (DockerService.startContainer cfg w) as [[ci|e] w1]; [|done].
  simpl in Hs.
  destruct (record_outcome ci (number_or durationMs (defaultDurationMs cfg)) uid w1)
    as (r' & w2 & s & -> & _ & Hs2 & _).
  case_decide; [|done].
  intros [= _ <-]. split; [lia|]. rewrite Hs2, Hs.
  pose proof (map_size_insert (info_id ci) s (sessions w)) as Hsize.
  destruct (sessions w !! info_id ci); simpl in Hsize; lia.
Qed.

(** C1 (the code at the failing schedule). With one slot and two calls
    whose admission and capacity tests both run before either container
    has started, both calls pass, both return a session, and the registry
    holds two sessions, one more than the ceiling. *)
Theorem createSession_race_exceeds_ceiling :
  maxSessions one_slot = 1
  ∧ Interleaving.occupancy
      (Interleaving.run one_slot [0; 1]%nat two_calls fresh_world).1
      (Interleaving.run one_slot [0; 1]%nat two_calls fresh_world).2 = 2
  ∧ Interleaving.call_pc <$>
      (Interleaving.run one_slot racing_schedule two_calls fresh_world).1
    = [Interleaving.Finished (Returned
         (mkSessionResponse "0" 32768 "/browser-session/0/"
            "http://localhost:32768/" 1300000 300000));
       Interleaving.Finished (Returned
         (mkSessionResponse "1" 32768 "/browser-session/1/"
            "http://localhost:32768/" 1300000 300000))]
  ∧ size (sessions (Interleaving.run one_slot racing_schedule two_calls fresh_world).2)
    = 2%nat
  ∧ cstate <$> containers
      (docker (Interleaving.run one_slot racing_schedule two_calls fresh_world).2)
    = [running; running].
Proof. vm_compute. repeat split; reflexivity. Qed.

(** The same two calls one after the other: the second is refused. *)
Lemma createSession_one_after_the_other :
  Interleaving.call_pc <$>
    (Interleaving.run one_slot [0; 0; 0; 1; 1; 1]%nat two_calls fresh_world).1
  = [Interleaving.Finished (Returned
       (mkSessionResponse "0" 32768 "/browser-session/0/"
          "http://localhost:32768/" 1300000 300000));
     Interleaving.Finished (Thrown (MaxSessionsReached 1))].
Proof. vm_compute. reflexivity. Qed.

(* ===================================================================== *)
(** ** The polling loop has turns enough *)
(* ===================================================================== *)

(** Once [100 * fuel] covers what is left of the timeout, more turns make
    no difference: [waitForHostPort] never returns because it ran out of
    turns. *)
Lemma waitLoop_fuel_enough fuel fuel' start timeoutMs cId w :
  timeoutMs - (clock w - start) <= 100 * (Z.of_nat fuel - 1) →
  timeoutMs - (clock w - start) <= 100 * (Z.of_nat fuel' - 1) →
  DockerService.waitLoop fuel start timeoutMs cId w
  = DockerService.waitLoop fuel' start timeoutMs cId w.
Proof.
  revert fuel' w. induction fuel as [|f IH]; intros fuel' w Hf Hf'.
  - destruct fuel' as [|f']; [done|]. simpl.
    unfold mbind, M_bind, bind, get. case_decide; [lia | done].
  - destruct fuel' as [|f'].
    + simpl. unfold mbind, M_bind, bind, get. case_decide; [lia | done].
    + simpl. unfold mbind, M_bind, bind, get. case_decide; [|done].
      rewrite inspect_eq.
      destruct (DockerService.find_container cId (containers (docker w))); [|done].
      case_decide; [done|]. rewrite sleep_eq; try change (timer_delay 100) with 100. apply IH; simpl; lia.
Qed.

Lemma waitForHostPort_fuel_enough cId timeoutMs extra w :
  DockerService.waitForHostPort cId timeoutMs w
  = DockerService.waitLoop (Z.to_nat (timeoutMs / 100) + 2 + extra) (clock w)
      timeoutMs cId w.
Proof.
  unfold DockerService.waitForHostPort, mbind, M_bind, bind, get.
  assert (timeoutMs < 0 ∨ 0 <= timeoutMs / 100 ∧ timeoutMs < 100 * (timeoutMs / 100 + 1)).
  { destruct (decide (timeoutMs < 0)); [by left|right].
    split; [apply Z.div_pos; lia|].
    pose proof (Z.mod_pos_bound timeoutMs 100 ltac:(lia)).
    pose proof (Z.div_mod timeoutMs 100 ltac:(lia)). lia. }
  apply waitLoop_fuel_enough; lia.
Qed.

(* ===================================================================== *)
(** ** The registry: create, read back, remove *)
(* ===================================================================== *)

(** What [SessionStore.createSession] leaves behind, its expiry being a
    valid date. *)
Lemma store_createSession_spec cId port durationMs uid w :
  valid_date (clock w + durationMs) →
  ∃ s w', SessionStore.createSession cId port durationMs uid w = (Returned s, w')
    ∧ s = mkSession cId port (clock w + durationMs) (Some (next_handle (timers w)))
            (truthy_string uid) (clock w) (default "anonymous" (truthy_string uid))
    ∧ sessions w' = <[cId := s]> (sessions w)
    ∧ timers w' = mkTimers (<[next_handle (timers w)
                              := (cId, clock w + timer_delay durationMs)]>
                              (live (timers w)))
                           (S (next_handle (timers w)))
    ∧ clock w' = clock w ∧ docker w' = docker w ∧ trace w' = trace w.
Proof.
  intros Hvalid. rewrite store_createSession_eq, decide_True by done.
  eexists _, _. split; [reflexivity|]. done.
Qed.

(** X1. A session that was just created, with an expiry that is a valid
    date, is read back as created: it is under its id with the port and
    the expiry [now + durationMs], its remaining time is the duration (0
    for a duration that is not positive), it is active exactly when the
    duration is positive, and the entries under other ids are what they
    were. *)
Theorem store_create_then_read (w : World) (cId : string) (port durationMs : Z)
    (uid : option string) :
  valid_date (clock w + durationMs) →
  ∃ s w', SessionStore.createSession cId port durationMs uid w = (Returned s, w')
    ∧ SessionStore.getSession w' cId = Some s
    ∧ containerId s = cId ∧ hostPort s = port
    ∧ expiresAt s = clock w + durationMs
    ∧ SessionStore.getRemainingTime w' cId = Z.max 0 durationMs
    ∧ SessionStore.isSessionActive w' cId = bool_decide (0 < durationMs)
    ∧ SessionStore.getSessionHostPort w' cId
      = (if decide (port = 0) then None else Some port)
    ∧ (∀ other, other ≠ cId →
         SessionStore.getSession w' other = SessionStore.getSession w other).
Proof.
  intros Hvalid.
  destruct (store_createSession_spec cId port durationMs uid w Hvalid)
    as (s & w' & Hrun & Hs & Hsess & _ & Hclock & _).
  exists s, w'. split; [exact Hrun|].
  unfold SessionStore.getSession, SessionStore.getRemainingTime,
    SessionStore.isSessionActive, SessionStore.getSessionHostPort.
  rewrite Hsess, lookup_insert_eq, Hclock. subst s. simpl.
  repeat split.
  - f_equal. lia.
  - apply bool_decide_ext. lia.
  - intros other Hne. by rewrite lookup_insert_ne.
Qed.

(** What [removeSession] does to the timers and the mirror. *)
Lemma removeSession_present cId w s :
  sessions w !! cId = Some s →
  ∃ w', SessionStore.removeSession cId w = (Returned true, w')
    ∧ sessions w' = delete cId (sessions w)
    ∧ timers w' = mkTimers (match timer s with
                            | Some h => delete h (live (timers w))
                            | None => live (timers w)
                            end) (next_handle (timers w))
    ∧ clock w' = clock w ∧ docker w' = docker w ∧ trace w' = trace w.
Proof.
  intros Hs.
  unfold SessionStore.removeSession, SessionStore.removeSessionFromRedis,
    SessionStore.redis_send, SessionStore.redis_await, clearTimeout.
  unfold_js. rewrite Hs.
  destruct (timer s); simpl; destruct (redis w) eqn:Hr; simpl; rewrite ?Hr; simpl;
    eexists; (split; [reflexivity|]); simpl; repeat split; by destruct (timers w).
Qed.

Lemma removeSession_absent cId w :
  sessions w !! cId = None → SessionStore.removeSession cId w = (Returned false, w).
Proof.
  intros Hs. unfold SessionStore.removeSession. unfold_js. by rewrite Hs.
Qed.

(** X2. [removeSession] says whether the id was there; afterwards the id
    reads as gone (no session, no remaining time, no endpoint, not
    active), the other entries are untouched, and removing again returns
    [false] and changes nothing. *)
Theorem store_remove_idempotent (w : World) (cId : string) :
  ∃ w', SessionStore.removeSession cId w
          = (Returned (bool_decide (is_Some (sessions w !! cId))), w')
    ∧ SessionStore.getSession w' cId = None
    ∧ SessionStore.getRemainingTime w' cId = 0
    ∧ SessionStore.getSessionHostPort w' cId = None
    ∧ SessionStore.isSessionActive w' cId = false
    ∧ (∀ other, other ≠ cId →
         SessionStore.getSession w' other = SessionStore.getSession w other)
    ∧ SessionStore.removeSession cId w' = (Returned false, w').
Proof.
  destruct (removeSession_spec cId w) as (w' & Hrun & Hs & _).
  exists w'. split; [exact Hrun|].
  assert (Hgone : sessions w' !! cId = None) by (rewrite Hs; apply lookup_delete_eq).
  unfold SessionStore.getSession, SessionStore.getRemainingTime,
    SessionStore.isSessionActive, SessionStore.getSessionHostPort.
  rewrite Hgone. repeat split.
  - intros other Hne. rewrite Hs. by rewrite lookup_delete_ne.
  - by apply removeSession_absent.
Qed.

(* ===================================================================== *)
(** ** Timers and registry stay in step *)
(* ===================================================================== *)

Lemma updateSessionExpiry_absent cId newExpiresAt w :
  sessions w !! cId = None →
  SessionStore.updateSessionExpiry cId newExpiresAt w = (Returned false, w).
Proof.
  intros Hs. unfold SessionStore.updateSessionExpiry. unfold_js. by rewrite Hs.
Qed.

(** Two sessions never hold the same timer. *)
Lemma timers_ok_distinct w id1 id2 s1 s2 h :
  timers_ok w →
  sessions w !! id1 = Some s1 → timer s1 = Some h →
  sessions w !! id2 = Some s2 → timer s2 = Some h → id1 = id2.
Proof.
  intros (_ & Hok & _) Hs1 Ht1 Hs2 Ht2.
  destruct (Hok _ _ _ Hs1 Ht1) as (d1 & H1 & _).
  destruct (Hok _ _ _ Hs2 Ht2) as (d2 & H2 & _).
  congruence.
Qed.

(** The timer armed for a delay is due at the instant aimed at, or one
    millisecond from now. *)
Lemma timer_delay_due now target :
  now + timer_delay (target - now) = target
  ∨ now + timer_delay (target - now) <= now + 1.
Proof. unfold timer_delay. case_decide; [left|right]; lia. Qed.

(** What is left of the timers once the one a session holds is cleared. *)
Lemma cleared_lookup_Some (o : option nat) (l : gmap nat (string * Z)) h t :
  match o with Some h1 => delete h1 l | None => l end !! h = Some t
  ↔ l !! h = Some t ∧ o ≠ Some h.
Proof.
  destruct o as [h1|]; [|by intuition].
  rewrite lookup_delete_Some. split.
  - intros [Hne Hl]. split; [done|]. by intros [= ->].
  - intros [Hl Hne]. split; [|done]. by intros ->.
Qed.

Lemma timers_ok_createSession cId port durationMs uid w :
  timers_ok w → sessions w !! cId = None →
  timers_ok (SessionStore.createSession cId port durationMs uid w).2.
Proof.
  intros (Hlt & Hok & Hown) Hfresh. rewrite store_createSession_eq. simpl.
  split; [|split]; simpl.
  - intros h t Hh. destruct (decide (h = next_handle (timers w))) as [->|Hne]; [lia|].
    rewrite lookup_insert_ne in Hh by done. apply Hlt in Hh. lia.
  - intros id s0 h0.
    destruct (decide (id = cId)) as [->|Hne].
    + rewrite lookup_insert_eq. intros [= <-]. simpl. intros [= <-].
      eexists. split; [apply lookup_insert_eq|]. simpl.
      unfold timer_delay. case_decide; [by left|right; lia].
    + rewrite lookup_insert_ne by done. intros Hs0 Ht0.
      destruct (Hok _ _ _ Hs0 Ht0) as (due & Hlive & Hdue).
      pose proof (Hlt _ _ Hlive). exists due.
      rewrite lookup_insert_ne by lia. done.
  - intros h c due.
    destruct (decide (h = next_handle (timers w))) as [->|Hne].
    + rewrite lookup_insert_eq. intros [= <- <-].
      eexists. rewrite lookup_insert_eq. done.
    + rewrite lookup_insert_ne by done. intros Hlive.
      destruct (Hown _ _ _ Hlive) as (s0 & Hs0 & Ht0).
      exists s0. rewrite lookup_insert_ne by congruence. done.
Qed.

Lemma timers_ok_updateSessionExpiry cId newExpiresAt w :
  timers_ok w → timers_ok (SessionStore.updateSessionExpiry cId newExpiresAt w).2.
Proof.
  intros Hw. destruct (sessions w !! cId) as [s|] eqn:Hs;
    [|by rewrite updateSessionExpiry_absent].
  rewrite (updateSessionExpiry_eq _ _ _ _ Hs).
  pose proof Hw as (Hlt & Hok & Hown).
  split; [|split]; simpl.
  - intros h t Hh. destruct (decide (h = next_handle (timers w))) as [->|Hne]; [lia|].
    rewrite lookup_insert_ne in Hh by done.
    apply cleared_lookup_Some in Hh as [Hh _]. apply Hlt in Hh. lia.
  - intros id s0 h0.
    destruct (decide (id = cId)) as [->|Hne].
    + rewrite lookup_insert_eq. intros [= <-]. simpl. intros [= <-].
      eexists. split; [apply lookup_insert_eq|]. apply timer_delay_due.
    + rewrite lookup_insert_ne by done. intros Hs0 Ht0.
      destruct (Hok _ _ _ Hs0 Ht0) as (due & Hlive & Hdue).
      pose proof (Hlt _ _ Hlive). exists due.
      rewrite lookup_insert_ne by lia. split; [|done].
      apply cleared_lookup_Some. split; [done|]. intros Hh.
      apply Hne. by apply (timers_ok_distinct w id cId s0 s h0).
  - intros h c due.
    destruct (decide (h = next_handle (timers w))) as [->|Hne].
    + rewrite lookup_insert_eq. intros [= <- <-].
      eexists. rewrite lookup_insert_eq. done.
    + rewrite lookup_insert_ne by done.
      intros [Hlive Hnot]%cleared_lookup_Some.
      destruct (Hown _ _ _ Hlive) as (s0 & Hs0 & Ht0).
      exists s0. rewrite lookup_insert_ne; [done|].
      intros <-. rewrite Hs in Hs0. injection Hs0 as <-. done.
Qed.

Lemma timers_ok_removeSession cId w :
  timers_ok w → timers_ok (SessionStore.removeSession cId w).2.
Proof.
  intros Hw. destruct (sessions w !! cId) as [s|] eqn:Hs;
    [|by rewrite removeSession_absent].
  destruct (removeSession_present cId w s Hs)
    as (w' & -> & Hsess & Htimers & Hclock & _).
  pose proof Hw as (Hlt & Hok & Hown).
  simpl. split; [|split]; rewrite Htimers; simpl.
  - intros h t Hh. apply (Hlt h t). by apply cleared_lookup_Some in Hh as [Hh _].
  - intros id s0 h0. rewrite Hsess, Hclock.
    intros [Hne Hs0]%lookup_delete_Some Ht0.
    destruct (Hok _ _ _ Hs0 Ht0) as (due & Hlive & Hdue). exists due.
    split; [|done]. apply cleared_lookup_Some. split; [done|]. intros Hh.
    apply Hne. by apply (timers_ok_distinct w cId id s s0 h0).
  - intros h c due [Hlive Hnot]%cleared_lookup_Some.
    destruct (Hown _ _ _ Hlive) as (s0 & Hs0 & Ht0).
    exists s0. rewrite Hsess. rewrite lookup_delete_ne; [done|].
    intros ->. rewrite Hs in Hs0. injection Hs0 as <-. done.
Qed.

(** What a timer that comes due does. *)
Lemma fireTimer_due h cId due w :
  live (timers w) !! h = Some (cId, due) → due <= clock w →
  SessionStore.fireTimer h w
  = SessionStore.removeSession cId
      (set_timers (mkTimers (delete h (live (timers w))) (next_handle (timers w))) w).
Proof.
  intros Hh Hdue. unfold SessionStore.fireTimer, clearTimeout. unfold_js.
  rewrite Hh. by case_decide.
Qed.

Lemma fireTimer_not_due h w :
  (∀ cId due, live (timers w) !! h = Some (cId, due) → clock w < due) →
  SessionStore.fireTimer h w = (Returned false, w).
Proof.
  intros Hh. unfold SessionStore.fireTimer. unfold_js.
  destruct (live (timers w) !! h) as [[cId due]|] eqn:Hlive; [|done].
  specialize (Hh _ _ eq_refl). case_decide; [lia|done].
Qed.

Lemma timers_ok_fireTimer h w :
  timers_ok w → timers_ok (SessionStore.fireTimer h w).2.
Proof.
  intros Hw. pose proof Hw as (Hlt & Hok & Hown).
  destruct (live (timers w) !! h) as [[cId due]|] eqn:Hlive.
  2: { rewrite fireTimer_not_due; [done|]. intros ??. congruence. }
  destruct (decide (due <= clock w)) as [Hdue|Hdue].
  2: { rewrite fireTimer_not_due; [done|]. intros ?? Heq. rewrite Hlive in Heq.
       injection Heq as <- <-. lia. }
  rewrite (fireTimer_due h cId due w Hlive Hdue).
  set (w1 := set_timers _ w).
  destruct (Hown _ _ _ Hlive) as (s & Hs & Hts).
  destruct (removeSession_present cId w1 s Hs)
    as (w' & -> & Hsess & Htimers & Hclock & _).
  simpl. split; [|split]; rewrite Htimers, Hts; simpl.
  - intros h0 t Hh0. apply (Hlt h0 t).
    by repeat (apply lookup_delete_Some in Hh0 as [_ Hh0]).
  - intros id s0 h0. rewrite Hsess, Hclock. simpl.
    intros [Hne Hs0]%lookup_delete_Some Ht0.
    destruct (Hok _ _ _ Hs0 Ht0) as (due0 & Hl0 & Hdue0). exists due0.
    assert (h0 ≠ h) by (intros ->; congruence).
    by rewrite !lookup_delete_ne.
  - intros h0 c due0 [Hne [_ Hl0]%lookup_delete_Some]%lookup_delete_Some.
    destruct (Hown _ _ _ Hl0) as (s0 & Hs0 & Ht0).
    exists s0. rewrite Hsess. simpl. rewrite lookup_delete_ne; [done|].
    intros ->. rewrite Hs in Hs0. injection Hs0 as <-. congruence.
Qed.

Lemma timers_ok_fresh : timers_ok fresh_world.
Proof. split; [|split]; intros *; simpl; by rewrite lookup_empty. Qed.

(** X3. Timers and registry stay in step.  Let every timer a session
    holds be pending and aimed at that session, due at its [expiresAt] or,
    where Node replaced the delay by 1 ms, no later than 1 ms from now;
    and let every pending timer be held by the session it is aimed at.
    This is still so after [createSession] of an id that is not
    registered, after [updateSessionExpiry], after [removeSession] and
    after a timer has fired.  In particular extending never leaves the old
    timer pending, and removing never cancels the timer of another
    session. *)
Theorem timers_follow_registry (w : World) :
  timers_ok w →
  (∀ cId port durationMs uid,
     sessions w !! cId = None →
     timers_ok (SessionStore.createSession cId port durationMs uid w).2)
  ∧ (∀ cId newExpiresAt,
     timers_ok (SessionStore.updateSessionExpiry cId newExpiresAt w).2)
  ∧ (∀ cId newExpiresAt s h,
     sessions w !! cId = Some s → timer s = Some h →
     live (timers (SessionStore.updateSessionExpiry cId newExpiresAt w).2) !! h = None)
  ∧ (∀ cId, timers_ok (SessionStore.removeSession cId w).2)
  ∧ (∀ cId other s h,
     sessions w !! other = Some s → timer s = Some h → other ≠ cId →
     is_Some (live (timers (SessionStore.removeSession cId w).2) !! h))
  ∧ (∀ h, timers_ok (SessionStore.fireTimer h w).2).
Proof.
  intros Hw. split; [|split; [|split; [|split; [|split]]]].
  - intros. by apply timers_ok_createSession.
  - intros. by apply timers_ok_updateSessionExpiry.
  - intros cId newExpiresAt s h Hs Ht.
    rewrite (updateSessionExpiry_eq _ _ _ _ Hs). simpl. rewrite Ht.
    destruct Hw as (Hlt & Hok & _).
    destruct (Hok _ _ _ Hs Ht) as (due & Hlive & _). pose proof (Hlt _ _ Hlive).
    rewrite lookup_insert_ne by lia. apply lookup_delete_eq.
  - intros. by apply timers_ok_removeSession.
  - intros cId other s h Hs Ht Hne.
    destruct (timers_ok_removeSession cId w Hw) as (_ & Hok' & _).
    destruct (removeSession_spec cId w) as (w' & Hrun & Hsess & _).
    rewrite Hrun in Hok' |- *. simpl in *.
    destruct (Hok' other s h) as (due & -> & _); [|done|by eauto].
    rewrite Hsess. by rewrite lookup_delete_ne.
  - intros. by apply timers_ok_fireTimer.
Qed.

(** X3, witness: the first session of a process that has just started. *)
Lemma timers_follow_registry_witness :
  timers_ok (SessionStore.createSession "c1" 32768 300000 None fresh_world).2.
Proof.
  apply (proj1 (timers_follow_registry fresh_world timers_ok_fresh)).
  reflexivity.
Defined.

(* ===================================================================== *)
(** ** Expiry *)
(* ===================================================================== *)

Lemma removeSession_then_unit cId w :
  (SessionStore.removeSession cId;; ret tt) w
  = (Returned tt, (SessionStore.removeSession cId w).2).
Proof.
  unfold mbind, M_bind, bind. by destruct (removeSession_spec cId w) as (w' & -> & _).
Qed.

(** The sweep loop: the sessions of the list are removed by their
    [containerId]; clock, runtime and trace are not touched. *)
Lemma forEach_removeSession (l : list Session) w :
  ∃ w', forEach l (fun s => SessionStore.removeSession (containerId s);; ret tt) w
          = (Returned tt, w')
    ∧ (∀ k, sessions w' !! k
            = if bool_decide (k ∈ containerId <$> l) then None else sessions w !! k)
    ∧ clock w' = clock w ∧ docker w' = docker w ∧ trace w' = trace w.
Proof.
  revert w. induction l as [|s l IH]; intros w.
  - exists w. simpl. repeat split.
  - cbn [forEach]. unfold mbind at 1, M_bind at 1, bind at 1.
    rewrite removeSession_then_unit.
    destruct (removeSession_spec (containerId s) w) as (w1 & -> & Hs1 & Ht1 & Hc1 & Hd1).
    cbn [snd]. destruct (IH w1) as (w' & -> & Hs' & Hc' & Hd' & Ht').
    exists w'. split; [done|]. split; [|split; [|split]]; try congruence.
    intros k. rewrite Hs', Hs1. rewrite fmap_cons.
    destruct (decide (k = containerId s)) as [->|Hne].
    + rewrite (bool_decide_eq_true_2 (_ ∈ _ :: _)) by apply list_elem_of_here.
      rewrite lookup_delete_eq. by case_bool_decide.
    + rewrite lookup_delete_ne by done.
      destruct (decide (k ∈ containerId <$> l)) as [Hin|Hnin].
      * rewrite !bool_decide_eq_true_2; [done | by apply list_elem_of_further | done].
      * rewrite !bool_decide_eq_false_2; [done | | done].
        intros Hin. apply elem_of_cons in Hin as [?|?]; done.
Qed.

(** X4. The periodic sweep removes exactly the sessions whose [expiresAt]
    has passed (the registry holding each session under its own id): what
    is left afterwards is what was there and has not expired.  The sweep
    makes no runtime call. *)
Theorem sweep_removes_exactly_expired (w : World) :
  registry_keyed w →
  ∃ w', SessionStore.cleanupExpiredSessions w = (Returned tt, w')
    ∧ (∀ k s, sessions w' !! k = Some s
              ↔ sessions w !! k = Some s ∧ expiresAt s > clock w)
    ∧ docker w' = docker w ∧ trace w' = trace w.
Proof.
  intros Hkeyed. unfold SessionStore.cleanupExpiredSessions.
  unfold mbind at 1, M_bind at 1, bind at 1, get. cbv zeta.
  destruct (forEach_removeSession
              (filter (fun s => expiresAt s <= clock w) (SessionStore.getAllSessions w)) w)
    as (w' & -> & Hs' & _ & Hd & Ht).
  exists w'. split; [done|]. split; [|done].
  intros k s. rewrite Hs'. case_bool_decide as Hin.
  - split; [done|]. intros [Hk Hexp]. exfalso.
    apply list_elem_of_fmap in Hin as (s0 & -> & Hin).
    apply list_elem_of_filter in Hin as [Hexp0 Hin].
    unfold SessionStore.getAllSessions in Hin.
    apply list_elem_of_fmap in Hin as ([k0 s1] & -> & Hin). simpl in *.
    apply elem_of_map_to_list in Hin. pose proof (Hkeyed _ _ Hin) as Hk0.
    assert (s1 = s) by congruence. subst s1. lia.
  - split.
    + intros Hk. split; [done|].
      destruct (decide (expiresAt s > clock w)) as [|Hexp]; [done|].
      exfalso. apply Hin. apply list_elem_of_fmap. exists s.
      split; [by rewrite (Hkeyed _ _ Hk)|].
      apply list_elem_of_filter. split; [lia|].
      unfold SessionStore.getAllSessions. apply list_elem_of_fmap. exists (k, s).
      split; [done|]. by apply elem_of_map_to_list.
    + intros [Hk _]. done.
Qed.

(** X5. When a session's timer comes due, the callback removes the session
    from the registry and does nothing else: the runtime is as it was and
    no call to it is made, so the container of an expired session is still
    there. *)
Theorem timer_expiry_forgets_session_only (w : World) (h : nat) (cId : string)
    (due : Z) :
  live (timers w) !! h = Some (cId, due) → due <= clock w →
  ∃ b w', SessionStore.fireTimer h w = (Returned b, w')
    ∧ sessions w' !! cId = None
    ∧ live (timers w') !! h = None
    ∧ docker w' = docker w ∧ trace w' = trace w.
Proof.
  intros Hh Hdue. rewrite (fireTimer_due h cId due w Hh Hdue).
  set (w1 := set_timers _ w).
  destruct (sessions w !! cId) as [s|] eqn:Hs.
  - destruct (removeSession_present cId w1 s Hs)
      as (w' & -> & Hsess & Htimers & _ & Hd & Ht).
    exists true, w'. split; [done|]. rewrite Hsess, Htimers. simpl.
    split; [apply lookup_delete_eq|]. split; [|done].
    destruct (timer s) as [h1|].
    + destruct (decide (h1 = h)) as [->|]; [apply lookup_delete_eq|].
      rewrite lookup_delete_ne by done. apply lookup_delete_eq.
    + apply lookup_delete_eq.
  - rewrite removeSession_absent by done. exists false, w1. split; [done|].
    simpl. split; [done|]. split; [apply lookup_delete_eq | done].
Qed.

(** A restored session sits under its own id. *)
Lemma loadSessionsFromRedis_keyed w id s :
  sessions (SessionStore.loadSessionsFromRedis w).2 !! id = Some s →
  sessions w !! id = Some s ∨ containerId s = id.
Proof.
  unfold SessionStore.loadSessionsFromRedis, SessionStore.redis_await.
  unfold_js. destruct (redis w) as [r|] eqn:Hr; simpl; [|by left].
  rewrite Hr. simpl.
  set (w0 := set_redis (Some (redis_settle r)) w).
  destruct (forEach_loadKey (SessionStore.sessionKeys (redis_settle r))
              (NoDup_sessionKeys _) w0 (rdata (redis_settle r)) eq_refl)
    as (w' & d' & -> & _ & _ & _ & _ & Honly & _).
  simpl. intros Hs. destruct (Honly id s Hs) as [?|(k & ttl & _ & _ & Hid & _)];
    [by left | by right].
Qed.

Lemma registry_keyed_fresh : registry_keyed fresh_world.
Proof. intros k s. simpl. by rewrite lookup_empty. Qed.

Lemma registry_keyed_createSession cId port durationMs uid w :
  registry_keyed w →
  registry_keyed (SessionStore.createSession cId port durationMs uid w).2.
Proof.
  intros Hw. rewrite store_createSession_eq.
  simpl. intros k s0. simpl.
  destruct (decide (k = cId)) as [->|Hne].
  - rewrite lookup_insert_eq. by intros [= <-].
  - rewrite lookup_insert_ne by done. apply Hw.
Qed.

Lemma registry_keyed_updateSessionExpiry cId newExpiresAt w :
  registry_keyed w →
  registry_keyed (SessionStore.updateSessionExpiry cId newExpiresAt w).2.
Proof.
  intros Hw. destruct (sessions w !! cId) as [s|] eqn:Hs;
    [|by rewrite updateSessionExpiry_absent].
  rewrite (updateSessionExpiry_eq _ _ _ _ Hs).
  simpl. intros k s0. simpl.
  destruct (decide (k = cId)) as [->|Hne].
  - rewrite lookup_insert_eq. intros [= <-]. simpl. by apply Hw.
  - rewrite lookup_insert_ne by done. apply Hw.
Qed.

Lemma registry_keyed_removeSession cId w :
  registry_keyed w → registry_keyed (SessionStore.removeSession cId w).2.
Proof.
  intros Hw. destruct (removeSession_spec cId w) as (w' & -> & Hsess & _).
  simpl. intros k s0. rewrite Hsess. intros [_ Hk]%lookup_delete_Some. by apply Hw.
Qed.

Lemma registry_keyed_initializeRedis cfg server w :
  registry_keyed w → registry_keyed (SessionStore.initializeRedis cfg server w).2.
Proof.
  intros Hw. unfold SessionStore.initializeRedis.
  destruct (persistenceEnabled cfg); [|done].
  destruct server as [r|]; [|done].
  unfold mbind, M_bind, bind, modify.
  pose proof (loadSessionsFromRedis_keyed (set_redis (Some r) w)) as Hload.
  destruct (SessionStore.loadSessionsFromRedis (set_redis (Some r) w)) as [[[]|e] w'];
    simpl in *; intros k s0 Hk; (destruct (Hload k s0 Hk) as [?|?]; [by apply Hw|done]).
Qed.

(** X6. Every operation of the store keeps each session under its own
    [containerId]: creating, extending, removing, and restoring from any
    mirror at startup. *)
Theorem registry_stays_keyed (w : World) :
  registry_keyed w →
  (∀ cId port durationMs uid,
     registry_keyed (SessionStore.createSession cId port durationMs uid w).2)
  ∧ (∀ cId newExpiresAt,
     registry_keyed (SessionStore.updateSessionExpiry cId newExpiresAt w).2)
  ∧ (∀ cId, registry_keyed (SessionStore.removeSession cId w).2)
  ∧ (∀ cfg server, registry_keyed (SessionStore.initializeRedis cfg server w).2).
Proof.
  intros Hw. split; [|split; [|split]]; intros.
  - by apply registry_keyed_createSession.
  - by apply registry_keyed_updateSessionExpiry.
  - by apply registry_keyed_removeSession.
  - by apply registry_keyed_initializeRedis.
Qed.

(** X6, witness: the restart that reads the mirror left behind. *)
Lemma registry_stays_keyed_witness : registry_keyed restarted_world.
Proof.
  apply (proj2 (proj2 (proj2 (registry_stays_keyed fresh_world registry_keyed_fresh)))
           ten_slots (Some left_behind)).
Defined.

(** X4, witness: the restored session that has run out is swept. *)
Lemma sweep_removes_exactly_expired_witness :
  ∃ w', SessionStore.cleanupExpiredSessions stale_world = (Returned tt, w')
    ∧ (∀ k s, sessions w' !! k = Some s
              ↔ sessions stale_world !! k = Some s ∧ expiresAt s > clock stale_world)
    ∧ docker w' = docker stale_world ∧ trace w' = trace stale_world.
Proof.
  apply sweep_removes_exactly_expired.
  exact (registry_keyed_initializeRedis ten_slots (Some left_behind) fresh_world
           registry_keyed_fresh).
Defined.

(** X5, witness: the timer of the running session, once its time is up. *)
Lemma timer_expiry_forgets_session_only_witness :
  ∃ b w', SessionStore.fireTimer 0 (set_clock 1300000 busy_world) = (Returned b, w')
    ∧ sessions w' !! "0" = None
    ∧ live (timers w') !! 0%nat = None
    ∧ docker w' = docker (set_clock 1300000 busy_world)
    ∧ trace w' = trace (set_clock 1300000 busy_world).
Proof.
  apply (timer_expiry_forgets_session_only (set_clock 1300000 busy_world) 0 "0" 1300000).
  - vm_compute. reflexivity.
  - vm_compute. discriminate.
Defined.

(* ===================================================================== *)
(** ** [parseMemoryLimit] *)
(* ===================================================================== *)

Lemma digit_of_pretty_N_char (d : N) :
  (d < 10)%N → DockerServiceRest.digit_of (pretty_N_char d) = Some (Z.of_N d).
Proof.
  intros Hd.
  assert (d = 0 ∨ d = 1 ∨ d = 2 ∨ d = 3 ∨ d = 4 ∨ d = 5 ∨ d = 6 ∨ d = 7
          ∨ d = 8 ∨ d = 9)%N as Hcases by lia.
  repeat (destruct Hcases as [->|Hcases]; [reflexivity|]). by subst.
Qed.

Lemma append_empty_r (s : string) : s +:+ "" = s.
Proof.
  induction s as [|c s IH]; [done|].
  change (String c s +:+ "") with (String c (s +:+ "")). by rewrite IH.
Qed.

Lemma pretty_N_go_app x s t : pretty_N_go x s +:+ t = pretty_N_go x (s +:+ t).
Proof.
  revert s. induction (N.lt_wf_0 x) as [x _ IH]; intros s.
  assert (x = 0 ∨ 0 < x)%N as [->|Hpos] by lia.
  - by rewrite !pretty_N_go_0.
  - rewrite (pretty_N_go_step x s), (pretty_N_go_step x (s +:+ t)) by done.
    rewrite IH by (by apply N.div_lt). reflexivity.
Qed.

(** The digits that [pretty_N_go] puts in front are read back as the
    number. *)
Lemma digits_prefix_pretty_N_go x s ds r :
  DockerServiceRest.digits_prefix s = (ds, r) →
  ∃ dx, DockerServiceRest.digits_prefix (pretty_N_go x s) = (dx ++ ds, r)
        ∧ (∀ acc, foldl (fun a d => 10 * a + d) acc dx
                  = acc * 10 ^ Z.of_nat (length dx) + Z.of_N x)
        ∧ ((0 < x)%N → dx ≠ []).
Proof.
  revert s ds. induction (N.lt_wf_0 x) as [x _ IH]; intros s ds Hs.
  assert (x = 0 ∨ 0 < x)%N as [->|Hpos] by lia.
  - exists []. rewrite pretty_N_go_0. split; [done|]. split; [|lia].
    intros acc. simpl. lia.
  - rewrite pretty_N_go_step by done.
    destruct (IH (x `div` 10)%N (N.div_lt x 10 Hpos eq_refl)
                (String (pretty_N_char (x `mod` 10)) s)
                (Z.of_N (x `mod` 10) :: ds))
      as (dx & Hdx & Hval & _).
    { simpl. rewrite digit_of_pretty_N_char by (apply N.mod_lt; lia). by rewrite Hs. }
    exists (dx ++ [Z.of_N (x `mod` 10)]). split; [by rewrite <- app_assoc|].
    split.
    + intros acc. rewrite foldl_app, Hval. simpl. rewrite length_app. simpl.
      rewrite Nat2Z.inj_add, Z.pow_add_r by lia.
      pose proof (N.div_mod x 10 ltac:(lia)) as Hx.
      rewrite Hx at 3. rewrite N2Z.inj_add, N2Z.inj_mul. simpl. lia.
    + intros _. by destruct dx.
Qed.

Lemma digits_prefix_pretty (n : N) (u : string) :
  DockerServiceRest.digits_prefix u = ([], u) →
  ∃ dx, DockerServiceRest.digits_prefix (pretty n +:+ u) = (dx, u)
        ∧ DockerServiceRest.decimal dx = Z.of_N n ∧ dx ≠ [].
Proof.
  intros Hu. unfold pretty, pretty_N. case_decide as Hn.
  - subst n. exists [0]. change ("0" +:+ u) with (String "0" u).
    cbn [DockerServiceRest.digits_prefix].
    change (DockerServiceRest.digit_of "0") with (Some 0). by rewrite Hu.
  - rewrite pretty_N_go_app. simpl.
    destruct (digits_prefix_pretty_N_go n u [] u Hu) as (dx & Hdx & Hval & Hne).
    exists dx. rewrite app_nil_r in Hdx. split; [done|]. split; [|apply Hne; lia].
    unfold DockerServiceRest.decimal. rewrite Hval. lia.
Qed.

(** A number below [2^53] times a power of two is a double. *)
Lemma to_double_exact (n k : Z) :
  0 <= n < 2 ^ 53 → 0 <= k <= 900 →
  DockerServiceRest.to_double (n * 2 ^ k) = DockerServiceRest.Finite (n * 2 ^ k).
Proof.
  intros Hn Hk. unfold DockerServiceRest.to_double. cbv zeta.
  case_decide as Hsmall; [done|].
  assert (Hpow : 0 < 2 ^ k) by (apply Z.pow_pos_nonneg; lia).
  assert (Hm : 2 ^ 53 <= n * 2 ^ k) by lia.
  assert (Hpos : 0 < n * 2 ^ k) by lia.
  assert (Hlo : 53 <= Z.log2 (n * 2 ^ k)) by (apply Z.log2_le_pow2; lia).
  assert (Hhi : Z.log2 (n * 2 ^ k) < 53 + k).
  { apply Z.log2_lt_pow2; [lia|]. rewrite Z.pow_add_r by lia. nia. }
  set (e := Z.log2 (n * 2 ^ k) - 52).
  assert (He : 1 <= e <= k) by (unfold e; lia).
  assert (Hsplit : n * 2 ^ k = n * 2 ^ (k - e) * 2 ^ e).
  { rewrite <- Z.mul_assoc, <- Z.pow_add_r by lia. do 2 f_equal. lia. }
  assert (Hpe : 0 < 2 ^ e) by (apply Z.pow_pos_nonneg; lia).
  assert (Hmod : (n * 2 ^ k) mod 2 ^ e = 0) by (rewrite Hsplit; apply Z.mod_mul; lia).
  assert (Hdiv : n * 2 ^ k / 2 ^ e = n * 2 ^ (k - e))
    by (rewrite Hsplit; apply Z.div_mul; lia).
  assert (Hhalf : 0 < 2 ^ (e - 1)) by (apply Z.pow_pos_nonneg; lia).
  rewrite Hmod, Hdiv. rewrite (decide_True (P := 0 < 2 ^ (e - 1))) by done.
  rewrite <- Hsplit. rewrite decide_True; [done|].
  assert (2 ^ k <= 2 ^ 900) by (apply Z.pow_le_mono_r; lia).
  assert (2 ^ 53 * 2 ^ 900 < 2 ^ 1024) by (rewrite <- Z.pow_add_r by lia; by apply Z.pow_lt_mono_r).
  nia.
Qed.

(** What [to_double] gives is not negative. *)
Lemma to_double_nonneg (n v : Z) :
  0 <= n → DockerServiceRest.to_double n = DockerServiceRest.Finite v → 0 <= v.
Proof.
  intros Hn. unfold DockerServiceRest.to_double. cbv zeta.
  case_decide as Hsmall; [by intros [= <-]|].
  assert (Hlo : 53 <= Z.log2 n) by (apply Z.log2_le_pow2; lia).
  set (e := Z.log2 n - 52).
  assert (Hpe : 0 < 2 ^ e) by (apply Z.pow_pos_nonneg; unfold e; lia).
  assert (Hq : 0 <= n / 2 ^ e) by (apply Z.div_pos; lia).
  repeat case_decide; try destruct (Z.even _); intros [= <-]; nia.
Qed.

(** X7. [parseMemoryLimit] reads back the decimal writing of a number
    below [2^53], alone or followed by one unit letter in either case,
    exactly: the result is the number times 1, 1024, 1024^2 or 1024^3.
    (Above [2^53] the result is the nearest double.)  What it accepts
    begins with a digit (so neither the empty string, a sign, nor a
    space) and gives a result that is not negative. *)
Theorem parseMemoryLimit_reads_decimal :
  (∀ n : N, Z.of_N n < 2 ^ 53 →
      DockerServiceRest.parseMemoryLimit (pretty n)
      = Some (DockerServiceRest.Finite (Z.of_N n))
      ∧ DockerServiceRest.parseMemoryLimit (pretty n +:+ "b")
        = Some (DockerServiceRest.Finite (Z.of_N n))
      ∧ DockerServiceRest.parseMemoryLimit (pretty n +:+ "k")
        = Some (DockerServiceRest.Finite (Z.of_N n * 1024))
      ∧ DockerServiceRest.parseMemoryLimit (pretty n +:+ "m")
        = Some (DockerServiceRest.Finite (Z.of_N n * (1024 * 1024)))
      ∧ DockerServiceRest.parseMemoryLimit (pretty n +:+ "g")
        = Some (DockerServiceRest.Finite (Z.of_N n * (1024 * 1024 * 1024)))
      ∧ DockerServiceRest.parseMemoryLimit (pretty n +:+ "B")
        = DockerServiceRest.parseMemoryLimit (pretty n +:+ "b")
      ∧ DockerServiceRest.parseMemoryLimit (pretty n +:+ "K")
        = DockerServiceRest.parseMemoryLimit (pretty n +:+ "k")
      ∧ DockerServiceRest.parseMemoryLimit (pretty n +:+ "M")
        = DockerServiceRest.parseMemoryLimit (pretty n +:+ "m")
      ∧ DockerServiceRest.parseMemoryLimit (pretty n +:+ "G")
        = DockerServiceRest.parseMemoryLimit (pretty n +:+ "g"))
  ∧ (∀ s x, DockerServiceRest.parseMemoryLimit s = Some x →
      (∀ v, x = DockerServiceRest.Finite v → 0 <= v)
      ∧ ∃ c rest, s = String c rest
                  ∧ is_Some (DockerServiceRest.digit_of c)).
Proof.
  split.
  - intros n Hn.
    assert (Hexact : ∀ k, 0 <= k <= 900 →
      DockerServiceRest.times (DockerServiceRest.to_double (Z.of_N n)) (2 ^ k)
      = DockerServiceRest.Finite (Z.of_N n * 2 ^ k)).
    { intros k Hk.
      replace (DockerServiceRest.to_double (Z.of_N n))
        with (DockerServiceRest.Finite (Z.of_N n)).
      - simpl. apply to_double_exact; lia.
      - symmetry. rewrite <- (Z.mul_1_r (Z.of_N n)) at 1.
        change 1 with (2 ^ 0) at 1. rewrite to_double_exact by lia.
        f_equal. simpl. lia. }
    assert (Hunit : ∀ u, DockerServiceRest.digits_prefix u = ([], u) →
      ∃ dx d0, DockerServiceRest.digits_prefix (pretty n +:+ u) = (d0 :: dx, u)
               ∧ DockerServiceRest.parseInt10 (d0 :: dx)
                 = DockerServiceRest.to_double (Z.of_N n)).
    { intros u Hu. destruct (digits_prefix_pretty n u Hu) as ([|d0 dx] & ? & Hd & ?);
        [done|]. exists dx, d0. split; [done|].
      unfold DockerServiceRest.parseInt10. by rewrite Hd. }
    assert (Hplain : DockerServiceRest.parseMemoryLimit (pretty n)
                     = Some (DockerServiceRest.Finite (Z.of_N n))).
    { destruct (Hunit "" eq_refl) as (dx & d0 & Hp & Hv).
      rewrite append_empty_r in Hp.
      unfold DockerServiceRest.parseMemoryLimit. rewrite Hp, Hv.
      pose proof (Hexact 0 ltac:(lia)) as H0. change (2 ^ 0) with 1 in H0.
      rewrite H0. do 2 f_equal. lia. }
    split; [exact Hplain|].
    repeat split;
      match goal with
      | |- DockerServiceRest.parseMemoryLimit (_ +:+ ?u)
           = DockerServiceRest.parseMemoryLimit (_ +:+ ?u') =>
          destruct (Hunit u eq_refl) as (dx & d0 & Hp & Hv);
          destruct (Hunit u' eq_refl) as (dx' & d0' & Hp' & Hv');
          unfold DockerServiceRest.parseMemoryLimit; rewrite Hp, Hp', Hv, Hv';
          reflexivity
      | |- DockerServiceRest.parseMemoryLimit (_ +:+ ?u) = Some _ =>
          destruct (Hunit u eq_refl) as (dx & d0 & Hp & Hv);
          unfold DockerServiceRest.parseMemoryLimit; rewrite Hp, Hv
      end.
    + pose proof (Hexact 0 ltac:(lia)) as H0. change (2 ^ 0) with 1 in H0.
      change (DockerServiceRest.unit_of "b") with (Some 1).
      cbv beta iota. rewrite H0. do 2 f_equal. lia.
    + pose proof (Hexact 10 ltac:(lia)) as H0. change (2 ^ 10) with 1024 in H0.
      change (DockerServiceRest.unit_of "k") with (Some 1024).
      cbv beta iota. by rewrite H0.
    + pose proof (Hexact 20 ltac:(lia)) as H0.
      change (2 ^ 20) with (1024 * 1024) in H0.
      change (DockerServiceRest.unit_of "m") with (Some (1024 * 1024)).
      cbv beta iota. by rewrite H0.
    + pose proof (Hexact 30 ltac:(lia)) as H0.
      change (2 ^ 30) with (1024 * 1024 * 1024) in H0.
      change (DockerServiceRest.unit_of "g") with (Some (1024 * 1024 * 1024)).
      cbv beta iota. by rewrite H0.
  - intros s x Hs.
    assert (Hnonneg : ∀ s ds r, DockerServiceRest.digits_prefix s = (ds, r) →
               Forall (fun d => 0 <= d) ds).
    { clear. induction s as [|c s IH]; intros ds r; simpl.
      - intros [= <- <-]. constructor.
      - unfold DockerServiceRest.digit_of at 1.
        case_decide as Hc; [|intros [= <- <-]; constructor].
        destruct (DockerServiceRest.digits_prefix s) as [ds' r'] eqn:Hs.
        intros [= <- <-]. constructor; [lia | by eapply IH]. }
    assert (Hval : ∀ ds, Forall (fun d => 0 <= d) ds →
               ∀ acc, 0 <= acc → 0 <= foldl (fun a d => 10 * a + d) acc ds).
    { clear. induction 1 as [|d ds Hd _ IH]; intros acc Hacc; simpl; [done|].
      apply IH. lia. }
    assert (Htimes : ∀ n f v, 0 <= n → 0 < f →
               DockerServiceRest.times (DockerServiceRest.to_double n) f
               = DockerServiceRest.Finite v → 0 <= v).
    { clear. intros n f v Hn Hf.
      destruct (DockerServiceRest.to_double n) as [v0|] eqn:Hv0; [|done].
      simpl. apply to_double_nonneg. apply to_double_nonneg in Hv0; [nia|done]. }
    unfold DockerServiceRest.parseMemoryLimit in Hs.
    destruct (DockerServiceRest.digits_prefix s) as [ds r] eqn:Hp.
    pose proof (Hval ds (Hnonneg _ _ _ Hp) 0 ltac:(lia)) as Hpos.
    fold (DockerServiceRest.decimal ds) in Hpos.
    destruct ds as [|d ds]; [done|].
    split.
    + intros v ->. unfold DockerServiceRest.parseInt10 in Hs.
      destruct r as [|u [|]]; [| |done].
      * injection Hs as Hs. by apply Htimes in Hs.
      * unfold DockerServiceRest.unit_of in Hs.
        repeat case_decide; simplify_eq;
          match goal with H : DockerServiceRest.times _ _ = _ |- _ =>
            apply Htimes in H; [done|done|lia] end.
    + destruct s as [|c rest]; [done|]. exists c, rest. split; [done|].
      simpl in Hp. destruct (DockerServiceRest.digit_of c); [eauto|done].
Qed.

(** X7, witness: the default limit of the configuration. *)
Lemma parseMemoryLimit_reads_decimal_witness :
  DockerServiceRest.parseMemoryLimit (pretty 2%N +:+ "g")
  = Some (DockerServiceRest.Finite (Z.of_N 2 * (1024 * 1024 * 1024))).
Proof.
  apply (proj1 parseMemoryLimit_reads_decimal 2%N). reflexivity.
Defined.

(** Some of what [parseMemoryLimit] throws on, and a number that is no
    double. *)
Lemma parseMemoryLimit_rejects :
  DockerServiceRest.parseMemoryLimit "" = None
  ∧ DockerServiceRest.parseMemoryLimit "g" = None
  ∧ DockerServiceRest.parseMemoryLimit "2gb" = None
  ∧ DockerServiceRest.parseMemoryLimit "1.5g" = None
  ∧ DockerServiceRest.parseMemoryLimit "-1" = None
  ∧ DockerServiceRest.parseMemoryLimit "2 g" = None
  ∧ DockerServiceRest.parseMemoryLimit "2t" = None
  ∧ DockerServiceRest.parseMemoryLimit "9007199254740993"
    = Some (DockerServiceRest.Finite 9007199254740992).
Proof. vm_compute. repeat split; reflexivity. Qed.

(* ===================================================================== *)
(** ** Stopping a container *)
(* ===================================================================== *)

Lemma find_container_drop_same cId cs :
  DockerService.find_container cId (DockerService.drop_container cId cs) = None.
Proof.
  unfold DockerService.find_container, DockerService.drop_container.
  induction cs as [|c cs IH]; [done|].
  rewrite filter_cons. case_decide as Hc; [|done].
  simpl. by rewrite bool_decide_eq_false_2.
Qed.

Lemma find_container_drop_other cId other cs :
  other ≠ cId →
  DockerService.find_container other (DockerService.drop_container cId cs)
  = DockerService.find_container other cs.
Proof.
  intros Hne. unfold DockerService.find_container, DockerService.drop_container.
  induction cs as [|c cs IH]; [done|].
  rewrite filter_cons. case_decide as Hc; simpl.
  - by rewrite IH.
  - rewrite bool_decide_eq_false_2; [done|]. intros Heq. apply Hne.
    destruct (decide (cid c = cId)); [congruence | done].
Qed.

Lemma find_container_update_other cId other f cs :
  (∀ c, cid (f c) = cid c) → other ≠ cId →
  DockerService.find_container other (DockerService.update_container cId f cs)
  = DockerService.find_container other cs.
Proof.
  intros Hf Hne. unfold DockerService.find_container, DockerService.update_container.
  induction cs as [|c cs IH]; [done|].
  rewrite fmap_cons. cbn [List.find]. rewrite IH.
  destruct (decide (cid c = cId)) as [Hc|Hc]; [|done].
  rewrite Hf. rewrite !bool_decide_eq_false_2 by congruence. done.
Qed.

Lemma container_stop_eq cId w :
  DockerService.container_stop cId w
  = if stopFails (docker w)
    then (Thrown (RuntimeError "stop"), set_trace (trace w ++ [EvStop cId]) w)
    else (Returned tt,
          set_docker
            (DockerService.set_containers
               (DockerService.update_container cId
                  (fun c => mkContainer (cid c) exited (labelled c) (published c))
                  (containers (docker w))) (docker w))
            (set_trace (trace w ++ [EvStop cId]) w)).
Proof.
  unfold DockerService.container_stop, DockerService.modify_docker, emit.
  unfold_js. simpl. by destruct (stopFails (docker w)).
Qed.

Lemma container_remove_eq cId w :
  DockerService.container_remove cId w
  = if removeFails (docker w)
    then (Thrown (RuntimeError "remove"), set_trace (trace w ++ [EvRemove cId]) w)
    else match DockerService.find_container cId (containers (docker w)) with
         | None => (Thrown (RuntimeError "no such container"),
                    set_trace (trace w ++ [EvRemove cId]) w)
         | Some _ =>
             (Returned tt,
              set_docker
                (DockerService.set_containers
                   (DockerService.drop_container cId (containers (docker w)))
                   (docker w))
                (set_trace (trace w ++ [EvRemove cId]) w))
         end.
Proof.
  unfold DockerService.container_remove, DockerService.modify_docker, emit.
  unfold_js. simpl. destruct (removeFails (docker w)); [done|].
  by destruct (DockerService.find_container cId (containers (docker w))).
Qed.

(** X8. [stopContainer] never throws.  When it returns [true] the named
    container is gone from the runtime; it returns [true] whenever the
    container exists and the runtime accepts the stop and the removal; for
    a container that does not exist it returns [false] after the one
    inspection and changes nothing in the runtime.  Containers with
    another id are never touched. *)
Theorem stopContainer_named_only (w : World) (cId : string) :
  ∃ b w', DockerService.stopContainer cId w = (Returned b, w')
    ∧ (b = true → DockerService.find_container cId (containers (docker w')) = None)
    ∧ (stopFails (docker w) = false → removeFails (docker w) = false →
       is_Some (DockerService.find_container cId (containers (docker w))) → b = true)
    ∧ (DockerService.find_container cId (containers (docker w)) = None →
       b = false ∧ docker w' = docker w
       ∧ trace w' = trace w ++ [EvStopContainer cId; EvInspect cId])
    ∧ (∀ other, other ≠ cId →
         DockerService.find_container other (containers (docker w'))
         = DockerService.find_container other (containers (docker w))).
Proof.
  unfold DockerService.stopContainer, emit.
  unfold mbind at 1, M_bind at 1, bind at 1, modify. unfold try_catch.
  unfold mbind at 1, M_bind at 1, bind at 1. rewrite inspect_eq. simpl.
  destruct (DockerService.find_container cId (containers (docker w))) as [c|] eqn:Hc.
  2: { eexists _, _. split; [reflexivity|]. simpl.
       split; [done|]. split; [by intros _ _ [? ?]|]. split; [|done].
       intros _. by rewrite <- app_assoc. }
  unfold mbind, M_bind, bind. 
  destruct (decide (cstate c = running)) as [Hrun|Hrun].
  - rewrite container_stop_eq. simpl.
    destruct (stopFails (docker w)) eqn:Hstop.
    + eexists _, _. split; [reflexivity|]. simpl. repeat split; done.
    + rewrite container_remove_eq. simpl.
      destruct (removeFails (docker w)) eqn:Hrem.
      * eexists _, _. split; [reflexivity|]. simpl.
        split; [done|]. split; [done|]. split; [done|].
        intros other Hne. by apply find_container_update_other.
      * destruct (DockerService.find_container cId
                    (DockerService.update_container cId _ (containers (docker w))))
          eqn:Hfind.
        -- eexists _, _. split; [reflexivity|]. simpl.
           split; [intros _; apply find_container_drop_same|].
           split; [done|]. split; [done|].
           intros other Hne. rewrite find_container_drop_other by done.
           by apply find_container_update_other.
        -- exfalso.
           assert (is_Some (DockerService.find_container cId
                     (DockerService.update_container cId
                        (fun c => mkContainer (cid c) exited (labelled c) (published c))
                        (containers (docker w))))) as [? Hsome].
           { apply find_container_update; [done|]. rewrite Hc. eauto. }
           congruence.
  - unfold ret at 1. rewrite container_remove_eq. simpl. rewrite Hc.
    destruct (removeFails (docker w)) eqn:Hrem.
    + eexists _, _. split; [reflexivity|]. simpl. repeat split; done.
    + eexists _, _. split; [reflexivity|]. simpl.
      split; [intros _; apply find_container_drop_same|].
      split; [done|]. split; [done|].
      intros other Hne. by apply find_container_drop_other.
Qed.

(** X8, witness: the container of the running session. *)
Lemma stopContainer_named_only_witness :
  ∃ b w', DockerService.stopContainer "0" busy_world = (Returned b, w')
    ∧ b = true
    ∧ DockerService.find_container "0" (containers (docker w')) = None.
Proof.
  destruct (stopContainer_named_only busy_world "0")
    as (b & w' & Hrun & Hgone & Htrue & _).
  assert (Hb : b = true).
  { apply Htrue; [vm_compute; reflexivity | vm_compute; reflexivity |].
    vm_compute. eexists. reflexivity. }
  exists b, w'. split; [exact Hrun|]. split; [exact Hb | exact (Hgone Hb)].
Defined.

(* ===================================================================== *)
(** ** Sweeping orphaned containers *)
(* ===================================================================== *)

#[global] Instance registry_same_preorder : PreOrder registry_same.
Proof.
  split.
  - intros w. by repeat split.
  - intros w1 w2 w3 (?&?&?&?) (?&?&?&?). repeat split; congruence.
Qed.

Lemma registry_same_emit e : keeps registry_same (emit e).
Proof. apply keeps_modify. intros w. by repeat split. Qed.

Lemma registry_same_docker f : keeps registry_same (DockerService.modify_docker f).
Proof. apply keeps_modify. intros w. by repeat split. Qed.

#[export] Hint Resolve registry_same_emit registry_same_docker : frames.

Lemma registry_same_listContainers all :
  keeps registry_same (DockerService.listContainers all).
Proof. unfold DockerService.listContainers. frames. Qed.

Lemma registry_same_container_remove cId :
  keeps registry_same (DockerService.container_remove cId).
Proof.
  unfold DockerService.container_remove. frames.
  match goal with |- context [match ?x with _ => _ end] => destruct x end; frames.
Qed.

Lemma registry_same_container_stop cId :
  keeps registry_same (DockerService.container_stop cId).
Proof. unfold DockerService.container_stop. frames. Qed.

Lemma registry_same_inspect cId : keeps registry_same (DockerService.inspect cId).
Proof. unfold DockerService.inspect. frames. Qed.

#[export] Hint Resolve registry_same_listContainers registry_same_container_remove
  registry_same_container_stop registry_same_inspect : frames.

Lemma registry_same_cleanupLoop listing n :
  keeps registry_same (DockerServiceRest.cleanupLoop listing n).
Proof. revert n. induction listing as [|c l IH]; intros n; simpl; frames. Qed.

#[export] Hint Resolve registry_same_cleanupLoop : frames.

Lemma registry_same_cleanupOrphanedContainers :
  keeps registry_same DockerServiceRest.cleanupOrphanedContainers.
Proof. unfold DockerServiceRest.cleanupOrphanedContainers. frames. Qed.

(** The loop never throws: each turn catches its own error. *)
Lemma cleanupLoop_returns listing n w :
  ∃ m, (DockerServiceRest.cleanupLoop listing n w).1 = Returned m.
Proof.
  revert n w. induction listing as [|c l IH]; intros n w; simpl; [by eexists|].
  unfold mbind, M_bind, bind, try_catch.
  destruct (decide (cstate c = exited ∨ cstate c = dead)).
  - rewrite container_remove_eq.
    destruct (removeFails (docker w)); simpl; [apply IH|].
    destruct (DockerService.find_container (cid c) (containers (docker w)));
      simpl; apply IH.
  - simpl. apply IH.
Qed.

Lemma filter_ext_in {A} (P Q : A → Prop) `{!∀ x, Decision (P x), !∀ x, Decision (Q x)}
    (l : list A) :
  (∀ x, x ∈ l → P x ↔ Q x) → filter P l = filter Q l.
Proof.
  induction l as [|a l IH]; intros Hext; [done|].
  rewrite !filter_cons.
  rewrite IH by (intros x Hx; apply Hext; by apply list_elem_of_further).
  destruct (decide (P a)) as [HP|HP]; destruct (decide (Q a)) as [HQ|HQ]; try done;
    exfalso; pose proof (Hext a (list_elem_of_here _ _)); tauto.
Qed.

Lemma NoDup_fmap_eq {A B} (f : A → B) (l : list A) x y :
  NoDup (f <$> l) → x ∈ l → y ∈ l → f x = f y → x = y.
Proof.
  induction l as [|a l IH]; intros Hnd Hx Hy Hf; [by apply elem_of_nil in Hx|].
  rewrite fmap_cons in Hnd. apply NoDup_cons in Hnd as [Ha Hnd].
  apply elem_of_cons in Hx as [->|Hx]; apply elem_of_cons in Hy as [->|Hy].
  - done.
  - exfalso. apply Ha. rewrite Hf. by apply list_elem_of_fmap_2.
  - exfalso. apply Ha. rewrite <- Hf. by apply list_elem_of_fmap_2.
  - by apply IH.
Qed.

(** The loop on a listing with distinct ids whose containers still exist,
    when removals are accepted. *)
Lemma cleanupLoop_spec listing :
  NoDup (cid <$> listing) → ∀ n w,
  removeFails (docker w) = false →
  (∀ c, c ∈ listing →
        is_Some (DockerService.find_container (cid c) (containers (docker w)))) →
  ∃ w', DockerServiceRest.cleanupLoop listing n w
          = (Returned (n + Z.of_nat (length
               (filter (fun c => cstate c = exited ∨ cstate c = dead) listing))), w')
    ∧ containers (docker w')
      = filter (fun c => cid c ∉ cid <$> filter
                  (fun c => cstate c = exited ∨ cstate c = dead) listing)
          (containers (docker w)).
Proof.
  induction listing as [|c l IH]; intros Hnd n w Hrem Hex.
  - exists w. simpl. split; [by rewrite Z.add_0_r|].
    clear. induction (containers (docker w)) as [|a cs IHcs]; [done|].
    rewrite filter_cons_True by apply not_elem_of_nil. by f_equal.
  - rewrite fmap_cons in Hnd. apply NoDup_cons in Hnd as [Hc Hnd].
    cbn [DockerServiceRest.cleanupLoop]. unfold mbind at 1, M_bind at 1, bind at 1.
    unfold try_catch.
    destruct (decide (cstate c = exited ∨ cstate c = dead)) as [Hstate|Hstate].
    + unfold mbind at 1, M_bind at 1, bind at 1. rewrite container_remove_eq, Hrem.
      destruct (Hex c (list_elem_of_here _ _)) as [c0 Hc0]. rewrite Hc0.
      unfold ret at 1.
      match goal with
      | |- context [DockerServiceRest.cleanupLoop l _ ?w1] =>
          destruct (IH Hnd (n + 1) w1) as (w' & -> & Hcs)
      end.
      { done. }
      { intros c' Hc'. simpl. rewrite find_container_drop_other.
        - apply Hex. by apply list_elem_of_further.
        - intros Heq. apply Hc. rewrite <- Heq. by apply list_elem_of_fmap_2. }
      exists w'. rewrite filter_cons_True by done. split.
      * f_equal. f_equal. simpl. lia.
      * rewrite Hcs. simpl. unfold DockerService.drop_container.
        rewrite list_filter_filter. apply list_filter_iff. intros x.
        rewrite ?fmap_cons, not_elem_of_cons. tauto.
    + unfold ret at 1.
      destruct (IH Hnd n w Hrem) as (w' & -> & Hcs).
      { intros c' Hc'. apply Hex. by apply list_elem_of_further. }
      exists w'. rewrite filter_cons_False by done. done.
Qed.

(** X9. [cleanupOrphanedContainers], which is all that
    [SessionManager.cleanupExpiredSessions] does, never throws and leaves
    the registry, the mirror and the timers alone.  With a runtime that lists and
    removes, and no two containers sharing an id, it removes exactly the
    labelled containers that are exited or dead and returns their number;
    running and created containers and containers without the label stay.
    When the listing fails it returns 0 and the runtime is as before. *)
Theorem cleanupOrphanedContainers_sweeps (w : World) :
  SessionManagerRest.cleanupExpiredSessions w
    = DockerServiceRest.cleanupOrphanedContainers w
  ∧ (∃ n, (DockerServiceRest.cleanupOrphanedContainers w).1 = Returned n)
  ∧ registry_same w (DockerServiceRest.cleanupOrphanedContainers w).2
  ∧ (listFails (docker w) = false → removeFails (docker w) = false →
     distinct_ids (docker w) →
     ∃ w', DockerServiceRest.cleanupOrphanedContainers w
             = (Returned (Z.of_nat (length
                  (filter DockerServiceRest.orphaned (containers (docker w))))), w')
       ∧ containers (docker w')
         = filter (fun c => ¬ DockerServiceRest.orphaned c) (containers (docker w)))
  ∧ (listFails (docker w) = true →
     ∃ w', DockerServiceRest.cleanupOrphanedContainers w = (Returned 0, w')
           ∧ docker w' = docker w).
Proof.
  assert (Hret : ∃ n, (DockerServiceRest.cleanupOrphanedContainers w).1 = Returned n).
  { unfold DockerServiceRest.cleanupOrphanedContainers, try_catch.
    unfold mbind, M_bind, bind.
    destruct (DockerService.listContainers true w) as [[listing|e] w1]; [|by eexists].
    destruct (cleanupLoop_returns listing 0 w1) as [m Hm].
    destruct (DockerServiceRest.cleanupLoop listing 0 w1) as [[?|?] ?];
      simpl in *; [by eexists | done]. }
  split; [|split; [|split; [|split]]].
  - unfold SessionManagerRest.cleanupExpiredSessions, try_catch, mbind, M_bind, bind.
    destruct Hret as [n Hn].
    destruct (DockerServiceRest.cleanupOrphanedContainers w) as [[?|?] ?];
      simpl in *; [done | discriminate].
  - exact Hret.
  - apply registry_same_cleanupOrphanedContainers.
  - intros Hlist Hrem Hids.
    unfold DockerServiceRest.cleanupOrphanedContainers, try_catch.
    unfold mbind at 1, M_bind at 1, bind at 1.
    unfold DockerService.listContainers, emit. unfold_js. simpl. rewrite Hlist.
    set (listing := filter _ (containers (docker w))).
    destruct (cleanupLoop_spec listing) with (n := 0)
      (w := set_trace (trace w ++ [EvListContainers]) w) as (w' & -> & Hcs).
    { apply (sublist_NoDup _ (cid <$> containers (docker w))); [exact Hids|].
      apply fmap_sublist, sublist_filter. }
    { done. }
    { intros c Hc. simpl. apply list_elem_of_filter in Hc as [_ Hc].
      clear -Hc. unfold DockerService.find_container.
      induction Hc as [c cs|c c' cs Hc IH]; simpl.
      - rewrite bool_decide_eq_true_2 by done. eauto.
      - destruct (bool_decide (cid c' = cid c)); eauto. }
    exists w'. split.
    + f_equal. f_equal. rewrite Z.add_0_l. f_equal. f_equal. subst listing.
      rewrite list_filter_filter. apply list_filter_iff.
      intros c. unfold DockerServiceRest.orphaned. tauto.
    + rewrite Hcs. simpl. apply filter_ext_in. intros c Hc. split.
      * intros Hnot Horph. apply Hnot. apply list_elem_of_fmap_2.
        apply list_elem_of_filter. split; [apply Horph|].
        subst listing. apply list_elem_of_filter. split; [|done].
        split; [apply Horph | by left].
      * intros Hnot Hin. apply Hnot.
        apply list_elem_of_fmap in Hin as (c' & Heq & Hc').
        apply list_elem_of_filter in Hc' as [Hstate Hc'].
        subst listing. apply list_elem_of_filter in Hc' as [[Hlab _] Hc'].
        assert (c = c') as -> by (by apply (NoDup_fmap_eq cid (containers (docker w)))).
        by split.
  - intros Hlist.
    unfold DockerServiceRest.cleanupOrphanedContainers, try_catch.
    unfold mbind at 1, M_bind at 1, bind at 1.
    unfold DockerService.listContainers, emit. unfold_js. simpl. rewrite Hlist.
    eexists. split; reflexivity.
Qed.

(** X9, witness: of five containers the two labelled ones that have exited
    or died are removed. *)
Lemma cleanupOrphanedContainers_sweeps_witness :
  ∃ w', DockerServiceRest.cleanupOrphanedContainers littered_world = (Returned 2, w')
    ∧ cid <$> containers (docker w') = ["a"; "d"; "e"].
Proof.
  destruct (cleanupOrphanedContainers_sweeps littered_world)
    as (_ & _ & _ & Hsweep & _).
  destruct Hsweep as (w' & Hrun & Hcs).
  - reflexivity.
  - reflexivity.
  - unfold distinct_ids. apply (bool_decide_unpack _). vm_compute. exact I.
  - exists w'. split; [exact Hrun|]. rewrite Hcs. vm_compute. reflexivity.
Defined.

(* ===================================================================== *)
(** ** Waiting for the host port *)
(* ===================================================================== *)

(** Polling a container whose port is not bound: the loop gives up with 0
    at the first test after the timeout. *)
Lemma waitLoop_no_port fuel start timeoutMs cId w c :
  DockerService.find_container cId (containers (docker w)) = Some c →
  published c <= 0 →
  timeoutMs - (clock w - start) <= 100 * (Z.of_nat fuel - 1) →
  ∃ w', DockerService.waitLoop fuel start timeoutMs cId w = (Returned 0, w')
    ∧ docker w' = docker w ∧ sessions w' = sessions w
    ∧ (if decide (clock w - start < timeoutMs)
       then timeoutMs <= clock w' - start
       else clock w' = clock w).
Proof.
  revert w. induction fuel as [|f IH]; intros w Hc Hport Hfuel.
  - exists w. simpl. repeat split. case_decide; [lia | done].
  - simpl. unfold mbind, M_bind, bind, get. case_decide as Hin.
    + rewrite inspect_eq, Hc. case_decide; [lia|]. rewrite sleep_eq; try change (timer_delay 100) with 100.
      match goal with
      | |- context [DockerService.waitLoop f _ _ _ ?w1] =>
          destruct (IH w1) as (w' & -> & Hd & Hs & Hclock)
      end.
      { done. }
      { done. }
      { simpl. lia. }
      exists w'. split; [done|]. split; [done|]. split; [done|].
      simpl in Hclock. case_decide; lia.
    + exists w. repeat split.
Qed.

(** X10. [waitForHostPort] on an existing container never throws and does
    not change the runtime.  With a positive timeout it returns the bound
    port after a single inspection when the port is already bound, and 0
    otherwise, and then not before the timeout has passed; with a timeout
    that is not positive it returns 0 without inspecting.  If the
    container does not exist the first inspection throws. *)
Theorem waitForHostPort_bounded (w : World) (cId : string) (timeoutMs : Z) :
  (∀ c, DockerService.find_container cId (containers (docker w)) = Some c →
        0 < timeoutMs → 0 < published c →
        DockerService.waitForHostPort cId timeoutMs w
        = (Returned (published c), set_trace (trace w ++ [EvInspect cId]) w))
  ∧ (∀ c, DockerService.find_container cId (containers (docker w)) = Some c →
          0 < timeoutMs → published c <= 0 →
          ∃ w', DockerService.waitForHostPort cId timeoutMs w = (Returned 0, w')
                ∧ docker w' = docker w ∧ sessions w' = sessions w
                ∧ timeoutMs <= clock w' - clock w)
  ∧ (timeoutMs <= 0 →
     DockerService.waitForHostPort cId timeoutMs w = (Returned 0, w))
  ∧ (DockerService.find_container cId (containers (docker w)) = None →
     0 < timeoutMs →
     DockerService.waitForHostPort cId timeoutMs w
     = (Thrown (RuntimeError "no such container"),
        set_trace (trace w ++ [EvInspect cId]) w)).
Proof.
  assert (Hfuel : ∃ f, (Z.to_nat (timeoutMs / 100) + 2 = S f)%nat) by (exists (Z.to_nat (timeoutMs / 100) + 1)%nat; lia).
  destruct Hfuel as [f Hf].
  split; [|split; [|split]].
  - intros c Hc Hpos Hport.
    unfold DockerService.waitForHostPort, mbind, M_bind, bind, get. rewrite Hf.
    simpl. unfold mbind, M_bind, bind, get.
    case_decide; [|lia]. rewrite inspect_eq, Hc. by case_decide; [|lia].
  - intros c Hc Hpos Hport.
    unfold DockerService.waitForHostPort, mbind at 1, M_bind at 1, bind at 1, get.
    destruct (waitLoop_no_port (Z.to_nat (timeoutMs / 100) + 2) (clock w) timeoutMs
                cId w c Hc Hport) as (w' & -> & Hd & Hs & Hclock).
    { pose proof (Z.mod_pos_bound timeoutMs 100 ltac:(lia)).
      pose proof (Z.div_mod timeoutMs 100 ltac:(lia)).
      assert (0 <= timeoutMs / 100) by (apply Z.div_pos; lia). lia. }
    exists w'. split; [done|]. split; [done|]. split; [done|].
    case_decide; lia.
  - intros Hneg.
    unfold DockerService.waitForHostPort, mbind, M_bind, bind, get. rewrite Hf.
    simpl. unfold mbind, M_bind, bind, get. case_decide; [lia|done].
  - intros Hc Hpos.
    unfold DockerService.waitForHostPort, mbind, M_bind, bind, get. rewrite Hf.
    simpl. unfold mbind, M_bind, bind, get.
    case_decide; [|lia]. by rewrite inspect_eq, Hc.
Qed.

(** X10, witness: the container that never gets a port, and the one that
    has it. *)
Lemma waitForHostPort_bounded_witness :
  (∃ w', DockerService.waitForHostPort "0" 5000 unrouted_world = (Returned 0, w')
         ∧ docker w' = docker unrouted_world ∧ sessions w' = sessions unrouted_world
         ∧ 5000 <= clock w' - clock unrouted_world)
  ∧ DockerService.waitForHostPort "0" 5000 busy_world
    = (Returned 32768, set_trace (trace busy_world ++ [EvInspect "0"]) busy_world).
Proof.
  split.
  - apply (proj1 (proj2 (waitForHostPort_bounded unrouted_world "0" 5000))
             (mkContainer "0" running true 0)).
    + vm_compute. reflexivity.
    + reflexivity.
    + discriminate.
  - apply (proj1 (waitForHostPort_bounded busy_world "0" 5000)
             (mkContainer "0" running true 32768)).
    + vm_compute. reflexivity.
    + reflexivity.
    + reflexivity.
Defined.

(* ===================================================================== *)
(** ** The start and remaining-time handlers *)
(* ===================================================================== *)

(** The text of the ceiling error has the words the handler looks for. *)
Lemma includes_ceiling_message n :
  includes "Maximum number of sessions" (error_message (MaxSessionsReached n)) = true.
Proof.
  unfold error_message. generalize (pretty n +:+ ") reached") as rest.
  intros rest. reflexivity.
Qed.

(** X11. The start handler never throws.  An invalid request is answered
    400 and changes nothing.  A valid request is answered 201 with the
    session exactly when [createSession] returns one; it is answered 429
    whenever [createSession] fails on either of its two ceiling tests, and
    in particular, with the registry at its ceiling, 429 with the ceiling
    text, without any call to the runtime and with nothing changed. *)
Theorem startSession_answers (cfg : Config) (durationMs : option Z)
    (uid : option string) (w : World) :
  (∀ errorsEmpty, ∃ r w',
      HandlersRest.startSession cfg errorsEmpty durationMs uid w = (Returned r, w')
      ∧ (HandlersRest.start_status r = 201 ↔
         errorsEmpty = true
         ∧ ∃ session, SessionManager.createSession cfg durationMs uid w
                      = (Returned session, w')
                      ∧ HandlersRest.start_data r = Some session))
  ∧ HandlersRest.startSession cfg false durationMs uid w
    = (Returned (HandlersRest.mkStart 400 false (Some "Validation failed") None), w)
  ∧ (∀ n w', SessionManager.createSession cfg durationMs uid w
             = (Thrown (MaxSessionsReached n), w') →
     HandlersRest.startSession cfg true durationMs uid w
     = (Returned (HandlersRest.mkStart 429 false
                    (Some (error_message (MaxSessionsReached n))) None), w'))
  ∧ (Z.of_nat (size (sessions w)) >= maxSessions cfg →
     HandlersRest.startSession cfg true durationMs uid w
     = (Returned (HandlersRest.mkStart 429 false
                    (Some (error_message (MaxSessionsReached (maxSessions cfg)))) None),
        w)).
Proof.
  split; [|split; [|split]].
  - intros [|]; unfold HandlersRest.startSession, try_catch; simpl.
    + unfold mbind, M_bind, bind.
      destruct (SessionManager.createSession cfg durationMs uid w) as [[session|e] w1].
      * eexists _, _. split; [reflexivity|]. simpl. split; [|done].
        intros _. split; [done|]. by exists session.
      * eexists _, _. split; [reflexivity|]. simpl. split.
        -- repeat case_match; discriminate.
        -- by intros (_ & ? & [=] & _).
    + eexists _, _. split; [reflexivity|]. simpl. split; [discriminate|].
      by intros [[=] _].
  - reflexivity.
  - intros n w' Hthrown.
    unfold HandlersRest.startSession, try_catch; simpl.
    unfold mbind, M_bind, bind. rewrite Hthrown. unfold ret.
    by rewrite includes_ceiling_message.
  - intros Hfull.
    unfold HandlersRest.startSession, try_catch; simpl.
    unfold mbind at 1, M_bind at 1, bind at 1.
    unfold SessionManager.createSession. rewrite try_catch_rethrow.
    unfold mbind at 1, M_bind at 1, bind at 1. rewrite admission_eq.
    case_decide; [|done]. unfold ret.
    by rewrite includes_ceiling_message.
Qed.

(** X11, witness: asking for a second session under a ceiling of one. *)
Lemma startSession_answers_witness :
  HandlersRest.startSession one_slot true None None busy_world
  = (Returned (HandlersRest.mkStart 429 false
                 (Some (error_message (MaxSessionsReached (maxSessions one_slot))))
                 None),
     busy_world).
Proof.
  apply (proj2 (proj2 (proj2 (startSession_answers one_slot None None busy_world)))).
  vm_compute. discriminate.
Defined.

(** X12. The remaining-time handler, on a valid request, always reports
    what [getRemainingTime] gives (the literal 0 of its not-found answer
    included); it answers 200 exactly when the session is registered and
    its expiry lies ahead, and then the time it reports is positive;
    otherwise it answers 404 and reports 0. *)
Theorem remaining_time_handler (w : World) (cId : string) :
  HandlersRest.time_remainingTimeMs (HandlersRest.getRemainingTime w true cId)
  = Some (SessionManager.getRemainingTime w cId)
  ∧ (HandlersRest.time_status (HandlersRest.getRemainingTime w true cId) = 200
     ∧ HandlersRest.time_success (HandlersRest.getRemainingTime w true cId) = true
     ∧ SessionManager.getRemainingTime w cId > 0
     ∨ HandlersRest.time_status (HandlersRest.getRemainingTime w true cId) = 404
       ∧ HandlersRest.time_success (HandlersRest.getRemainingTime w true cId) = false
       ∧ SessionManager.getRemainingTime w cId = 0)
  ∧ (HandlersRest.time_status (HandlersRest.getRemainingTime w true cId) = 200
     ↔ ∃ s, sessions w !! cId = Some s ∧ expiresAt s > clock w).
Proof.
  unfold HandlersRest.getRemainingTime, SessionManager.isSessionActive,
    SessionManager.getRemainingTime, SessionStore.isSessionActive,
    SessionStore.getRemainingTime.
  simpl. destruct (sessions w !! cId) as [s|]; simpl.
  - case_bool_decide; simpl.
    + split; [done|]. split; [left; repeat split; lia|].
      split; [by exists s|done].
    + split; [f_equal; lia|]. split; [right; repeat split; lia|].
      split; [discriminate|]. intros (s' & [= <-] & ?). lia.
  - split; [done|]. split; [by right|]. split; [discriminate|].
    by intros (? & [=] & _).
Qed.

(* ===================================================================== *)
(** ** A session from creation to teardown *)
(* ===================================================================== *)

#[global] Instance faults_same_preorder : PreOrder faults_same.
Proof.
  split.
  - intros w. by repeat split.
  - intros w1 w2 w3 (?&?&?) (?&?&?). repeat split; congruence.
Qed.

Lemma faults_same_emit e : keeps faults_same (emit e).
Proof. apply keeps_modify. intros w. by repeat split. Qed.

Lemma faults_same_clock (f : World → Z) :
  keeps faults_same (modify (fun w => set_clock (f w) w)).
Proof. apply keeps_modify. intros w. by repeat split. Qed.

Lemma faults_same_docker (f : Docker → Docker) :
  (∀ d, listFails (f d) = listFails d ∧ stopFails (f d) = stopFails d
        ∧ removeFails (f d) = removeFails d) →
  keeps faults_same (DockerService.modify_docker f).
Proof. intros Hf. apply keeps_modify. intros w. simpl. apply Hf. Qed.

#[export] Hint Resolve faults_same_emit faults_same_clock : frames.
#[export] Hint Extern 1 (keeps faults_same (DockerService.modify_docker _)) =>
  apply faults_same_docker; intros ?; simpl; repeat split : frames.

Lemma faults_same_sleep ms : keeps faults_same (sleep ms).
Proof. unfold sleep. frames. Qed.

Lemma faults_same_inspect cId : keeps faults_same (DockerService.inspect cId).
Proof. unfold DockerService.inspect. frames. Qed.

Lemma faults_same_container_start cId :
  keeps faults_same (DockerService.container_start cId).
Proof. unfold DockerService.container_start. frames. Qed.

#[export] Hint Resolve faults_same_sleep faults_same_inspect
  faults_same_container_start : frames.

Lemma faults_same_startAttempts remaining attempt cId :
  keeps faults_same (DockerService.startAttempts remaining attempt cId).
Proof.
  revert attempt. induction remaining as [|r IH]; intros attempt; simpl; frames.
Qed.

Lemma faults_same_waitLoop fuel start timeoutMs cId :
  keeps faults_same (DockerService.waitLoop fuel start timeoutMs cId).
Proof. induction fuel as [|f IH]; simpl; frames. Qed.

#[export] Hint Resolve faults_same_startAttempts faults_same_waitLoop : frames.

Lemma faults_same_startContainer cfg :
  keeps faults_same (DockerService.startContainer cfg).
Proof.
  unfold DockerService.startContainer, DockerService.capacityCheck,
    DockerService.getActiveContainersCount, DockerService.listContainers,
    DockerService.provision, DockerService.ensureImageExists,
    DockerService.imageInspect, DockerService.pull,
    DockerService.createContainer, DockerService.startContainerWithRetry,
    DockerService.waitForHostPort.
  frames.
Qed.

Lemma find_container_update_same cId f cs c :
  (∀ c, cid (f c) = cid c) →
  DockerService.find_container cId cs = Some c →
  DockerService.find_container cId (DockerService.update_container cId f cs)
  = Some (f c).
Proof.
  intros Hf. unfold DockerService.find_container, DockerService.update_container.
  induction cs as [|c0 cs IH]; [done|].
  rewrite fmap_cons. cbn [List.find].
  destruct (decide (cid c0 = cId)) as [Hc|Hc].
  - rewrite Hf. rewrite !bool_decide_eq_true_2 by done. by intros [= ->].
  - rewrite !bool_decide_eq_false_2 by done. apply IH.
Qed.

(** When the retry loop returns inside its budget, the container runs. *)
Lemma startAttempts_running remaining attempt cId w w' :
  Z.of_nat remaining + attempt = Z.of_nat DockerService.maxRetries + 1 →
  (0 < remaining)%nat →
  DockerService.startAttempts remaining attempt cId w = (Returned tt, w') →
  ∃ c, DockerService.find_container cId (containers (docker w')) = Some c
       ∧ cstate c = running.
Proof.
  revert attempt w. induction remaining as [|r IH]; intros attempt w Hsum Hpos;
    [lia|].
  cbn [DockerService.startAttempts]. unfold try_catch.
  rewrite container_start_eq.
  destruct (DockerService.start_ok cId (docker w)) eqn:Hok.
  - intros [= <-]. simpl. unfold DockerService.after_start. rewrite Hok. simpl.
    unfold DockerService.start_ok in Hok.
    apply andb_prop in Hok as [_ Hfound]. apply bool_decide_eq_true in Hfound.
    destruct Hfound as [c Hc].
    eexists. split; [by apply find_container_update_same|done].
  - case_decide as Hlast; [done|].
    unfold mbind, M_bind, bind. rewrite sleep_eq; try change (timer_delay 100) with 100.
    apply IH; unfold DockerService.maxRetries in *; lia.
Qed.

(** What [startContainer] hands back is a container of the runtime, and
    it runs. *)
Lemma startContainer_running cfg w ci w' :
  DockerService.startContainer cfg w = (Returned ci, w') →
  ∃ c, DockerService.find_container (info_id ci) (containers (docker w')) = Some c
       ∧ cstate c = running ∧ info_status ci = running.
Proof.
  unfold DockerService.startContainer. rewrite try_catch_rethrow.
  unfold mbind at 1, M_bind at 1, bind at 1.
  destruct (DockerService.capacityCheck cfg w) as [[[]|e0] w0]; [|done].
  unfold DockerService.provision.
  unfold mbind at 1, M_bind at 1, bind at 1.
  destruct (DockerService.ensureImageExists w0) as [[[]|e1] w1]; [|done].
  unfold mbind at 1, M_bind at 1, bind at 1.
  destruct (DockerService.createContainer w1) as [[cId|e2] w2]; [|done].
  unfold mbind at 1, M_bind at 1, bind at 1.
  destruct (DockerService.startContainerWithRetry cId w2) as [[[]|e3] w3] eqn:Hstart;
    [|done].
  apply startAttempts_running in Hstart as (c & Hc & Hrun);
    [|done|unfold DockerService.maxRetries; lia].
  unfold mbind at 1, M_bind at 1, bind at 1.
  unfold DockerService.waitForHostPort, mbind at 1, M_bind at 1, bind at 1, get.
  destruct (waitLoop_returns (Z.to_nat (5000 / 100) + 2) (clock w3) 5000 cId w3)
    as (port & w4 & -> & Hd & _); [by rewrite Hc|].
  unfold mbind, M_bind, bind. rewrite inspect_eq, Hd, Hc.
  intros [= <- <-]. simpl. rewrite Hd. eauto.
Qed.

(** [stopContainer] on a container that exists, with a runtime that
    accepts the stop and the removal. *)
Lemma stopContainer_removes cId w c :
  stopFails (docker w) = false → removeFails (docker w) = false →
  DockerService.find_container cId (containers (docker w)) = Some c →
  ∃ w', DockerService.stopContainer cId w = (Returned true, w')
    ∧ DockerService.find_container cId (containers (docker w')) = None
    ∧ registry_same w w'.
Proof.
  intros Hstop Hrem Hc.
  unfold DockerService.stopContainer, emit.
  unfold mbind at 1, M_bind at 1, bind at 1, modify. unfold try_catch.
  unfold mbind at 1, M_bind at 1, bind at 1. rewrite inspect_eq. simpl. rewrite Hc.
  unfold mbind, M_bind, bind.
  destruct (decide (cstate c = running)) as [Hrun|Hrun].
  - rewrite container_stop_eq. simpl. rewrite Hstop.
    rewrite container_remove_eq. simpl. rewrite Hrem.
    destruct (find_container_update cId cId
                (fun c => mkContainer (cid c) exited (labelled c) (published c))
                (containers (docker w))) as [c' ->]; [done|by rewrite Hc|].
    eexists. split; [reflexivity|]. simpl.
    split; [apply find_container_drop_same|by repeat split].
  - unfold ret at 1. rewrite container_remove_eq. simpl. rewrite Hc, Hrem.
    eexists. split; [reflexivity|]. simpl.
    split; [apply find_container_drop_same|by repeat split].
Qed.

(** What [record] stores and what it answers, when it returns. *)
Lemma record_full ci duration uid w r w' :
  SessionManager.record ci duration uid w = (Returned r, w') →
  ∃ s, resp_containerId r = info_id ci
    ∧ sessions w' = <[info_id ci := s]> (sessions w)
    ∧ docker w' = docker w ∧ clock w' = clock w
    ∧ containerId s = info_id ci
    ∧ expiresAt s = resp_expiresAt r ∧ hostPort s = resp_hostPort r
    ∧ resp_expiresAt r = clock w + duration
    ∧ resp_remainingTimeMs r = duration.
Proof.
  destruct (record_outcome ci duration uid w)
    as (r0 & w0 & s & -> & Hid & Hs & _ & Hd & _ & Hc & Hsid & He & Hp & _ & Hat & Hrem & _).
  case_decide; [|done]. intros [= <- <-]. exists s. done.
Qed.

(** X13. A [createSession] call that returns found the registry below its
    ceiling and leaves it at most at the ceiling; the session it answers
    with is in the registry under the id of the answer, with the expiry
    and the port of the answer, the expiry being the requested duration
    (or the default one) from now; and the runtime holds a running
    container of that id. *)
Theorem createSession_registers_running_container (cfg : Config)
    (durationMs : option Z) (uid : option string) (w : World)
    (r : SessionResponse) (w' : World) :
  SessionManager.createSession cfg durationMs uid w = (Returned r, w') →
  Z.of_nat (size (sessions w)) < maxSessions cfg
  ∧ Z.of_nat (size (sessions w')) <= maxSessions cfg
  ∧ (∃ s, sessions w' = <[resp_containerId r := s]> (sessions w)
          ∧ containerId s = resp_containerId r
          ∧ expiresAt s = resp_expiresAt r ∧ hostPort s = resp_hostPort r)
  ∧ resp_expiresAt r = clock w' + number_or durationMs (defaultDurationMs cfg)
  ∧ resp_remainingTimeMs r = number_or durationMs (defaultDurationMs cfg)
  ∧ (∃ c, DockerService.find_container (resp_containerId r) (containers (docker w'))
          = Some c ∧ cstate c = running).
Proof.
  unfold SessionManager.createSession. rewrite try_catch_rethrow.
  unfold mbind, M_bind, bind. rewrite admission_eq.
  case_decide; [done|].
  pose proof (provision_frame_startContainer cfg w) as (Hs & _).
  destruct (DockerService.startContainer cfg w) as [[ci|e] w1] eqn:Hstart; [|done].
  simpl in Hs. apply startContainer_running in Hstart as (c & Hc & Hrun & _).
  intros Hrec.
  destruct (record_full _ _ _ _ _ _ Hrec)
    as (s & Hid & Hs2 & Hd & Hclock & Hsid & Hexp & Hport & Hat & Hrem).
  split; [lia|]. split.
  { rewrite Hs2, Hs.
    pose proof (map_size_insert (info_id ci) s (sessions w)) as Hsize.
    destruct (sessions w !! info_id ci); simpl in Hsize; lia. }
  split. { exists s. rewrite Hid, Hs2, Hs. done. }
  rewrite Hclock, Hd, Hid. eauto.
Qed.

(** X13, witness: the first session of a fresh process. *)
Lemma createSession_registers_running_container_witness :
  ∃ r w', SessionManager.createSession ten_slots None None fresh_world = (Returned r, w')
    ∧ Z.of_nat (size (sessions w')) <= maxSessions ten_slots
    ∧ ∃ c, DockerService.find_container (resp_containerId r) (containers (docker w'))
           = Some c ∧ cstate c = running.
Proof.
  destruct (SessionManager.createSession ten_slots None None fresh_world)
    as [[r|e] w'] eqn:Hrun.
  - exists r, w'. split; [reflexivity|].
    destruct (createSession_registers_running_container _ _ _ _ _ _ Hrun)
      as (_ & Hsize & _ & _ & _ & Hc).
    split; [exact Hsize | exact Hc].
  - vm_compute in Hrun. discriminate Hrun.
Defined.

(** X14. Create, then stop.  With a runtime that accepts stops and
    removals, stopping the session [createSession] has just answered with
    returns [true]; afterwards the registry has no entry under that id and
    is otherwise as before the creation, the session is not active, and
    the container is gone from the runtime. *)
Theorem create_then_stop (cfg : Config) (durationMs : option Z)
    (uid : option string) (w : World) (r : SessionResponse) (w1 : World) :
  stopFails (docker w) = false → removeFails (docker w) = false →
  SessionManager.createSession cfg durationMs uid w = (Returned r, w1) →
  ∃ w2, SessionManager.stopSession (resp_containerId r) w1 = (Returned true, w2)
    ∧ sessions w2 = delete (resp_containerId r) (sessions w)
    ∧ SessionManager.isSessionActive w2 (resp_containerId r) = false
    ∧ DockerService.find_container (resp_containerId r) (containers (docker w2))
      = None.
Proof.
  intros Hstop Hrem.
  unfold SessionManager.createSession. rewrite try_catch_rethrow.
  unfold mbind, M_bind, bind. rewrite admission_eq.
  case_decide; [done|].
  pose proof (provision_frame_startContainer cfg w) as (Hs & _).
  pose proof (faults_same_startContainer cfg w) as (_ & Hstop1 & Hrem1).
  destruct (DockerService.startContainer cfg w) as [[ci|e] wa] eqn:Hstart; [|done].
  simpl in Hs, Hstop1, Hrem1.
  apply startContainer_running in Hstart as (c & Hc & _).
  intros Hrec.
  destruct (record_full _ _ _ _ _ _ Hrec) as (s & Hid & Hs2 & Hd & _).
  rewrite Hid.
  unfold SessionManager.stopSession, try_catch, mbind, M_bind, bind.
  destruct (stopContainer_removes (info_id ci) w1 c)
    as (wc & -> & Hgone & Hsc & _); [congruence..|].
  destruct (removeSession_spec (info_id ci) wc) as (w2 & -> & Hs3 & _ & _ & Hd3).
  rewrite Hsc, Hs2, lookup_insert_eq.
  rewrite bool_decide_eq_true_2 by eauto.
  exists w2. split; [done|].
  assert (Hfinal : sessions w2 = delete (info_id ci) (sessions w)).
  { rewrite Hs3, Hsc, Hs2, Hs. apply delete_insert_eq. }
  split; [done|]. split.
  - apply isSessionActive_absent. rewrite Hfinal. apply lookup_delete_eq.
  - by rewrite Hd3.
Qed.

(** X14, witness: the first session of a fresh process, stopped. *)
Lemma create_then_stop_witness :
  ∃ r w1 w2,
    SessionManager.createSession ten_slots None None fresh_world = (Returned r, w1)
    ∧ SessionManager.stopSession (resp_containerId r) w1 = (Returned true, w2)
    ∧ sessions w2 = delete (resp_containerId r) (sessions fresh_world)
    ∧ DockerService.find_container (resp_containerId r) (containers (docker w2))
      = None.
Proof.
  destruct (SessionManager.createSession ten_slots None None fresh_world)
    as [[r|e] w1] eqn:Hrun.
  - destruct (create_then_stop ten_slots None None fresh_world r w1)
      as (w2 & Hret & Hs & _ & Hgone).
    + vm_compute. reflexivity.
    + vm_compute. reflexivity.
    + exact Hrun.
    + exists r, w1, w2. split; [reflexivity|]. split; [exact Hret|].
      split; [exact Hs | exact Hgone].
  - vm_compute in Hrun. discriminate Hrun.
Defined.

(* ===================================================================== *)
(** ** A session across a restart *)
(* ===================================================================== *)

(** The restore of a process that reaches a mirror with nothing in
    flight. *)
Lemma initializeRedis_settled cfg d w :
  persistenceEnabled cfg = true →
  SessionStore.initializeRedis cfg (Some (mkRedis d [])) w
  = forEach (SessionStore.sessionKeys (mkRedis d [])) SessionStore.loadKey
      (set_redis (Some (mkRedis d [])) w).
Proof.
  intros Hp.
  unfold SessionStore.initializeRedis, SessionStore.loadSessionsFromRedis,
    SessionStore.redis_await.
  rewrite Hp. unfold_js. reflexivity.
Qed.

(** X15. A session does not outlive its process.  Let a store with a
    connected mirror, whose records sit under the key of their session and
    which has no record for an id, create a session under that id.  The
    session is registered, but the mirror client is as before: no write
    was handed to it.  A process started afterwards with an empty store
    and persistence enabled, reading that mirror once everything in flight
    has completed, restores without throwing and does not have the
    session, expired or not. *)
Theorem session_lost_on_restart (cfg : Config) (w : World) (r : Redis)
    (cId : string) (port durationMs : Z) (uid : option string) (restart : World) :
  persistenceEnabled cfg = true →
  redis w = Some r →
  mirror_keyed (rdata (redis_settle r)) →
  rdata (redis_settle r) !! redis_key cId = None →
  sessions restart = ∅ →
  is_Some (sessions (SessionStore.createSession cId port durationMs uid w).2 !! cId)
  ∧ ∃ r1 w2,
      redis (SessionStore.createSession cId port durationMs uid w).2 = Some r1
      ∧ r1 = r
      ∧ SessionStore.initializeRedis cfg (Some (redis_settle r1)) restart
        = (Returned tt, w2)
      ∧ sessions w2 !! cId = None
      ∧ timers w2 = timers restart.
Proof.
  intros Hp Hr Hkeyed Hnone Hempty.
  rewrite store_createSession_eq. simpl. rewrite lookup_insert_eq.
  split; [eauto|].
  set (d := rdata (redis_settle r)) in *.
  set (w0 := set_redis (Some (mkRedis d [])) restart).
  destruct (forEach_loadKey (SessionStore.sessionKeys (mkRedis d []))
              (NoDup_sessionKeys _) w0 d eq_refl)
    as (w2 & d2 & Hload & Ht & _ & _ & _ & _ & Hsame & _).
  exists r, w2. split; [exact Hr|]. split; [done|]. split.
  { change (redis_settle r) with (mkRedis d []).
    rewrite initializeRedis_settled by done. exact Hload. }
  split; [|exact Ht].
  rewrite Hsame; [subst w0; simpl; by rewrite Hempty|].
  intros k ttl s _ Hk _ Hid.
  pose proof (Hkeyed k ttl s Hk) as Hkey. rewrite Hid in Hkey. subst k.
  congruence.
Qed.

(** X15, witness: the first session of a mirrored process, and a restart
    100 seconds later. *)
Lemma session_lost_on_restart_witness :
  is_Some (sessions (SessionStore.createSession "0" 32768 300000 None
                       mirrored_world).2 !! "0")
  ∧ ∃ r1 w2,
      redis (SessionStore.createSession "0" 32768 300000 None mirrored_world).2
      = Some r1
      ∧ r1 = mkRedis ∅ []
      ∧ SessionStore.initializeRedis ten_slots (Some (redis_settle r1))
          (set_clock 1100000 fresh_world)
        = (Returned tt, w2)
      ∧ sessions w2 !! "0" = None
      ∧ timers w2 = timers (set_clock 1100000 fresh_world).
Proof.
  apply (session_lost_on_restart ten_slots mirrored_world (mkRedis ∅ [])).
  - reflexivity.
  - reflexivity.
  - intros k ttl s Hk. vm_compute in Hk. discriminate Hk.
  - reflexivity.
  - reflexivity.
Defined.

(* ===================================================================== *)
(** ** Shutdown *)
(* ===================================================================== *)

#[global] Instance winds_preorder : PreOrder winds.
Proof.
  split.
  - intros w. split; [done|]. split; [done|]. split; [by left|]. split; [done|].
    reflexivity.
  - intros w1 w2 w3 (Ha & Hb & Hc & Hd & He) (Ha' & Hb' & Hc' & Hd' & He').
    split; [by eauto|]. split; [by eauto|]. split.
    { intros k s h Hs Ht. destruct (Hc k s h Hs Ht) as [Hs2|Hdead].
      - by apply (Hc' k s h).
      - right. by apply Hb'. }
    split; [by eauto|]. by etrans.
Qed.

(** A step that leaves registry and timers alone winds down when it makes
    no container appear and keeps the faults. *)
Lemma winds_runtime_only w w' :
  sessions w' = sessions w → timers w' = timers w →
  (∀ other, DockerService.find_container other (containers (docker w)) = None →
     DockerService.find_container other (containers (docker w')) = None) →
  faults_same w w' → winds w w'.
Proof.
  intros Hs Ht Hd Hf. split; [by rewrite Hs|]. split; [by rewrite Ht|].
  split; [intros; left; by rewrite Hs|]. done.
Qed.

Lemma winds_emit e : keeps winds (emit e).
Proof. apply keeps_modify. intros w. apply winds_runtime_only; by repeat split. Qed.

Lemma winds_docker (f : Docker → Docker) :
  (∀ d other, DockerService.find_container other (containers d) = None →
     DockerService.find_container other (containers (f d)) = None) →
  (∀ d, listFails (f d) = listFails d ∧ stopFails (f d) = stopFails d
        ∧ removeFails (f d) = removeFails d) →
  keeps winds (DockerService.modify_docker f).
Proof.
  intros Hfind Hflags. apply keeps_modify. intros w.
  apply winds_runtime_only; simpl; [done|done|apply Hfind|apply Hflags].
Qed.

Lemma find_container_update_none cId other f cs :
  (∀ c, cid (f c) = cid c) →
  DockerService.find_container other cs = None →
  DockerService.find_container other (DockerService.update_container cId f cs) = None.
Proof.
  intros Hf. unfold DockerService.find_container, DockerService.update_container.
  induction cs as [|c cs IH]; [done|].
  rewrite fmap_cons. cbn [List.find].
  assert (Hcid : cid (if decide (cid c = cId) then f c else c) = cid c)
    by (case_decide; [apply Hf | done]).
  rewrite Hcid. by destruct (bool_decide (cid c = other)).
Qed.

Lemma find_container_drop_none cId other cs :
  DockerService.find_container other cs = None →
  DockerService.find_container other (DockerService.drop_container cId cs) = None.
Proof.
  intros Hnone. destruct (decide (other = cId)) as [->|Hne].
  - apply find_container_drop_same.
  - by rewrite find_container_drop_other.
Qed.

#[export] Hint Resolve winds_emit : frames.

Lemma winds_inspect cId : keeps winds (DockerService.inspect cId).
Proof. unfold DockerService.inspect. frames. Qed.

Lemma winds_container_stop cId : keeps winds (DockerService.container_stop cId).
Proof.
  unfold DockerService.container_stop. frames.
  apply winds_docker; [|by repeat split].
  intros d other. simpl. by apply find_container_update_none.
Qed.

Lemma winds_container_remove cId : keeps winds (DockerService.container_remove cId).
Proof.
  unfold DockerService.container_remove. frames.
  match goal with |- context [match ?x with _ => _ end] => destruct x end; frames.
  apply winds_docker; [|by repeat split].
  intros d other. simpl. apply find_container_drop_none.
Qed.

#[export] Hint Resolve winds_inspect winds_container_stop winds_container_remove
  : frames.

Lemma winds_stopContainer cId : keeps winds (DockerService.stopContainer cId).
Proof. unfold DockerService.stopContainer. frames. Qed.

Lemma winds_removeSession cId : keeps winds (SessionStore.removeSession cId).
Proof.
  intros w. destruct (sessions w !! cId) as [s|] eqn:Hs.
  - destruct (removeSession_present cId w s Hs) as (w' & -> & Hs' & Ht' & _ & Hd' & _).
    simpl. split; [|split; [|split; [|split]]].
    + intros k s0. rewrite Hs'. intros [_ ?]%lookup_delete_Some. done.
    + intros h Hh. rewrite Ht'. simpl. destruct (timer s); [|done].
      apply lookup_delete_None. by right.
    + intros k s0 h Hk Hh. destruct (decide (k = cId)) as [->|Hne].
      * right. rewrite Ht'. simpl. rewrite Hs in Hk. injection Hk as <-.
        rewrite Hh. apply lookup_delete_eq.
      * left. rewrite Hs'. by rewrite lookup_delete_ne.
    + by rewrite Hd'.
    + unfold faults_same. by rewrite Hd'.
  - rewrite removeSession_absent by done. simpl. reflexivity.
Qed.

#[export] Hint Resolve winds_stopContainer winds_removeSession : frames.

Lemma winds_stopSession cId : keeps winds (SessionManager.stopSession cId).
Proof. unfold SessionManager.stopSession. frames. Qed.

(** In a runtime that accepts stops and removals, the container of a
    stopped session is gone, whether it was there or not. *)
Lemma stopSession_gone cId w :
  stopFails (docker w) = false → removeFails (docker w) = false →
  DockerService.find_container cId
    (containers (docker (SessionManager.stopSession cId w).2)) = None.
Proof.
  intros Hstop Hrem.
  unfold SessionManager.stopSession, try_catch, mbind, M_bind, bind.
  pose proof (winds_stopContainer cId w) as (_ & _ & _ & Hnone & _).
  destruct (stopContainer_spec cId w) as (b & w1 & δ & Hrun & _).
  assert (Hgone : DockerService.find_container cId (containers (docker w1)) = None).
  { destruct (DockerService.find_container cId (containers (docker w))) as [c|] eqn:Hc.
    - destruct (stopContainer_removes cId w c Hstop Hrem Hc) as (w1' & Hrun' & Hg & _).
      rewrite Hrun in Hrun'. by injection Hrun' as _ <-.
    - rewrite Hrun in Hnone. by apply Hnone. }
  rewrite Hrun.
  destruct (removeSession_spec cId w1) as (w2 & -> & _ & _ & _ & Hd).
  simpl. by rewrite Hd.
Qed.

(** The loop of [shutdown] over the sessions. *)
Lemma forEach_stopSession (l : list Session) (w : World) :
  ∃ w' δ,
    forEach l (fun session =>
                 SessionManager.stopSession (containerId session);; ret tt) w
    = (Returned tt, w')
    ∧ winds w w'
    ∧ trace w' = trace w ++ δ ∧ count is_terminate δ = length l
    ∧ (stopFails (docker w) = false → removeFails (docker w) = false →
       ∀ s, s ∈ l →
         DockerService.find_container (containerId s) (containers (docker w')) = None).
Proof.
  revert w. induction l as [|x l IH]; intros w.
  - exists w, []. split; [done|]. split; [reflexivity|].
    split; [by rewrite app_nil_r|]. split; [done|].
    intros _ _ s Hs. by apply elem_of_nil in Hs.
  - cbn [forEach]. unfold mbind at 1, M_bind at 1, bind at 1.
    unfold mbind at 1, M_bind at 1, bind at 1.
    pose proof (winds_stopSession (containerId x) w) as Hwinds.
    pose proof (stopSession_gone (containerId x) w) as Hgone.
    destruct (stopSession_spec (containerId x) w)
      as (b & w1 & δ1 & Hrun & _ & _ & _ & Ht1 & Hδ1).
    rewrite Hrun in Hwinds, Hgone |- *. simpl in Hwinds, Hgone.
    unfold ret at 1.
    destruct (IH w1) as (w' & δ & -> & Hwinds' & Ht & Hδ & Hall).
    exists w', (EvStopContainer (containerId x) :: δ1 ++ δ).
    split; [done|]. split; [by etrans|]. split.
    { rewrite Ht, Ht1, <- app_assoc. done. }
    split.
    { unfold count in *. rewrite filter_cons, decide_True by done.
      rewrite filter_app, length_cons, length_app. simpl. lia. }
    intros Hstop Hrem s Hs.
    destruct Hwinds as (_ & _ & _ & _ & _ & Hstop1 & Hrem1).
    destruct Hwinds' as (_ & _ & _ & Hnone' & _).
    apply elem_of_cons in Hs as [->|Hs].
    + apply Hnone'. by apply Hgone.
    + apply Hall; [congruence|congruence|done].
Qed.

(** Clearing the timers of a list of sessions. *)
Lemma forEach_clearTimeout (l : list Session) (w : World) :
  ∃ w', forEach l (fun session => clearTimeout (timer session)) w = (Returned tt, w')
    ∧ sessions w' = sessions w ∧ docker w' = docker w ∧ trace w' = trace w
    ∧ (∀ h, live (timers w) !! h = None → live (timers w') !! h = None)
    ∧ (∀ s h, s ∈ l → timer s = Some h → live (timers w') !! h = None).
Proof.
  revert w. induction l as [|x l IH]; intros w.
  - exists w. repeat split; try done. intros s h Hs. by apply elem_of_nil in Hs.
  - cbn [forEach]. unfold mbind at 1, M_bind at 1, bind at 1.
    rewrite clearTimeout_eq. destruct (timer x) as [hx|] eqn:Hx.
    + destruct (IH (set_timers (mkTimers (delete hx (live (timers w)))
                                          (next_handle (timers w))) w))
        as (w' & -> & Hs & Hd & Ht & Hdead & Hall).
      exists w'. split; [done|]. split; [done|]. split; [done|]. split; [done|].
      split.
      * intros h Hh. apply Hdead. simpl. apply lookup_delete_None. by right.
      * intros s h [->|Hin]%elem_of_cons Hh.
        -- apply Hdead. simpl. rewrite Hx in Hh. injection Hh as ->.
           apply lookup_delete_eq.
        -- by apply (Hall s).
    + destruct (IH w) as (w' & -> & Hs & Hd & Ht & Hdead & Hall).
      exists w'. split; [done|]. split; [done|]. split; [done|]. split; [done|].
      split; [done|].
      intros s h [->|Hin]%elem_of_cons Hh; [congruence|by apply (Hall s)].
Qed.

(** [SessionStore.shutdown]. *)
Lemma store_shutdown_spec (w : World) :
  ∃ w', SessionStoreRest.shutdown w = (Returned tt, w')
    ∧ sessions w' = ∅ ∧ docker w' = docker w ∧ trace w' = trace w
    ∧ (∀ h, live (timers w) !! h = None → live (timers w') !! h = None)
    ∧ (∀ k s h, sessions w !! k = Some s → timer s = Some h →
         live (timers w') !! h = None).
Proof.
  unfold SessionStoreRest.shutdown, SessionStore.redis_await.
  unfold mbind at 1, M_bind at 1, bind at 1, modify.
  unfold mbind at 1, M_bind at 1, bind at 1, get.
  unfold mbind at 1, M_bind at 1, bind at 1.
  set (w0 := match redis w with
             | Some r => set_redis (Some (redis_settle r)) w
             | None => w
             end).
  assert (Hw0 : sessions w0 = sessions w ∧ timers w0 = timers w
                ∧ docker w0 = docker w ∧ trace w0 = trace w)
    by (unfold w0; by destruct (redis w)).
  destruct Hw0 as (Hs0 & Ht0 & Hd0 & Htr0).
  destruct (forEach_clearTimeout (SessionStore.getAllSessions w0) w0)
    as (w1 & -> & Hs & Hd & Ht & Hdead & Hall).
  eexists. split; [reflexivity|]. simpl.
  split; [done|]. split; [congruence|]. split; [congruence|]. split.
  - intros h Hh. apply Hdead. by rewrite Ht0.
  - intros k s h Hk Hh. apply (Hall s h); [|done].
    unfold SessionStore.getAllSessions. apply list_elem_of_fmap.
    exists (k, s). split; [done|]. apply elem_of_map_to_list. by rewrite Hs0.
Qed.

(** X16. [SessionManager.shutdown] never throws.  Afterwards the registry
    is empty; the timer of every session that was registered is cleared
    and no timer is armed; [stopContainer] was entered exactly once per
    registered session; no container has appeared in the runtime; and if
    the runtime accepts stops and removals, the container of every
    registered session is gone. *)
Theorem shutdown_winds_down (w : World) :
  ∃ w' δ, SessionManagerRest.shutdown w = (Returned tt, w')
    ∧ sessions w' = ∅
    ∧ (∀ k s h, sessions w !! k = Some s → timer s = Some h →
         live (timers w') !! h = None)
    ∧ (∀ h, live (timers w) !! h = None → live (timers w') !! h = None)
    ∧ trace w' = trace w ++ δ ∧ count is_terminate δ = size (sessions w)
    ∧ (∀ other, DockerService.find_container other (containers (docker w)) = None →
         DockerService.find_container other (containers (docker w')) = None)
    ∧ (stopFails (docker w) = false → removeFails (docker w) = false →
       ∀ k s, sessions w !! k = Some s →
         DockerService.find_container (containerId s) (containers (docker w')) = None).
Proof.
  unfold SessionManagerRest.shutdown, try_catch.
  unfold mbind at 1, M_bind at 1, bind at 1, get.
  unfold mbind at 1, M_bind at 1, bind at 1.
  destruct (forEach_stopSession (SessionStore.getAllSessions w) w)
    as (w1 & δ & -> & Hwinds & Ht & Hδ & Hall).
  destruct (store_shutdown_spec w1) as (w' & -> & Hs & Hd & Ht' & Hdead & Hcleared).
  destruct Hwinds as (_ & Hdead1 & Hc & Hnone & _).
  exists w', δ. split; [done|]. split; [done|]. split.
  { intros k s h Hk Hh. destruct (Hc k s h Hk Hh) as [Hk1|Hgone].
    - by apply (Hcleared k s h).
    - by apply Hdead. }
  split; [by eauto|]. split; [congruence|]. split.
  { rewrite Hδ. unfold SessionStore.getAllSessions.
    by rewrite length_fmap, length_map_to_list. }
  split; [intros other Ho; rewrite Hd; by apply Hnone|].
  intros Hstop Hrem k s Hk. rewrite Hd. apply Hall; [done|done|].
  unfold SessionStore.getAllSessions. apply list_elem_of_fmap.
  exists (k, s). split; [done|]. by apply elem_of_map_to_list.
Qed.

(** X16, witness: shutting down the process with one running session. *)
Lemma shutdown_winds_down_witness :
  ∃ w' δ, SessionManagerRest.shutdown busy_world = (Returned tt, w')
    ∧ sessions w' = ∅
    ∧ count is_terminate δ = size (sessions busy_world)
    ∧ ∀ k s, sessions busy_world !! k = Some s →
        DockerService.find_container (containerId s) (containers (docker w')) = None.
Proof.
  destruct (shutdown_winds_down busy_world)
    as (w' & δ & Hrun & Hs & _ & _ & _ & Hδ & _ & Hgone).
  exists w', δ. split; [exact Hrun|]. split; [exact Hs|]. split; [exact Hδ|].
  apply Hgone; vm_compute; reflexivity.
Defined.

(* ===================================================================== *)
(** ** The two views of the registry *)
(* ===================================================================== *)

(** X17. With every session under its own id, [getAllSessions] lists
    exactly the answers [getSessionInfo] gives: an answer is in the list
    if and only if [getSessionInfo] gives it for its [containerId].  The
    list has one answer per registered session, and the remaining time of
    each answer is what is left until its expiry, and 0 once that has
    passed. *)
Theorem session_views_agree (w : World) :
  registry_keyed w →
  (∀ r, r ∈ SessionManagerRest.getAllSessions w
        ↔ SessionManagerRest.getSessionInfo w (resp_containerId r) = Some r)
  ∧ Z.of_nat (length (SessionManagerRest.getAllSessions w))
    = SessionStore.getActiveSessionsCount w
  ∧ (∀ r, r ∈ SessionManagerRest.getAllSessions w →
       resp_remainingTimeMs r = Z.max 0 (resp_expiresAt r - clock w)).
Proof.
  intros Hkeyed.
  assert (Hlist : ∀ r, r ∈ SessionManagerRest.getAllSessions w
                       ↔ ∃ k s, sessions w !! k = Some s
                                ∧ r = SessionManagerRest.toResponse w s).
  { intros r. unfold SessionManagerRest.getAllSessions, SessionStore.getAllSessions.
    rewrite list_elem_of_fmap. split.
    - intros (s & -> & Hs). apply list_elem_of_fmap in Hs as ([k s'] & -> & Hin).
      apply elem_of_map_to_list in Hin. by exists k, s'.
    - intros (k & s & Hk & ->). exists s. split; [done|].
      apply list_elem_of_fmap. exists (k, s). split; [done|].
      by apply elem_of_map_to_list. }
  split; [|split].
  - intros r. rewrite Hlist. unfold SessionManagerRest.getSessionInfo,
      SessionStore.getSession. split.
    + intros (k & s & Hk & ->). simpl. pose proof (Hkeyed k s Hk) as Hid.
      rewrite Hid, Hk. unfold SessionManagerRest.toResponse. by rewrite Hid.
    + destruct (sessions w !! resp_containerId r) as [s|] eqn:Hs; [|done].
      intros [= Hr]. exists (containerId s), s.
      pose proof (Hkeyed _ s Hs) as Hid. rewrite <- Hid in Hs, Hr.
      split; [done|]. by rewrite <- Hr.
  - unfold SessionManagerRest.getAllSessions, SessionStore.getAllSessions,
      SessionStore.getActiveSessionsCount.
    by rewrite !length_fmap, length_map_to_list.
  - intros r (k & s & Hk & ->)%Hlist. simpl.
    unfold SessionStore.getRemainingTime. pose proof (Hkeyed k s Hk) as Hid.
    by rewrite Hid, Hk.
Qed.

(** X17, witness: the process with one running session. *)
Lemma session_views_agree_witness :
  Z.of_nat (length (SessionManagerRest.getAllSessions busy_world))
  = SessionStore.getActiveSessionsCount busy_world.
Proof.
  apply (session_views_agree busy_world).
  assert (Hall : Forall (fun p : string * Session => containerId p.2 = p.1)
                        (map_to_list (sessions busy_world))).
  { apply (bool_decide_unpack _). vm_compute. exact I. }
  intros k s Hk. apply elem_of_map_to_list in Hk.
  rewrite Forall_forall in Hall. exact (Hall (k, s) Hk).
Defined.

(* ===================================================================== *)
(** ** The ceiling of the runtime *)
(* ===================================================================== *)

(** X18. When the runtime can list its containers, the capacity test of
    [startContainer] counts the running containers that carry the label,
    and no others.  With that count at the ceiling [startContainer] throws
    the ceiling error after the listing and nothing else: no image, create
    or start call is made and the runtime is unchanged; a [createSession]
    that had room in the registry fails with the same error and the start
    handler answers 429.  With the count below the ceiling
    [startContainer] goes on to provision. *)
Theorem runtime_ceiling (cfg : Config) (durationMs : option Z)
    (uid : option string) (w : World) :
  listFails (docker w) = false →
  DockerService.getActiveContainersCount w
  = (Returned (Z.of_nat (length (running_labelled (docker w)))),
     set_trace (trace w ++ [EvListContainers]) w)
  ∧ (Z.of_nat (length (running_labelled (docker w))) >= maxSessions cfg →
     DockerService.startContainer cfg w
     = (Thrown (MaxSessionsReached (maxSessions cfg)),
        set_trace (trace w ++ [EvListContainers]) w)
     ∧ (Z.of_nat (size (sessions w)) < maxSessions cfg →
        SessionManager.createSession cfg durationMs uid w
        = (Thrown (MaxSessionsReached (maxSessions cfg)),
           set_trace (trace w ++ [EvListContainers]) w)
        ∧ HandlersRest.startSession cfg true durationMs uid w
          = (Returned (HandlersRest.mkStart 429 false
                         (Some (error_message (MaxSessionsReached (maxSessions cfg))))
                         None),
             set_trace (trace w ++ [EvListContainers]) w)))
  ∧ (Z.of_nat (length (running_labelled (docker w))) < maxSessions cfg →
     DockerService.startContainer cfg w
     = DockerService.provision (set_trace (trace w ++ [EvListContainers]) w)).
Proof.
  intros Hlist.
  assert (Hcount : DockerService.getActiveContainersCount w
    = (Returned (Z.of_nat (length (running_labelled (docker w)))),
       set_trace (trace w ++ [EvListContainers]) w)).
  { unfold DockerService.getActiveContainersCount, DockerService.listContainers, emit.
    unfold_js. simpl. rewrite Hlist. unfold running_labelled.
    do 4 f_equal. apply filter_ext_in. intros c _. split.
    - by intros [? [[=]|?]].
    - intros [? ?]. split; [done|by right]. }
  split; [exact Hcount|]. split.
  - intros Hfull.
    assert (Hstart : DockerService.startContainer cfg w
      = (Thrown (MaxSessionsReached (maxSessions cfg)),
         set_trace (trace w ++ [EvListContainers]) w)).
    { unfold DockerService.startContainer. rewrite try_catch_rethrow.
      unfold DockerService.capacityCheck, mbind, M_bind, bind. rewrite Hcount.
      by rewrite decide_True. }
    split; [exact Hstart|]. intros Hroom.
    assert (Hcreate : SessionManager.createSession cfg durationMs uid w
      = (Thrown (MaxSessionsReached (maxSessions cfg)),
         set_trace (trace w ++ [EvListContainers]) w)).
    { unfold SessionManager.createSession. rewrite try_catch_rethrow.
      unfold mbind, M_bind, bind. rewrite admission_eq.
      rewrite decide_False by lia. by rewrite Hstart. }
    split; [exact Hcreate|].
    unfold HandlersRest.startSession, try_catch. simpl.
    unfold mbind, M_bind, bind. rewrite Hcreate. unfold ret.
    by rewrite includes_ceiling_message.
  - intros Hroom.
    unfold DockerService.startContainer. rewrite try_catch_rethrow.
    unfold DockerService.capacityCheck.
    unfold mbind at 1, M_bind at 1, bind at 1.
    unfold mbind at 1, M_bind at 1, bind at 1. rewrite Hcount.
    by rewrite decide_False by lia.
Qed.

(** X18, witness: one slot, and one running container among the five of
    the runtime. *)
Lemma runtime_ceiling_witness :
  DockerService.startContainer one_slot littered_world
  = (Thrown (MaxSessionsReached (maxSessions one_slot)),
     set_trace (trace littered_world ++ [EvListContainers]) littered_world)
  ∧ HandlersRest.startSession one_slot true None None littered_world
    = (Returned (HandlersRest.mkStart 429 false
                   (Some (error_message (MaxSessionsReached (maxSessions one_slot))))
                   None),
       set_trace (trace littered_world ++ [EvListContainers]) littered_world).
Proof.
  destruct (runtime_ceiling one_slot None None littered_world) as (_ & Hfull & _).
  { vm_compute. reflexivity. }
  destruct Hfull as (Hstart & Hhandler).
  { vm_compute. discriminate. }
  split; [exact Hstart|]. apply Hhandler. vm_compute. reflexivity.
Defined.

(* ===================================================================== *)
(** ** The registry on a process with a running session *)
(* ===================================================================== *)

(** X1, witness: a second session next to the running one. *)
Lemma store_create_then_read_witness :
  ∃ s w', SessionStore.createSession "1" 32769 60000 None busy_world = (Returned s, w')
    ∧ SessionStore.getSession w' "1" = Some s
    ∧ SessionStore.getSession w' "0" = SessionStore.getSession busy_world "0".
Proof.
  destruct (store_create_then_read busy_world "1" 32769 60000 None)
    as (s & w' & Hrun & Hget & _ & _ & _ & _ & _ & _ & Hother).
  { vm_compute. split; discriminate. }
  exists s, w'. split; [exact Hrun|]. split; [exact Hget|].
  apply Hother. discriminate.
Defined.

(** X2, witness: removing an id that is not there, next to the running
    session. *)
Lemma store_remove_idempotent_witness :
  ∃ w', SessionStore.removeSession "1" busy_world
          = (Returned (bool_decide (is_Some (sessions busy_world !! "1"))), w')
    ∧ SessionStore.getSession w' "0" = SessionStore.getSession busy_world "0"
    ∧ SessionStore.removeSession "1" w' = (Returned false, w').
Proof.
  destruct (store_remove_idempotent busy_world "1")
    as (w' & Hrun & _ & _ & _ & _ & Hother & Hagain).
  exists w'. split; [exact Hrun|]. split; [|exact Hagain].
  apply Hother. discriminate.
Defined.

(* ===================================================================== *)
(** ** The registry does not read the mirror *)
(* ===================================================================== *)

Lemma same_but_mirror_forget w w2 :
  same_but_mirror w w2 ↔ set_redis None w = set_redis None w2.
Proof.
  destruct w, w2. unfold same_but_mirror, set_redis. simpl. split.
  - by intros (-> & -> & -> & -> & ->).
  - by intros [= -> -> -> -> ->].
Qed.

(** It is enough to compare a run with the run without mirror. *)
Lemma mirror_blind_forget {A} (m : M A) :
  (∀ w, (m w).1 = (m (set_redis None w)).1
        ∧ set_redis None (m w).2 = set_redis None (m (set_redis None w)).2) →
  mirror_blind m.
Proof.
  intros Hm w w2 Hsame. apply same_but_mirror_forget in Hsame.
  destruct (Hm w) as [H1 H2]. destruct (Hm w2) as [H1' H2'].
  rewrite <- Hsame in H1', H2'. split; [congruence|].
  apply same_but_mirror_forget. congruence.
Qed.

Lemma mirror_blind_createSession cId port durationMs uid :
  mirror_blind (SessionStore.createSession cId port durationMs uid).
Proof.
  apply mirror_blind_forget. intros w.
  rewrite !store_createSession_eq. done.
Qed.

Lemma mirror_blind_updateSessionExpiry cId newExpiresAt :
  mirror_blind (SessionStore.updateSessionExpiry cId newExpiresAt).
Proof.
  apply mirror_blind_forget. intros w.
  destruct (sessions w !! cId) as [s|] eqn:Hs.
  - rewrite (updateSessionExpiry_eq _ _ w s Hs),
      (updateSessionExpiry_eq _ _ (set_redis None w) s Hs). done.
  - rewrite (updateSessionExpiry_absent _ _ w Hs),
      (updateSessionExpiry_absent _ _ (set_redis None w) Hs). done.
Qed.

Lemma mirror_blind_removeSession cId : mirror_blind (SessionStore.removeSession cId).
Proof.
  apply mirror_blind_forget. intros w.
  unfold SessionStore.removeSession, SessionStore.removeSessionFromRedis,
    SessionStore.redis_send, SessionStore.redis_await, clearTimeout.
  unfold_js. simpl. destruct (sessions w !! cId) as [s|]; [|done].
  destruct (timer s); simpl; destruct (redis w) eqn:Hr; simpl; rewrite ?Hr; done.
Qed.

Lemma mirror_blind_bind {A B} (m : M A) (k : A → M B) :
  mirror_blind m → (∀ a, mirror_blind (k a)) → mirror_blind (m ≫= k).
Proof.
  intros Hm Hk w w2 Hsame. unfold mbind, M_bind, bind.
  destruct (Hm w w2 Hsame) as [H1 H2].
  destruct (m w) as [[a|e] w1], (m w2) as [[a2|e2] w3]; simpl in *; try done.
  - injection H1 as <-. by apply Hk.
  - injection H1 as <-. by split.
Qed.

Lemma mirror_blind_ret {A} (a : A) : mirror_blind (mret a).
Proof. by intros w w2 Hsame. Qed.

Lemma mirror_blind_sweep_loop (l : list Session) :
  mirror_blind (forEach l (fun s => SessionStore.removeSession (containerId s);; ret tt)).
Proof.
  induction l as [|s l IH]; [apply mirror_blind_ret|].
  cbn [forEach]. apply mirror_blind_bind; [|by intros].
  apply mirror_blind_bind; [apply mirror_blind_removeSession|].
  intros. apply mirror_blind_ret.
Qed.

(** X19. The registry never reads the mirror outside the restore: on two
    processes that differ at most in their mirror (none, or one holding
    anything), creating, extending and removing a session, a timer coming
    due and the periodic sweep give the same answers and leave processes
    that again differ at most in their mirror. *)
Theorem registry_ignores_mirror (w w2 : World) :
  same_but_mirror w w2 →
  (∀ cId port durationMs uid,
     (SessionStore.createSession cId port durationMs uid w).1
     = (SessionStore.createSession cId port durationMs uid w2).1
     ∧ same_but_mirror (SessionStore.createSession cId port durationMs uid w).2
                       (SessionStore.createSession cId port durationMs uid w2).2)
  ∧ (∀ cId newExpiresAt,
       (SessionStore.updateSessionExpiry cId newExpiresAt w).1
       = (SessionStore.updateSessionExpiry cId newExpiresAt w2).1
       ∧ same_but_mirror (SessionStore.updateSessionExpiry cId newExpiresAt w).2
                         (SessionStore.updateSessionExpiry cId newExpiresAt w2).2)
  ∧ (∀ cId,
       (SessionStore.removeSession cId w).1 = (SessionStore.removeSession cId w2).1
       ∧ same_but_mirror (SessionStore.removeSession cId w).2
                         (SessionStore.removeSession cId w2).2)
  ∧ (∀ h,
       (SessionStore.fireTimer h w).1 = (SessionStore.fireTimer h w2).1
       ∧ same_but_mirror (SessionStore.fireTimer h w).2 (SessionStore.fireTimer h w2).2)
  ∧ (SessionStore.cleanupExpiredSessions w).1 = (SessionStore.cleanupExpiredSessions w2).1
  ∧ same_but_mirror (SessionStore.cleanupExpiredSessions w).2
                    (SessionStore.cleanupExpiredSessions w2).2.
Proof.
  intros Hsame. split; [|split; [|split; [|split]]].
  - intros. by apply mirror_blind_createSession.
  - intros. by apply mirror_blind_updateSessionExpiry.
  - intros. by apply mirror_blind_removeSession.
  - intros h. pose proof Hsame as (Hc & Hs & Ht & _).
    assert (Heq : ∀ v, SessionStore.fireTimer h v
              = match live (timers v) !! h with
                | None => (Returned false, v)
                | Some (cId, due) =>
                    if decide (due <= clock v)
                    then (clearTimeout (Some h) ≫= fun _ => SessionStore.removeSession cId) v
                    else (Returned false, v)
                end).
    { intros v. unfold SessionStore.fireTimer, mbind at 1, M_bind at 1, bind at 1, get.
      destruct (live (timers v) !! h) as [[cId due]|]; [|done]. by case_decide. }
    rewrite (Heq w), (Heq w2), Ht, Hc. destruct (live (timers w) !! h) as [[cId due]|]; [|by split].
    case_decide; [|by split].
    apply (mirror_blind_bind (clearTimeout (Some h))
             (fun _ => SessionStore.removeSession cId)); [| |done].
    + intros v v2 (?&?&Hv&?&?). split; [done|]. simpl. rewrite Hv. by repeat split.
    + intros _. apply mirror_blind_removeSession.
  - pose proof Hsame as (Hc & Hs & _).
    assert (Heq : ∀ v, SessionStore.cleanupExpiredSessions v
              = forEach (filter (fun s => expiresAt s <= clock v)
                                (map_to_list (sessions v)).*2)
                  (fun s => SessionStore.removeSession (containerId s);; ret tt) v)
      by reflexivity.
    rewrite (Heq w), (Heq w2), Hs, Hc.
    by apply mirror_blind_sweep_loop.
Qed.

(** X19, witness: a process without mirror and one with an empty mirror. *)
Lemma registry_ignores_mirror_witness :
  (SessionStore.removeSession "0" fresh_world).1
  = (SessionStore.removeSession "0" mirrored_world).1
  ∧ same_but_mirror (SessionStore.removeSession "0" fresh_world).2
                    (SessionStore.removeSession "0" mirrored_world).2.
Proof.
  apply (proj1 (proj2 (proj2 (registry_ignores_mirror fresh_world mirrored_world
                                (conj eq_refl (conj eq_refl (conj eq_refl
                                   (conj eq_refl eq_refl)))))))).
Defined.
